(** * Portfolio site: scroll manager, hamburger menu and form feedback

    A shallow embedding of the browser-side scripts of the portfolio
    (assets/js/scroll.js, which also carries the main page script, and
    assets/js/navbar.js) together with the properties the specification
    states about them.

    Conventions of the embedding:
    - a JavaScript number supplied by the browser (scroll offsets, box
      coordinates, heights) is a finite value and is modelled as a rational
      [Q]; rounding of IEEE doubles is idealised away.  Results of operations
      that can leave the finite range (division, parsing, products with
      such values) live in [JS.number], which adds the two infinities and
      NaN;
    - the DOM is a store of element records indexed by node identity, so
      that one element reachable through several NodeLists is one shared
      object;
    - an exception leaves the mutations made so far in place: a handler
      returns a [completion] carrying the store at the point it finished. *)

From Stdlib Require Import QArith Qminmax Qabs Qround Lqa.
From Stdlib Require Import DecimalString DecimalZ.
From stdpp Require Import base decidable option strings list functions gmap.

Open Scope string_scope.
Open Scope list_scope.

(** ** JavaScript values *)

Module JS.

(** Numbers: finite values plus the three special values. *)
Inductive number : Type :=
| Num (q : Q)
| PosInfinity
| NegInfinity
| NaN.

Definition Qlt_bool (x y : Q) : bool := negb (Qle_bool y x).

(** ToBoolean on numbers: 0 and NaN are falsy. *)
Definition truthy (n : number) : bool :=
  match n with
  | Num q => negb (Qeq_bool q 0)
  | PosInfinity | NegInfinity => true
  | NaN => false
  end.

(** [a || b] on numbers. *)
Definition or_else (a b : number) : number := if truthy a then a else b.

(** [a || b] where both operands are known to be finite. *)
Definition Qor_else (a b : Q) : Q := if Qeq_bool a 0 then b else a.

Definition neg (n : number) : number :=
  match n with
  | Num q => Num (- q)
  | PosInfinity => NegInfinity
  | NegInfinity => PosInfinity
  | NaN => NaN
  end.

Definition add (a b : number) : number :=
  match a, b with
  | NaN, _ | _, NaN => NaN
  | Num x, Num y => Num (x + y)
  | PosInfinity, NegInfinity | NegInfinity, PosInfinity => NaN
  | PosInfinity, _ | _, PosInfinity => PosInfinity
  | NegInfinity, _ | _, NegInfinity => NegInfinity
  end.

Definition sub (a b : number) : number := add a (neg b).

(** Sign of an infinite product, given the sign of the finite factor. *)
Definition scale_inf (pos : bool) (q : Q) : number :=
  if Qeq_bool q 0 then NaN
  else if xorb pos (Qlt_bool 0 q) then NegInfinity else PosInfinity.

Definition mul (a b : number) : number :=
  match a, b with
  | NaN, _ | _, NaN => NaN
  | Num x, Num y => Num (x * y)
  | PosInfinity, Num q | Num q, PosInfinity => scale_inf true q
  | NegInfinity, Num q | Num q, NegInfinity => scale_inf false q
  | PosInfinity, PosInfinity | NegInfinity, NegInfinity => PosInfinity
  | PosInfinity, NegInfinity | NegInfinity, PosInfinity => NegInfinity
  end.

(** Division of two finite numbers.  A zero divisor does not raise: it
    yields NaN or an infinity.  (The divisors met in the scripts are
    differences of browser values, hence never the negative zero.) *)
Definition div (x y : Q) : number :=
  if Qeq_bool y 0 then
    if Qeq_bool x 0 then NaN
    else if Qlt_bool 0 x then PosInfinity else NegInfinity
  else Num (x / y).

(** [a >= b]; every comparison with NaN is false. *)
Definition ge (a b : number) : bool :=
  match a, b with
  | NaN, _ | _, NaN => false
  | Num x, Num y => Qle_bool y x
  | PosInfinity, _ => true
  | _, NegInfinity => true
  | _, PosInfinity => false
  | NegInfinity, _ => false
  end.

Definition is_finite (n : number) : bool :=
  match n with Num _ => true | _ => false end.

(** A value that is either a string or a number, as produced by
    [el.dataset.offset || 0]. *)
Inductive value : Type :=
| VStr (s : string)
| VNum (n : number).

(** The host's conversions between strings and numbers.  Their full
    definition belongs to the language, not to the site; the scripts are
    verified against any implementation of this interface. *)
Class Builtins : Type := {
  parseFloat : string -> number;   (* parseFloat(s) *)
  StringToNumber : string -> number;  (* ToNumber applied to a string *)
  NumberToString : number -> string   (* ToString applied to a number *)
}.

Section WithBuiltins.
Context `{Builtins}.

Definition ToNumber (v : value) : number :=
  match v with VStr s => StringToNumber s | VNum n => n end.

Definition ToString (v : value) : string :=
  match v with VStr s => s | VNum n => NumberToString n end.

(** [parseFloat(x)] where [x] may be [undefined]: the argument is first
    converted to the string "undefined", which parses to NaN. *)
Definition parseFloat_opt (x : option string) : number :=
  match x with Some s => parseFloat s | None => NaN end.

(** [x || d] where [x] is a string or [undefined] and [d] a number: the
    empty string and [undefined] are falsy. *)
Definition str_or_num (x : option string) (d : number) : value :=
  match x with
  | Some s => if String.eqb s "" then VNum d else VStr s
  | None => VNum d
  end.
End WithBuiltins.

End JS.

(** ** The document: elements, boxes and the window *)

Module DOM.

(** Node identity.  Two references to the same element are the same
    [node]. *)
Definition node : Type := nat.

(** *** DOMTokenList ([el.classList]): an ordered set of tokens *)

Definition contains (t : string) (l : list string) : bool :=
  bool_decide (t ∈ l).

Definition add (t : string) (l : list string) : list string :=
  if contains t l then l else l ++ [t].

Definition remove (t : string) (l : list string) : list string :=
  filter (λ x, x ≠ t) l.

Definition toggle (t : string) (l : list string) : list string :=
  if contains t l then remove t l else add t l.

(** *** CSSStyleDeclaration ([el.style]): the inline declarations.
    The map holds the last value a script assigned to each property;
    assigning the empty string removes the declaration, and reading an
    absent property gives the empty string. *)

Definition setProperty (p v : string) (s : gmap string string)
  : gmap string string :=
  if String.eqb v "" then delete p s else <[p := v]> s.

Definition getProperty (p : string) (s : gmap string string) : string :=
  default "" (s !! p).

(** *** Elements.  [dataset] maps the camel-cased name of each [data-*]
    attribute to its value ([data-scroll-spy] is the key [scrollSpy]);
    [href] is [getAttribute('href')]. *)
Record Element : Type := {
  id : string;
  href : option string;
  classList : list string;
  style : gmap string string;
  dataset : gmap string string
}.

Definition with_classList (f : list string -> list string) (el : Element)
  : Element :=
  {| id := id el; href := href el; classList := f (classList el);
     style := style el; dataset := dataset el |}.

Definition with_style (f : gmap string string -> gmap string string)
  (el : Element) : Element :=
  {| id := id el; href := href el; classList := classList el;
     style := f (style el); dataset := dataset el |}.

Definition with_dataset (f : gmap string string -> gmap string string)
  (el : Element) : Element :=
  {| id := id el; href := href el; classList := classList el;
     style := style el; dataset := f (dataset el) |}.

(** [el.style.p = v] *)
Definition set_style (p v : string) : Element -> Element :=
  with_style (setProperty p v).

(** The store of elements. *)
Abbreviation store := (node -> Element).

(** *** What the browser computes: layout boxes and tree position.
    [top] and [bottom] are those of [getBoundingClientRect()], relative
    to the viewport. *)
Record Box : Type := {
  top : Q;
  bottom : Q;
  offsetTop : Z;
  offsetWidth : Z;
  parentElement : option node
}.

Record Window : Type := {
  scrollY : Q;
  pageYOffset : Q;
  innerHeight : Q;
  scrollHeight : Q   (* document.documentElement.scrollHeight *)
}.

(** A snapshot of everything the scripts read but do not write. *)
Record Env : Type := {
  window : Window;
  box : node -> Box;
  document : list node;  (* the elements, in document order *)
  body : node            (* document.body *)
}.

(** [document.querySelectorAll('[data-k]')]: a static list, in document
    order, of the elements carrying the attribute. *)
Definition has_data (key : string) (el : Element) : bool :=
  bool_decide (is_Some (dataset el !! key)).

Definition querySelectorAll_data (key : string) (e : Env) (d : store)
  : list node :=
  filter (λ n, has_data key (d n) = true) (document e).

(** [document.querySelector('.c')]: the first element of that class, or
    null. *)
Definition querySelector_class (c : string) (e : Env) (d : store)
  : option node :=
  head (filter (λ n, contains c (classList (d n)) = true) (document e)).

(** *** Completions *)

Inductive completion (A : Type) : Type :=
| Normal (a : A)
| Throw (a : A).
Arguments Normal {A} a.
Arguments Throw {A} a.

(** The store a handler leaves behind, however it finished. *)
Definition final {A : Type} (c : completion A) : A :=
  match c with Normal a | Throw a => a end.

Definition is_normal {A : Type} (c : completion A) : bool :=
  match c with Normal _ => true | Throw _ => false end.

Definition bind {A B : Type} (c : completion A) (throw : A -> B)
  (k : A -> completion B) : completion B :=
  match c with
  | Normal a => k a
  | Throw a => Throw (throw a)
  end.

Definition andThen {A : Type} (c : completion A) (k : A -> completion A)
  : completion A :=
  bind c (λ a, a) k.

(** [list.forEach(f)]: the callback runs on each node in turn; an
    exception ends the iteration. *)
Fixpoint forEach {A : Type} (f : node -> A -> completion A)
  (l : list node) (a : A) : completion A :=
  match l with
  | [] => Normal a
  | n :: l' => andThen (f n a) (forEach f l')
  end.

(** A callback that cannot throw. *)
Definition forEach_pure {A : Type} (f : node -> A -> A)
  (l : list node) (a : A) : A :=
  fold_left (λ acc n, f n acc) l a.

End DOM.

(** ** assets/js/scroll.js: the scroll manager *)

Module Scroll.
Import JS DOM.

(** [ScrollManager.state] *)
Record ScrollState : Type := {
  isScrolling : bool;
  scrollPosition : Q;
  maxScroll : Q;
  direction : string;   (* 'up' or 'down' *)
  lastScrollTop : Q;
  scrollVelocity : Q;
  isAtTop : bool;
  isAtBottom : bool;
  scrollPercent : number
}.

(** [ScrollManager.config] *)
Record Config : Type := {
  throttleDelay : Q;
  parallaxFactor : Q;
  revealThreshold : Q;
  hideNavbarThreshold : Q;
  scrollSpyOffset : Q;
  smoothScrollDuration : Q
}.

Definition config : Config := {|
  throttleDelay := 16;
  parallaxFactor := 5 # 10;
  revealThreshold := 15 # 100;
  hideNavbarThreshold := 100;
  scrollSpyOffset := 70;
  smoothScrollDuration := 800
|}.

(** The state literal of the object, before any event. *)
Definition initial_state : ScrollState := {|
  isScrolling := false;
  scrollPosition := 0;
  maxScroll := 0;
  direction := "down";
  lastScrollTop := 0;
  scrollVelocity := 0;
  isAtTop := true;
  isAtBottom := false;
  scrollPercent := Num 0
|}.

(** The manager object: its state and the NodeLists cached by the
    [init*] methods. *)
Record ScrollManager : Type := {
  state : ScrollState;
  parallaxElements : list node;
  revealElements : list node;
  scrollSpyTargets : list node;
  scrollSpyNavs : list node;
  hideOnScrollElements : list node;
  stickyElements : list node;
  touchTimeout : bool   (* a 150ms timer is pending *)
}.

Definition with_state (f : ScrollState -> ScrollState) (m : ScrollManager)
  : ScrollManager :=
  {| state := f (state m);
     parallaxElements := parallaxElements m;
     revealElements := revealElements m;
     scrollSpyTargets := scrollSpyTargets m;
     scrollSpyNavs := scrollSpyNavs m;
     hideOnScrollElements := hideOnScrollElements m;
     stickyElements := stickyElements m;
     touchTimeout := touchTimeout m |}.

(** *** Scroll detection and state *)

(** [window.scrollY || window.pageYOffset] *)
Definition currentScroll (w : Window) : Q :=
  Qor_else (scrollY w) (pageYOffset w).

(** The assignments [handleScroll] makes to [this.state]. *)
Definition handleScroll_state (w : Window) (s : ScrollState) : ScrollState :=
  let c := currentScroll w in
  {| isScrolling := isScrolling s;
     scrollPosition := c;
     maxScroll := maxScroll s;
     direction :=
       if Qlt_bool (lastScrollTop s) c then "down"
       else if Qlt_bool c (lastScrollTop s) then "up"
       else direction s;
     lastScrollTop := c;
     scrollVelocity := c - lastScrollTop s;
     isAtTop := Qle_bool c 0;
     isAtBottom := Qle_bool (maxScroll s - innerHeight w) c;
     scrollPercent := mul (div c (maxScroll s)) (Num 100) |}.

Definition handleWheel_state (deltaY : Q) (s : ScrollState) : ScrollState :=
  {| isScrolling := isScrolling s;
     scrollPosition := scrollPosition s;
     maxScroll := maxScroll s;
     direction :=
       if Qlt_bool 0 deltaY then "down"
       else if Qlt_bool deltaY 0 then "up"
       else direction s;
     lastScrollTop := lastScrollTop s;
     scrollVelocity := scrollVelocity s;
     isAtTop := isAtTop s;
     isAtBottom := isAtBottom s;
     scrollPercent := scrollPercent s |}.

Definition set_isScrolling (b : bool) (s : ScrollState) : ScrollState :=
  {| isScrolling := b;
     scrollPosition := scrollPosition s;
     maxScroll := maxScroll s;
     direction := direction s;
     lastScrollTop := lastScrollTop s;
     scrollVelocity := scrollVelocity s;
     isAtTop := isAtTop s;
     isAtBottom := isAtBottom s;
     scrollPercent := scrollPercent s |}.

(** [updateScrollState]: recompute the maximal scroll offset. *)
Definition updateScrollState_state (w : Window) (s : ScrollState)
  : ScrollState :=
  {| isScrolling := isScrolling s;
     scrollPosition := scrollPosition s;
     maxScroll := scrollHeight w - innerHeight w;
     direction := direction s;
     lastScrollTop := lastScrollTop s;
     scrollVelocity := scrollVelocity s;
     isAtTop := isAtTop s;
     isAtBottom := isAtBottom s;
     scrollPercent := scrollPercent s |}.

Section Effects.
Context `{Builtins}.

(** *** Parallax *)

Definition initParallax_each (n : node) (d : store) : store :=
  alter (set_style "willChange" "transform") n d.

Definition parallax_transform (w : Window) (el : Element) : string :=
  let factor :=
    or_else (parseFloat_opt (dataset el !! "parallax"))
            (Num (parallaxFactor config)) in
  let yOffset := mul (Num (scrollY w)) factor in
  "translateY(" +:+ NumberToString yOffset +:+ "px)".

Definition updateParallax_each (e : Env) (n : node) (d : store)
  : completion store :=
  Normal (alter (λ el, set_style "transform"
                         (parallax_transform (window e) el) el) n d).

Definition updateParallax (e : Env) (m : ScrollManager) (d : store)
  : completion store :=
  forEach (updateParallax_each e) (parallaxElements m) d.

(** *** Scroll reveal *)

Definition initScrollReveal_each (n : node) (d : store) : store :=
  alter (λ el,
           set_style "transition" "opacity 0.6s ease, transform 0.6s ease"
             (set_style "transform" "translateY(30px)"
                (set_style "opacity" "0" el))) n d.

Definition isVisible (w : Window) (b : Box) : bool :=
  Qlt_bool (top b)
           (innerHeight w - innerHeight w * revealThreshold config)
  && Qlt_bool 0 (bottom b).

Definition reveal (el : Element) : Element :=
  with_classList (add "revealed")
    (set_style "transform" "translateY(0)"
       (set_style "opacity" "1" el)).

Definition updateScrollReveal_each (e : Env) (n : node) (d : store)
  : completion store :=
  if isVisible (window e) (box e n)
  then Normal (alter reveal n d)
  else Normal d.

Definition updateScrollReveal (e : Env) (m : ScrollManager) (d : store)
  : completion store :=
  forEach (updateScrollReveal_each e) (revealElements m) d.

(** *** Scroll spy *)

Definition probe_inside (b : Box) : bool :=
  Qle_bool (top b) (scrollSpyOffset config)
  && Qlt_bool (scrollSpyOffset config) (bottom b).

(** The first loop: [activeTarget] starts as [null] and is overwritten
    by the id of every section that contains the probe point. *)
Definition find_activeTarget (e : Env) (d : store) (targets : list node)
  : option string :=
  fold_left (λ active t,
               if probe_inside (box e t) then Some (id (d t)) else active)
            targets None.

(** [if (activeTarget)]: [null] and the empty string are falsy. *)
Definition truthy_target (a : option string) : option string :=
  match a with
  | Some s => if String.eqb s "" then None else Some s
  | None => None
  end.

Definition spy_mark (activeTarget : string) (el : Element) : Element :=
  let el' := with_classList (remove "active") el in
  if bool_decide (href el' = Some ("#" +:+ activeTarget))
  then with_classList (add "active") el'
  else el'.

Definition updateScrollSpy (e : Env) (m : ScrollManager) (d : store)
  : completion store :=
  match truthy_target (find_activeTarget e d (scrollSpyTargets m)) with
  | Some activeTarget =>
      forEach (λ n d, Normal (alter (spy_mark activeTarget) n d))
              (scrollSpyNavs m) d
  | None => Normal d
  end.

(** *** Hide on scroll *)

Definition shouldHide (s : ScrollState) : bool :=
  String.eqb (direction s) "down"
  && Qlt_bool (hideNavbarThreshold config) (scrollPosition s).

Definition hide_or_show (hide : bool) (el : Element) : Element :=
  if hide then
    set_style "pointerEvents" "none"
      (set_style "opacity" "0"
         (set_style "transform" "translateY(-100%)" el))
  else
    set_style "pointerEvents" "auto"
      (set_style "opacity" "1"
         (set_style "transform" "translateY(0)" el)).

Definition updateHideOnScroll (m : ScrollManager) (d : store)
  : completion store :=
  let hide := shouldHide (state m) in
  forEach (λ n d, Normal (alter (hide_or_show hide) n d))
          (hideOnScrollElements m) d.
End Effects.

Section Sticky.
Context `{Builtins}.

(** *** Sticky elements *)

(** [el.dataset.originalTop = el.offsetTop] *)
Definition initStickyElements_each (e : Env) (n : node) (d : store)
  : store :=
  alter (with_dataset
           (insert "originalTop"
              (NumberToString (Num (inject_Z (offsetTop (box e n)))))))
        n d.

(** [parseFloat(el.dataset.originalTop)] *)
Definition sticky_originalTop (el : Element) : number :=
  parseFloat_opt (dataset el !! "originalTop").

(** [el.dataset.offset || 0] *)
Definition sticky_offsetTop (el : Element) : value :=
  str_or_num (dataset el !! "offset") (Num 0).

(** [this.state.scrollPosition >= originalTop - offsetTop] *)
Definition sticky_past (s : ScrollState) (el : Element) : bool :=
  ge (Num (scrollPosition s))
     (sub (sticky_originalTop el) (ToNumber (sticky_offsetTop el))).

Definition stick_begin (el : Element) : Element :=
  set_style "top" (ToString (sticky_offsetTop el) +:+ "px")
    (set_style "position" "fixed" el).

Definition stick_end (parentWidth : Z) (el : Element) : Element :=
  with_classList (add "sticky-active")
    (set_style "zIndex" "100"
       (set_style "width"
          (NumberToString (Num (inject_Z parentWidth)) +:+ "px") el)).

Definition unstick (el : Element) : Element :=
  with_classList (remove "sticky-active")
    (set_style "top" "0" (set_style "position" "relative" el)).

(** The callback of [updateStickyElements].  Reading [offsetWidth] of a
    null [parentElement] raises a TypeError after the first two style
    assignments have been made. *)
Definition updateStickyElements_each (e : Env) (s : ScrollState)
  (n : node) (d : store) : completion store :=
  if sticky_past s (d n) then
    let d1 := alter stick_begin n d in
    match parentElement (box e n) with
    | None => Throw d1
    | Some p => Normal (alter (stick_end (offsetWidth (box e p))) n d1)
    end
  else Normal (alter unstick n d).

Definition updateStickyElements (e : Env) (m : ScrollManager) (d : store)
  : completion store :=
  forEach (updateStickyElements_each e (state m)) (stickyElements m) d.

(** *** The dispatcher *)

Definition triggerScrollEffects (e : Env) (m : ScrollManager) (d : store)
  : completion store :=
  andThen (updateParallax e m d) (λ d,
  andThen (updateScrollReveal e m d) (λ d,
  andThen (updateScrollSpy e m d) (λ d,
  andThen (updateHideOnScroll m d) (λ d,
  updateStickyElements e m d)))).

Definition handleScroll (e : Env) (m : ScrollManager) (d : store)
  : completion (ScrollManager * store) :=
  let m' := with_state (handleScroll_state (window e)) m in
  bind (triggerScrollEffects e m' d) (pair m') (λ d', Normal (m', d')).

(** *** Initialisation: [init] runs [updateScrollState] and then the
    five [init*] methods on the manager literal. *)

Definition init (e : Env) (d : store) : ScrollManager * store :=
  let st := updateScrollState_state (window e) initial_state in
  let ps := querySelectorAll_data "parallax" e d in
  let d := forEach_pure initParallax_each ps d in
  let rs := querySelectorAll_data "reveal" e d in
  let d := forEach_pure initScrollReveal_each rs d in
  let ts := querySelectorAll_data "scrollSpy" e d in
  let ns := querySelectorAll_data "scrollNav" e d in
  let hs := querySelectorAll_data "hideOnScroll" e d in
  let ss := querySelectorAll_data "sticky" e d in
  let d := forEach_pure (initStickyElements_each e) ss d in
  ({| state := st;
      parallaxElements := ps;
      revealElements := rs;
      scrollSpyTargets := ts;
      scrollSpyNavs := ns;
      hideOnScrollElements := hs;
      stickyElements := ss;
      touchTimeout := false |}, d).
End Sticky.

(** *** Smooth scrolling *)

(** The closure [animation] created by [smoothScrollToElement]. *)
Record Animation : Type := {
  startPosition : Q;
  distance : Q;
  duration : Q;
  start : option Q
}.

(** One call of the closure at [currentTime]: the closure with [start]
    set, the offset passed to [window.scrollTo], and whether another
    frame is requested. *)
Definition animation (a : Animation) (currentTime : Q)
  : Animation * Q * bool :=
  let start' := match start a with Some t => t | None => currentTime end in
  let elapsed := (currentTime - start')%Q in
  let progress := Qmin (elapsed / duration a) 1 in
  let ease :=
    (if Qlt_bool progress (5 # 10)
     then 2 * progress * progress
     else -1 + (4 - 2 * progress) * progress)%Q in
  ({| startPosition := startPosition a; distance := distance a;
      duration := duration a; start := Some start' |},
   (startPosition a + distance a * ease)%Q,
   Qlt_bool progress 1).

(** *** The page as the handlers see it *)

Record World : Type := {
  manager : ScrollManager;
  elements : store;
  env : Env;
  frames : list Animation;   (* callbacks given to requestAnimationFrame *)
  scrolled : list Q          (* offsets passed to window.scrollTo *)
}.

(** [smoothScrollToElement(element, offset)]; [element] may be null. *)
Definition smoothScrollToElement (element : option node) (offset : Q)
  (w : World) : World :=
  match element with
  | None => w
  | Some n =>
      let targetPosition :=
        (inject_Z (offsetTop (box (env w) n)) - offset)%Q in
      let startPosition := scrollY (window (env w)) in
      {| manager := manager w; elements := elements w; env := env w;
         frames := frames w ++
           [{| startPosition := startPosition;
               distance := targetPosition - startPosition;
               duration := smoothScrollDuration config;
               start := None |}];
         scrolled := scrolled w |}
  end.

(** What the browser delivers to the manager.  A scroll or resize comes
    with the geometry the browser has computed by then. *)
Inductive event : Type :=
| EvScroll (e : Env)
| EvResize (e : Env)
| EvWheel (deltaY : Q)
| EvTouchMove
| EvTouchTimer
| EvAnimationFrame (currentTime : Q).

Definition run_frames (t : Q) (w : World) : World :=
  let step (acc : list Animation * list Q) (a : Animation) :=
    let '(a', y, again) := animation a t in
    (if again then fst acc ++ [a'] else fst acc, snd acc ++ [y]) in
  let '(fs, ys) := fold_left step (frames w) ([], scrolled w) in
  {| manager := manager w; elements := elements w; env := env w;
     frames := fs; scrolled := ys |}.

Section Dispatch.
Context `{Builtins}.

Definition set_manager (m : ScrollManager) (w : World) : World :=
  {| manager := m; elements := elements w; env := env w;
     frames := frames w; scrolled := scrolled w |}.

Definition dispatch (ev : event) (w : World) : completion World :=
  match ev with
  | EvScroll e =>
      let mk (r : ScrollManager * store) :=
        {| manager := fst r; elements := snd r; env := e;
           frames := frames w; scrolled := scrolled w |} in
      bind (handleScroll e (manager w) (elements w)) mk
           (λ r, Normal (mk r))
  | EvResize e =>
      Normal
        {| manager := with_state (updateScrollState_state (window e))
                        (manager w);
           elements := elements w; env := e;
           frames := frames w; scrolled := scrolled w |}
  | EvWheel deltaY =>
      Normal (set_manager (with_state (handleWheel_state deltaY)
                             (manager w)) w)
  | EvTouchMove =>
      let m := with_state (set_isScrolling true) (manager w) in
      Normal (set_manager
                {| state := state m;
                   parallaxElements := parallaxElements m;
                   revealElements := revealElements m;
                   scrollSpyTargets := scrollSpyTargets m;
                   scrollSpyNavs := scrollSpyNavs m;
                   hideOnScrollElements := hideOnScrollElements m;
                   stickyElements := stickyElements m;
                   touchTimeout := true |} w)
  | EvTouchTimer =>
      if touchTimeout (manager w) then
        let m := with_state (set_isScrolling false) (manager w) in
        Normal (set_manager
                  {| state := state m;
                     parallaxElements := parallaxElements m;
                     revealElements := revealElements m;
                     scrollSpyTargets := scrollSpyTargets m;
                     scrollSpyNavs := scrollSpyNavs m;
                     hideOnScrollElements := hideOnScrollElements m;
                     stickyElements := stickyElements m;
                     touchTimeout := false |} w)
      else Normal w
  | EvAnimationFrame t => Normal (run_frames t w)
  end.

(** The page after a sequence of events.  An exception in one handler
    is reported by the browser and does not stop later events. *)
Definition run (evs : list event) (w : World) : World :=
  fold_left (λ w ev, final (dispatch ev w)) evs w.

(** The pages seen after each event of a sequence, in order. *)
Fixpoint trace (evs : list event) (w : World) : list World :=
  match evs with
  | [] => []
  | ev :: evs' =>
      let w' := final (dispatch ev w) in w' :: trace evs' w'
  end.

(** The page once [ScrollManager.init()] has run. *)
Definition loaded (e : Env) (d : store) : World :=
  {| manager := fst (init e d); elements := snd (init e d); env := e;
     frames := []; scrolled := [] |}.
End Dispatch.

(** *** Vocabulary of the specification *)

(** A run of scroll offsets that keeps moving one way: each offset lies
    strictly beyond the one before it, starting from [prev]. *)
Fixpoint monotone (down : bool) (prev : Q) (es : list Env) : Prop :=
  match es with
  | [] => True
  | e :: es' =>
      let c := currentScroll (window e) in
      (if down then prev < c else c < prev)%Q /\ monotone down c es'
  end.

Definition direction_name (down : bool) : string :=
  if down then "down" else "up".

(** The revealed state of an element. *)
Definition revealed (el : Element) : Prop :=
  "revealed" ∈ classList el
  /\ getProperty "opacity" (style el) = "1"
  /\ getProperty "transform" (style el) = "translateY(0)".

(** The links of a list that carry the class [active]. *)
Definition active_links (d : store) (navs : list node) : list node :=
  filter (λ n, "active" ∈ classList (d n)) navs.

(** The direction is a two-valued field. *)
Definition up_or_down (s : ScrollState) : Prop :=
  direction s = "up" \/ direction s = "down".

(** The NodeLists cached by the manager. *)
Definition lists (m : ScrollManager) : list (list node) :=
  [parallaxElements m; revealElements m; scrollSpyTargets m;
   scrollSpyNavs m; hideOnScrollElements m; stickyElements m].

(** The declarative attributes the effects are keyed off, as dataset
    keys: data-parallax, data-reveal, data-scroll-spy, data-scroll-nav,
    data-hide-on-scroll and data-sticky. *)
Definition attributes : list string :=
  ["parallax"; "reveal"; "scrollSpy"; "scrollNav"; "hideOnScroll"; "sticky"].

(** No element of the document carries any of them. *)
Definition unmarked (e : Env) (d : store) : Prop :=
  forall n key, n ∈ document e -> key ∈ attributes ->
                dataset (d n) !! key = None.

(** A callback is local when it writes the element it is called on and
    no other. *)
Definition local (f : node -> store -> completion store) : Prop :=
  forall k d j, j ≠ k -> final (f k d) j = d j.

Section Kept.
Context `{Builtins}.

(** A property of the element [n] is kept by the scroll effects when
    every assignment an effect can make to [n], given the lists [n] is
    in, keeps it. *)
Record kept (P : Element -> Prop) (m : ScrollManager) (n : node) : Prop := {
  kept_parallax :
    n ∈ parallaxElements m ->
    forall v el, P el -> P (set_style "transform" v el);
  kept_reveal :
    n ∈ revealElements m -> forall el, P el -> P (reveal el);
  kept_spy :
    n ∈ scrollSpyNavs m -> forall a el, P el -> P (spy_mark a el);
  kept_hide :
    n ∈ hideOnScrollElements m ->
    forall b el, P el -> P (hide_or_show b el);
  kept_stick_begin :
    n ∈ stickyElements m -> forall el, P el -> P (stick_begin el);
  kept_stick_end :
    n ∈ stickyElements m -> forall w el, P el -> P (stick_end w el);
  kept_unstick :
    n ∈ stickyElements m -> forall el, P el -> P (unstick el)
}.
(** What one call of the callback does to its element when the parent
    exists. *)
Definition sticky_step (e : Env) (s : ScrollState) (k : node)
  (el : Element) : Element :=
  if sticky_past s el then
    match parentElement (box e k) with
    | Some p => stick_end (offsetWidth (box e p)) (stick_begin el)
    | None => stick_begin el
    end
  else unstick el.

End Kept.
End Scroll.

(** ** assets/js/navbar.js: the hamburger menu *)

Module Navbar.
Import DOM.

(** The click listener installed on the burger.  [burger] and [menu] are
    the references captured when the document was loaded. *)
Definition click (burger menu : node) (e : Env) (d : store) : store :=
  let d := alter (with_classList (toggle "open")) burger d in
  let d := alter (with_classList (toggle "open")) menu d in
  (* lock scroll when nav open *)
  if contains "open" (classList (d menu))
  then alter (set_style "overflow" "hidden") (body e) d
  else alter (set_style "overflow" "") (body e) d.

(** The DOMContentLoaded listener: nothing is installed unless both the
    burger and the menu exist. *)
Definition onDOMContentLoaded (e : Env) (d : store)
  : option (Env -> store -> store) :=
  match querySelector_class "hamburger" e d,
        querySelector_class "nav-menu" e d with
  | Some burger, Some menu => Some (click burger menu)
  | _, _ => None
  end.

End Navbar.

(** ** The page script: form submission and notifications *)

Module Main.

(** A form control holding a value. *)
Record Control : Type := {
  name : string;
  value : string;
  defaultValue : string
}.

(** The element matched by [form.querySelector('[type="submit"]')]. *)
Record SubmitButton : Type := {
  disabled : bool;
  textContent : string
}.

Record Form : Type := {
  action : string;
  method : string;
  controls : list Control;
  submitBtn : option SubmitButton
}.

(** A toast appended to the body by [showNotification]. *)
Record Notification : Type := {
  className : string;
  role : string;
  message : string;
  background : string
}.

Record Page : Type := {
  form : Form;
  notifications : list Notification;
  console : list string   (* messages passed to console.error *)
}.

(** The argument of [fetch]. *)
Record Request : Type := {
  url : string;
  request_method : string;
  request_body : list (string * string)   (* new FormData(form) *)
}.

(** How the promise returned by [fetch] settles. *)
Inductive settled : Type :=
| Response (status : Z)
| Rejected.

(** [response.ok]: the status is in the range 200-299. *)
Definition ok (status : Z) : bool :=
  (200 <=? status)%Z && (status <=? 299)%Z.

Definition set_form (f : Form) (p : Page) : Page :=
  {| form := f; notifications := notifications p; console := console p |}.

Definition set_submitBtn (b : option SubmitButton) (f : Form) : Form :=
  {| action := action f; method := method f; controls := controls f;
     submitBtn := b |}.

(** [form.reset()] *)
Definition reset (f : Form) : Form :=
  {| action := action f; method := method f;
     controls := map (λ c, {| name := name c; value := defaultValue c;
                              defaultValue := defaultValue c |})
                     (controls f);
     submitBtn := submitBtn f |}.

Definition showNotification (msg type : string) (p : Page) : Page :=
  {| form := form p;
     notifications := notifications p ++
       [{| className := "notification notification--" +:+ type;
           role := "alert";
           message := msg;
           background :=
             if String.eqb type "success" then "#10b981"
             else if String.eqb type "error" then "#ef4444"
             else "#3b82f6" |}];
     console := console p |}.

Definition console_error (msg : string) (p : Page) : Page :=
  {| form := form p; notifications := notifications p;
     console := console p ++ [msg] |}.

(** [handleFormSubmit] is an async function.  It runs up to the [await]
    and is resumed when the request has settled. *)
Inductive suspension : Type :=
| Returned (p : Page)
| Awaiting (originalText : string) (request : Request) (p : Page).

(** From the submit event to the [await]. *)
Definition handleFormSubmit_begin (p : Page) : suspension :=
  let f := form p in
  let formData := map (λ c, (name c, value c)) (controls f) in
  match submitBtn f with
  | None => Returned p
  | Some btn =>
      let originalText := textContent btn in
      Awaiting originalText
        {| url := action f; request_method := method f;
           request_body := formData |}
        (set_form
           (set_submitBtn
              (Some {| disabled := true; textContent := "Sending..." |}) f)
           p)
  end.

(** From the settlement of the request to the end: the [try] body after
    the [await], the [catch] clause and the [finally] clause. *)
Definition handleFormSubmit_resume (originalText : string) (r : settled)
  (p : Page) : Page :=
  let p :=
    match r with
    | Response status =>
        if ok status then
          let p := showNotification "Message sent successfully!" "success" p in
          set_form (reset (form p)) p
        else
          showNotification "Failed to send message. Please try again."
            "error" p
    | Rejected =>
        let p := console_error "Form submission error:" p in
        showNotification "An error occurred. Please try again later."
          "error" p
    end in
  (* finally: restore button *)
  set_form
    (set_submitBtn
       (option_map (λ _, {| disabled := false; textContent := originalText |})
                   (submitBtn (form p)))
       (form p))
    p.

(** The request succeeded: it settled with a response whose status is
    ok. *)
Definition succeeded (r : settled) : bool :=
  match r with Response status => ok status | Rejected => false end.

(** The whole call, given how the request settles. *)
Definition handleFormSubmit (r : settled) (p : Page) : Page :=
  match handleFormSubmit_begin p with
  | Returned p => p
  | Awaiting originalText _ p => handleFormSubmit_resume originalText r p
  end.

End Main.

(** ** A small host

    An implementation of the conversions for integers written in decimal
    notation, used to run the scripts on concrete pages.  (A number that
    is not an integer is printed as a fraction; the sample pages produce
    none.) *)

Module Host.
Import JS.

Definition decimal (z : Z) : string := NilZero.string_of_int (Z.to_int z).

Definition parse_decimal (s : string) : number :=
  match NilZero.int_of_string s with
  | Some i => Num (inject_Z (Z.of_int i))
  | None => NaN
  end.

Definition print (n : number) : string :=
  match n with
  | Num q =>
      let r := Qred q in
      if Pos.eqb (Qden r) 1 then decimal (Qnum r)
      else decimal (Qnum r) +:+ "/" +:+ decimal (Zpos (Qden r))
  | PosInfinity => "Infinity"
  | NegInfinity => "-Infinity"
  | NaN => "NaN"
  end.

Definition builtins : Builtins := {|
  parseFloat := parse_decimal;
  StringToNumber := parse_decimal;
  NumberToString := print
|}.

End Host.

(** ** Sample pages *)

Module Samples.
Import JS DOM Scroll.

Definition blank : Element :=
  {| id := ""; href := None; classList := []; style := ∅; dataset := ∅ |}.

(** An element with the given id, href and [data-*] attributes. *)
Definition element (i : string) (h : option string)
  (data : list (string * string)) : Element :=
  {| id := i; href := h; classList := []; style := ∅;
     dataset := list_to_map data |}.

Definition page (els : list (node * Element)) : store :=
  foldr (λ kv d, <[kv.1 := kv.2]> d) (λ _, blank) els.

Definition box_at (t b : Q) : Box :=
  {| top := t; bottom := b; offsetTop := 0; offsetWidth := 0;
     parentElement := Some 0%nat |}.

Definition boxes (bs : list (node * Box)) : node -> Box :=
  foldr (λ kv f, <[kv.1 := kv.2]> f) (λ _, box_at 0 0) bs.

(** A viewport 800 pixels high on a document 3000 pixels high, scrolled
    to [y]. *)
Definition window_at (y : Q) : Window :=
  {| scrollY := y; pageYOffset := y; innerHeight := 800;
     scrollHeight := 3000 |}.

(** *** A navigation bar that is both revealed and hidden on scroll:
    [<nav data-reveal data-hide-on-scroll>], fixed at the top of the
    viewport. *)
Definition navbar_page : store :=
  page [(1%nat, element "navbar" None [("reveal", ""); ("hideOnScroll", "")])].

Definition navbar_env (y : Q) : Env :=
  {| window := window_at y;
     box := boxes [(1%nat, box_at 0 60)];
     document := [1%nat];
     body := 0%nat |}.

(** *** Two sections and their links:
    [<section id="about" data-scroll-spy>], [<section id="work"
    data-scroll-spy>], and the links [<a href="#about" data-scroll-nav>],
    [<a href="#work" data-scroll-nav>]. *)
Definition spy_page : store :=
  page [(1%nat, element "about" None [("scrollSpy", "")]);
        (2%nat, element "work" None [("scrollSpy", "")]);
        (3%nat, element "" (Some "#about") [("scrollNav", "")]);
        (4%nat, element "" (Some "#work") [("scrollNav", "")])].

(** The section "about" spans the viewport rows 70 to 400 and "work" the
    rows 400 to 900. *)
Definition spy_env : Env :=
  {| window := window_at 330;
     box := boxes [(1%nat, box_at 70 400); (2%nat, box_at 400 900)];
     document := [1; 2; 3; 4]%nat;
     body := 0%nat |}.

(** The same page with a second link to "about", as in a footer menu. *)
Definition spy_page_two_links : store :=
  <[5%nat := element "" (Some "#about") [("scrollNav", "")]]> spy_page.

Definition spy_env_two_links : Env :=
  {| window := window_at 330;
     box := boxes [(1%nat, box_at 70 400); (2%nat, box_at 400 900)];
     document := [1; 2; 3; 4; 5]%nat;
     body := 0%nat |}.

(** A page whose only section has no id, with a link to the top ("#"). *)
Definition spy_page_no_id : store :=
  page [(1%nat, element "" None [("scrollSpy", "")]);
        (3%nat, element "" (Some "#") [("scrollNav", "")])].

Definition spy_env_no_id : Env :=
  {| window := window_at 330;
     box := boxes [(1%nat, box_at 70 400)];
     document := [1; 3]%nat;
     body := 0%nat |}.

(** *** A sticky sidebar: [<div data-sticky data-offset="70">], 500
    pixels down the document, inside a container 1200 pixels wide. *)
Definition sticky_page : store :=
  page [(2%nat, element "sidebar" None [("sticky", ""); ("offset", "70")])].

Definition sticky_env (y : Q) : Env :=
  {| window := window_at y;
     box := boxes
       [(1%nat, {| top := 0; bottom := 3000; offsetTop := 0;
                   offsetWidth := 1200; parentElement := Some 0%nat |});
        (2%nat, {| top := 500 - y; bottom := 900 - y; offsetTop := 500;
                   offsetWidth := 300; parentElement := Some 1%nat |})];
     document := [1; 2]%nat;
     body := 0%nat |}.

(** *** A card that is revealed on scroll: [<div data-reveal>], 1000
    pixels down the document and 300 pixels high. *)
Definition card_page : store :=
  page [(1%nat, element "card" None [("reveal", "")])].

Definition card_env (y : Q) : Env :=
  {| window := window_at y;
     box := boxes [(1%nat, box_at (1000 - y) (1300 - y))];
     document := [1%nat];
     body := 0%nat |}.

(** *** A page without any of the declarative attributes. *)
Definition plain_page : store :=
  page [(1%nat, element "hero" None []); (2%nat, element "footer" None [])].

Definition plain_env (y : Q) : Env :=
  {| window := window_at y;
     box := boxes [(1%nat, box_at (0 - y) (800 - y));
                   (2%nat, box_at (800 - y) (3000 - y))];
     document := [1; 2]%nat;
     body := 0%nat |}.

(** The section boxes when the page is at its top: both sections lie
    below the probe point. *)
Definition spy_env_top : Env :=
  {| window := window_at 0;
     box := boxes [(1%nat, box_at 400 730); (2%nat, box_at 730 1230)];
     document := [1; 2; 3; 4]%nat;
     body := 0%nat |}.

(** The page of the two sections with the link to "about" active. *)
Definition spy_page_active : store :=
  <[3%nat := {| id := ""; href := Some "#about"; classList := ["active"];
                style := ∅; dataset := {["scrollNav" := ""]} |}]> spy_page.

(** *** A contact form with two filled-in fields and a button labelled
    "Send". *)
Definition contact_page : Main.Page :=
  {| Main.form :=
       {| Main.action := "/contact"; Main.method := "post";
          Main.controls :=
            [{| Main.name := "name"; Main.value := "Ada";
                Main.defaultValue := "" |};
             {| Main.name := "message"; Main.value := "Hello";
                Main.defaultValue := "" |}];
          Main.submitBtn :=
            Some {| Main.disabled := false; Main.textContent := "Send" |} |};
     Main.notifications := [];
     Main.console := [] |}.

(** *** A page with a burger and a menu, both closed. *)
Definition menu_page : store :=
  page [(1%nat, {| id := ""; href := None; classList := ["hamburger"];
                   style := ∅; dataset := ∅ |});
        (2%nat, {| id := ""; href := None; classList := ["nav-menu"];
                   style := ∅; dataset := ∅ |})].

Definition menu_env : Env :=
  {| window := window_at 0;
     box := boxes [];
     document := [1; 2]%nat;
     body := 0%nat |}.

End Samples.

(** ** assets/js/scroll.js: the remaining utilities *)

Module ScrollUtil.
Import JS DOM Scroll.

(** [ScrollManager.isElementInViewport(element)], on the box of the
    element. *)
Definition isElementInViewport (w : Window) (b : Box) : bool :=
  Qle_bool (top b) (innerHeight w) && Qle_bool 0 (bottom b).

(** [window.scrollTo(0, y)] *)
Definition scrollTo (y : Q) (w : World) : World :=
  {| manager := manager w; elements := elements w; env := env w;
     frames := frames w; scrolled := scrolled w ++ [y] |}.

(** [scrollToTop(smooth)]; [documentElement] is the root element. *)
Definition scrollToTop (documentElement : node) (smooth : bool) (w : World)
  : World :=
  if smooth then smoothScrollToElement (Some documentElement) 0 w
  else scrollTo 0 w.

(** [scrollToBottom(smooth)]; [bodyScrollHeight] is
    [document.body.scrollHeight]. *)
Definition scrollToBottom (documentElement : node) (bodyScrollHeight : Q)
  (smooth : bool) (w : World) : World :=
  let bottomElement := documentElement in
  if smooth then smoothScrollToElement (Some bottomElement) 0 w
  else scrollTo bodyScrollHeight w.

Section Lock.
Context `{Builtins}.

(** [ScrollLock.lock()].  [scrollbarWidth] is the result of
    [getScrollbarWidth()], which measures a scrolling box it appends to the
    body and removes again. *)
Definition lock (scrollbarWidth : Z) (e : Env) (d : store) : store :=
  alter (λ el, set_style "paddingRight"
                 (NumberToString (Num (inject_Z scrollbarWidth)) +:+ "px")
                 (set_style "overflow" "hidden" el))
        (body e) d.

(** [ScrollLock.unlock()] *)
Definition unlock (e : Env) (d : store) : store :=
  alter (λ el, set_style "paddingRight" "" (set_style "overflow" "" el))
        (body e) d.
End Lock.

(** The class [MomentumScroll]. *)
Record MomentumScroll : Type := {
  velocity : Q;
  friction : Q
}.

(** The fields set by the constructor. *)
Definition momentum_new : MomentumScroll :=
  {| velocity := 0; friction := 95 # 100 |}.

Definition momentum_handleWheel (deltaY : Q) (ms : MomentumScroll)
  : MomentumScroll :=
  {| velocity := deltaY; friction := friction ms |}.

(** One call of [animate]: the object afterwards and the amount passed to
    [window.scrollBy], if it was called.  (The call always requests the
    next frame.) *)
Definition momentum_animate (ms : MomentumScroll)
  : MomentumScroll * option Q :=
  if Qlt_bool (5 # 10) (Qabs (velocity ms))
  then ({| velocity := velocity ms * friction ms; friction := friction ms |},
        Some (velocity ms))
  else (ms, None).

(** [n] animation frames in a row, with no wheel event in between: the
    object afterwards and the amounts scrolled, oldest first. *)
Fixpoint momentum_frames (n : nat) (ms : MomentumScroll)
  : MomentumScroll * list Q :=
  match n with
  | O => (ms, [])
  | S n' =>
      let '(ms1, by1) := momentum_animate ms in
      let '(ms2, rest) := momentum_frames n' ms1 in
      (ms2, match by1 with Some y => y :: rest | None => rest end)
  end.

End ScrollUtil.

(** ** The page script: navigation, shortcuts, timers and theme *)

Module PageScript.
Import JS DOM.

(** The entries of [CONFIG] the handlers read. *)
Record Config : Type := {
  navbarHeight : Q;
  mobileBreakpoint : Q;
  scrollThrottle : Q;
  debounceDelay : Q
}.

Definition CONFIG : Config :=
  {| navbarHeight := 70; mobileBreakpoint := 768;
     scrollThrottle := 100; debounceDelay := 250 |}.

(** The element references cached in the object [DOM] when the script is
    loaded; each is null when the page has no such element. *)
Record Cache : Type := {
  navbar : option node;
  hamburger : option node;
  navMenu : option node;
  hero : option node;
  features : option node;
  projects : option node;
  footer : option node
}.

(** [toggleHamburger()] and [closeHamburger()].  Neither checks its
    references: reading [classList] of null raises a TypeError. *)
Definition toggleHamburger (c : Cache) (d : store) : completion store :=
  match hamburger c with
  | None => Throw d
  | Some h =>
      let d := alter (with_classList (toggle "active")) h d in
      match navMenu c with
      | None => Throw d
      | Some m => Normal (alter (with_classList (toggle "active")) m d)
      end
  end.

Definition closeHamburger (c : Cache) (d : store) : completion store :=
  match hamburger c with
  | None => Throw d
  | Some h =>
      let d := alter (with_classList (remove "active")) h d in
      match navMenu c with
      | None => Throw d
      | Some m => Normal (alter (with_classList (remove "active")) m d)
      end
  end.

(** [handleWindowResize()], given [window.innerWidth]. *)
Definition handleWindowResize (innerWidth : Q) (c : Cache) (d : store)
  : completion store :=
  if Qle_bool (mobileBreakpoint CONFIG) innerWidth
  then closeHamburger c d
  else Normal d.

(** [smoothScrollTo(element)]: the [top] passed to [window.scrollTo], if
    it is called. *)
Definition smoothScrollTo (element : option node) (e : Env) : option Q :=
  match element with
  | None => None
  | Some n => Some (inject_Z (offsetTop (box e n)) - navbarHeight CONFIG)%Q
  end.

(** A keydown event: the key, and whether its target matches
    ['input, textarea']. *)
Record KeyEvent : Type := {
  key : string;
  target_is_field : bool
}.

(** What a handler did besides writing elements. *)
Record Reaction : Type := {
  defaultPrevented : bool;
  scrollRequest : option Q;
  logged : list string
}.

Definition no_reaction : Reaction :=
  {| defaultPrevented := false; scrollRequest := None; logged := [] |}.

(** [handleKeyboardShortcut(e)] *)
Definition handleKeyboardShortcut (ev : KeyEvent) (c : Cache) (e : Env)
  (d : store) : completion (store * Reaction) :=
  if target_is_field ev then Normal (d, no_reaction)
  else if String.eqb (key ev) "/" then
    Normal (d, {| defaultPrevented := true; scrollRequest := None;
                  logged := ["Command palette opened"] |})
  else if String.eqb (key ev) "Escape" then
    bind (closeHamburger c d) (λ d', (d', no_reaction))
         (λ d', Normal (d', no_reaction))
  else if String.eqb (key ev) "Home" then
    Normal (d, {| defaultPrevented := true;
                  scrollRequest := smoothScrollTo (hero c) e;
                  logged := [] |})
  else if String.eqb (key ev) "End" then
    Normal (d, {| defaultPrevented := true;
                  scrollRequest := smoothScrollTo (footer c) e;
                  logged := [] |})
  else Normal (d, no_reaction).

(** *** [throttle] and [debounce]

    The wrapped function acts on some state [S]; a timer set by the
    wrapper is delivered as the event [TimerFired]. *)
Section Timers.
Context {A S : Type}.
Variable func : A -> S -> S.

Inductive tick : Type :=
| Call (args : A)
| TimerFired.



(** The closure returned by [debounce(func, delay)]: the arguments held
    by the pending timer, if one is pending. *)
Definition debounce_step (st : option A * S) (ev : tick) : option A * S :=
  match ev with
  | Call args => (Some args, snd st)
  | TimerFired =>
      match fst st with
      | Some args => (None, func args (snd st))
      | None => st
      end
  end.

Definition debounce_run (evs : list tick) (st : option A * S)
  : option A * S :=
  fold_left debounce_step evs st.
End Timers.

(** *** Theme *)

(** [applyTheme(theme)]: the attribute [data-color-scheme] of the body and
    the key [theme] of [localStorage]. *)
Definition applyTheme (theme : string) (e : Env)
  (st : gmap string string * store) : gmap string string * store :=
  let scheme := if String.eqb theme "dark" then "dark" else "light" in
  (<["theme" := scheme]> (fst st),
   alter (with_dataset (insert "colorScheme" scheme)) (body e) (snd st)).

(** [initDarkMode()], given whether the media query
    [(prefers-color-scheme: dark)] matches. *)
Definition initDarkMode (prefersDark : bool) (e : Env)
  (st : gmap string string * store) : gmap string string * store :=
  match fst st !! "theme" with
  | Some savedTheme =>
      if String.eqb savedTheme "" then
        if prefersDark then applyTheme "dark" e st else st
      else applyTheme savedTheme e st
  | None => if prefersDark then applyTheme "dark" e st else st
  end.

(** The listener for changes of the media query. *)
Definition onSchemeChange (matches : bool) (e : Env)
  (st : gmap string string * store) : gmap string string * store :=
  applyTheme (if matches then "dark" else "light") e st.

(** *** Active link by scroll position *)

(** [removeClassFromAll('.c', className)] *)
Definition removeClassFromAll (c className : string) (e : Env) (d : store)
  : store :=
  forEach_pure (λ n d, alter (with_classList (remove className)) n d)
    (filter (λ n, contains c (classList (d n)) = true) (document e)) d.

(** [document.querySelector('a[href="h"]')]; [tagName] gives the local
    name of each element. *)
Definition querySelector_a_href (tagName : node -> string) (h : string)
  (e : Env) (d : store) : option node :=
  head (filter (λ n, tagName n = "a" /\ href (d n) = Some h) (document e)).

(** The callback of [sections.forEach] in [updateActiveNavLink]. *)
Definition updateActiveNavLink_each (tagName : node -> string) (e : Env)
  (section : option node * string) (d : store) : completion store :=
  match fst section with
  | None => Normal d
  | Some s =>
      let half := (innerHeight (window e) / 2)%Q in
      if Qle_bool (top (box e s)) half && Qle_bool half (bottom (box e s))
      then
        let d := removeClassFromAll "nav-link" "active" e d in
        match querySelector_a_href tagName ("#" +:+ snd section) e d with
        | None => Normal d
        | Some activeLink =>
            match parentElement (box e activeLink) with
            | None => Throw d
            | Some p => Normal (alter (with_classList (add "active")) p d)
            end
        end
      else Normal d
  end.

Fixpoint forEach_section (f : option node * string -> store -> completion store)
  (l : list (option node * string)) (d : store) : completion store :=
  match l with
  | [] => Normal d
  | x :: l' => andThen (f x d) (forEach_section f l')
  end.

Definition updateActiveNavLink (tagName : node -> string) (c : Cache)
  (e : Env) (d : store) : completion store :=
  forEach_section (updateActiveNavLink_each tagName e)
    [(hero c, "home"); (features c, "features"); (projects c, "projects")]
    d.

End PageScript.

(** ** More sample pages *)

Module MoreSamples.
Import JS DOM Scroll Samples.

(** The two sections overlapping at the probe point: "about" spans the
    rows 0 to 500 and "work" the rows 50 to 400. *)
Definition spy_env_overlap : Env :=
  {| window := window_at 330;
     box := boxes [(1%nat, box_at 0 500); (2%nat, box_at 50 400)];
     document := [1; 2; 3; 4]%nat;
     body := 0%nat |}.

(** A sticky sidebar whose offset is written with a unit:
    [<div data-sticky data-offset="70px">]. *)
Definition sticky_page_px : store :=
  page [(2%nat, element "sidebar" None [("sticky", ""); ("offset", "70px")])].

(** The sticky page where the sticky element has no parent element. *)
Definition sticky_env_orphan (y : Q) : Env :=
  {| window := window_at y;
     box := boxes
       [(2%nat, {| top := 500 - y; bottom := 900 - y; offsetTop := 500;
                   offsetWidth := 300; parentElement := None |})];
     document := [2%nat];
     body := 0%nat |}.

(** A page with a hero section and a burger menu as the page script
    expects them, the menu open in both scripts' sense. *)
Definition open_menu_page : store :=
  page [(1%nat, {| id := ""; href := None;
                   classList := ["hamburger"; "active"; "open"];
                   style := ∅; dataset := ∅ |});
        (2%nat, {| id := ""; href := None;
                   classList := ["nav-menu"; "active"; "open"];
                   style := ∅; dataset := ∅ |});
        (0%nat, {| id := ""; href := None; classList := [];
                   style := {["overflow" := "hidden"]}; dataset := ∅ |})].

Definition menu_cache : PageScript.Cache :=
  {| PageScript.navbar := None; PageScript.hamburger := Some 1%nat;
     PageScript.navMenu := Some 2%nat; PageScript.hero := None;
     PageScript.features := None; PageScript.projects := None;
     PageScript.footer := None |}.

(** The cache of a page without burger and menu. *)
Definition empty_cache : PageScript.Cache :=
  {| PageScript.navbar := None; PageScript.hamburger := None;
     PageScript.navMenu := None; PageScript.hero := None;
     PageScript.features := None; PageScript.projects := None;
     PageScript.footer := None |}.

(** A navigation list as the page script expects it: two items, each
    holding a link of class 'nav-link', and the sections "home" (hero)
    and "features". *)
Definition nav_page : store :=
  page [(1%nat, {| id := "home"; href := None; classList := ["hero"];
                   style := ∅; dataset := ∅ |});
        (2%nat, {| id := "features"; href := None;
                   classList := ["features"]; style := ∅; dataset := ∅ |});
        (5%nat, {| id := ""; href := None; classList := ["nav-item"];
                   style := ∅; dataset := ∅ |});
        (6%nat, {| id := ""; href := None; classList := ["nav-item"];
                   style := ∅; dataset := ∅ |});
        (7%nat, {| id := ""; href := Some "#home";
                   classList := ["nav-link"]; style := ∅; dataset := ∅ |});
        (8%nat, {| id := ""; href := Some "#features";
                   classList := ["nav-link"]; style := ∅; dataset := ∅ |})].

Definition nav_tags (n : node) : string :=
  if bool_decide (n = 7%nat) || bool_decide (n = 8%nat) then "a"
  else if bool_decide (n = 5%nat) || bool_decide (n = 6%nat) then "li"
  else "section".

Definition nav_cache : PageScript.Cache :=
  {| PageScript.navbar := None; PageScript.hamburger := None;
     PageScript.navMenu := None; PageScript.hero := Some 1%nat;
     PageScript.features := Some 2%nat; PageScript.projects := None;
     PageScript.footer := None |}.

(** The hero is 800 pixels high and the features section follows it; the
    viewport is 800 pixels high and the page is scrolled to [y]. *)
Definition nav_env (y : Q) : Env :=
  {| window := window_at y;
     box := boxes
       [(1%nat, box_at (0 - y) (800 - y));
        (2%nat, box_at (800 - y) (1600 - y));
        (7%nat, {| top := 0; bottom := 20; offsetTop := 0;
                   offsetWidth := 60; parentElement := Some 5%nat |});
        (8%nat, {| top := 0; bottom := 20; offsetTop := 0;
                   offsetWidth := 60; parentElement := Some 6%nat |})];
     document := [5; 7; 6; 8; 1; 2]%nat;
     body := 0%nat |}.

(** A banner with a parallax factor of zero:
    [<div data-parallax="0">]. *)
Definition parallax_page : store :=
  page [(1%nat, element "banner" None [("parallax", "0")])].

Definition parallax_env (y : Q) : Env :=
  {| window := window_at y;
     box := boxes [(1%nat, box_at (0 - y) (400 - y))];
     document := [1%nat];
     body := 0%nat |}.

End MoreSamples.

(** * Properties *)

(** ** Numbers *)

Module JSFacts.
Import JS.

Lemma Qlt_bool_iff (x y : Q) : Qlt_bool x y = true <-> (x < y)%Q.
Proof.
  unfold Qlt_bool. rewrite negb_true_iff. split.
  - intros Hb. apply Qnot_le_lt. intros Hle.
    apply Qle_bool_iff in Hle. congruence.
  - intros Hlt. destruct (Qle_bool y x) eqn:E; [|reflexivity].
    apply Qle_bool_iff in E. exfalso. exact (Qlt_not_le _ _ Hlt E).
Qed.

Lemma Qlt_bool_false_iff (x y : Q) : Qlt_bool x y = false <-> (y <= x)%Q.
Proof.
  unfold Qlt_bool. rewrite negb_false_iff. apply Qle_bool_iff.
Qed.

Lemma Qlt_bool_irrefl_eq (x y : Q) : (x == y)%Q -> Qlt_bool x y = false.
Proof.
  intros E. apply Qlt_bool_false_iff. rewrite E. apply Qle_refl.
Qed.

(** Division by a non-zero number is finite. *)
Lemma div_finite (x y : Q) : ~ (y == 0)%Q -> div x y = Num (x / y).
Proof.
  intros Hy. unfold div. destruct (Qeq_bool y 0) eqn:E; [|reflexivity].
  apply Qeq_bool_iff in E. contradiction.
Qed.

(** Division by zero is not: the quotient is NaN or an infinity. *)
Lemma div_zero (x : Q) : is_finite (div x 0) = false.
Proof.
  unfold div. simpl.
  destruct (Qeq_bool x 0); [reflexivity|].
  destruct (Qlt_bool 0 x); reflexivity.
Qed.

Lemma ge_Num (x y : Q) : ge (Num x) (Num y) = true <-> (y <= x)%Q.
Proof. simpl. apply Qle_bool_iff. Qed.

End JSFacts.

(** ** The scroll state *)

Module StateFacts.
Import JS DOM Scroll Samples JSFacts.

Section WithBuiltins.
Context `{Builtins}.

Lemma final_bind {A B : Type} (c : completion A) (mk : A -> B) :
  final (bind c mk (λ a, Normal (mk a))) = mk (final c).
Proof. destruct c; reflexivity. Qed.

(** Whatever the effects do, [handleScroll] leaves the manager with the
    recomputed state. *)
Lemma handleScroll_manager (e : Env) (m : ScrollManager) (d : store) :
  fst (final (handleScroll e m d))
  = with_state (handleScroll_state (window e)) m.
Proof. unfold handleScroll. rewrite final_bind. reflexivity. Qed.

Lemma handleScroll_elements (e : Env) (m : ScrollManager) (d : store) :
  snd (final (handleScroll e m d))
  = final (triggerScrollEffects e
             (with_state (handleScroll_state (window e)) m) d).
Proof. unfold handleScroll. rewrite final_bind. reflexivity. Qed.

Lemma dispatch_scroll_manager (e : Env) (w : World) :
  manager (final (dispatch (EvScroll e) w))
  = with_state (handleScroll_state (window e)) (manager w).
Proof.
  unfold dispatch. rewrite final_bind. simpl.
  apply handleScroll_manager.
Qed.

Lemma direction_down (w : Window) (s : ScrollState) :
  (lastScrollTop s < currentScroll w)%Q ->
  direction (handleScroll_state w s) = "down".
Proof.
  intros Hlt. simpl. apply Qlt_bool_iff in Hlt. rewrite Hlt. reflexivity.
Qed.

Lemma direction_up (w : Window) (s : ScrollState) :
  (currentScroll w < lastScrollTop s)%Q ->
  direction (handleScroll_state w s) = "up".
Proof.
  intros Hlt. simpl.
  assert (Hle : (currentScroll w <= lastScrollTop s)%Q)
    by (apply Qlt_le_weak; exact Hlt).
  apply Qlt_bool_false_iff in Hle. rewrite Hle.
  apply Qlt_bool_iff in Hlt. rewrite Hlt. reflexivity.
Qed.

Lemma direction_same (w : Window) (s : ScrollState) :
  (currentScroll w == lastScrollTop s)%Q ->
  direction (handleScroll_state w s) = direction s.
Proof.
  intros Heq. simpl.
  rewrite (Qlt_bool_irrefl_eq _ _ Heq).
  rewrite (Qlt_bool_irrefl_eq _ _ (Qeq_sym _ _ Heq)). reflexivity.
Qed.

Lemma direction_moves (down : bool) (w : Window) (s : ScrollState) :
  (if down then lastScrollTop s < currentScroll w
   else currentScroll w < lastScrollTop s)%Q ->
  direction (handleScroll_state w s) = direction_name down.
Proof.
  destruct down; [apply direction_down | apply direction_up].
Qed.

Lemma monotone_trace (down : bool) (es : list Env) :
  forall w : World,
    monotone down (lastScrollTop (state (manager w))) es ->
    Forall (λ w', direction (state (manager w')) = direction_name down)
           (trace (map EvScroll es) w).
Proof.
  induction es as [|e es IH]; intros w Hmono; cbn [map trace].
  - constructor.
  - destruct Hmono as [Hstep Hrest]. constructor.
    + rewrite dispatch_scroll_manager. simpl state.
      apply direction_moves. exact Hstep.
    + apply IH. rewrite dispatch_scroll_manager. exact Hrest.
Qed.

(** C3.  A scroll event on a manager whose maximal offset is positive,
    at a reported offset between 0 and that maximum, records the reported
    offset as [scrollPosition] and leaves the maximal offset as it was,
    hence positive: the division has a non-zero divisor.  [scrollPercent]
    is then the finite number scrollPosition / maxScroll * 100, that is
    the number which multiplied by the maximal offset gives 100 times the
    reported offset, and it lies between 0 and 100. *)
Theorem scrollPercent_in_range (e : Env) (m : ScrollManager) (d : store) :
  (0 < maxScroll (state m))%Q ->
  (0 <= currentScroll (window e))%Q ->
  (currentScroll (window e) <= maxScroll (state m))%Q ->
  let s' := state (fst (final (handleScroll e m d))) in
  scrollPosition s' = currentScroll (window e)
  /\ maxScroll s' = maxScroll (state m)
  /\ (0 < maxScroll s')%Q
  /\ scrollPercent s' = Num (scrollPosition s' / maxScroll s' * 100)
  /\ (scrollPosition s' / maxScroll s' * 100 * maxScroll (state m)
      == currentScroll (window e) * 100)%Q
  /\ (0 <= scrollPosition s' / maxScroll s' * 100)%Q
  /\ (scrollPosition s' / maxScroll s' * 100 <= 100)%Q.
Proof.
  intros Hmax Hlo Hhi s'. subst s'. rewrite handleScroll_manager.
  cbn [state with_state handleScroll_state scrollPosition maxScroll
       scrollPercent].
  set (c := currentScroll (window e)) in *.
  set (mx := maxScroll (state m)) in *.
  assert (Hne : ~ (mx == 0)%Q).
  { intros E. rewrite E in Hmax. exact (Qlt_irrefl _ Hmax). }
  rewrite (div_finite _ _ Hne). cbn [mul].
  assert (Hq0 : (0 <= c / mx)%Q).
  { apply Qle_shift_div_l; [exact Hmax|]. rewrite Qmult_0_l. exact Hlo. }
  assert (Hq1 : (c / mx <= 1)%Q).
  { apply Qle_shift_div_r; [exact Hmax|]. rewrite Qmult_1_l. exact Hhi. }
  split; [reflexivity|]. split; [reflexivity|]. split; [exact Hmax|].
  split; [reflexivity|]. split; [field; exact Hne|]. split; lra.
Qed.

(** C5.  The velocity recorded by a scroll event is the offset delta
    since the previous event, whose offset is the one kept in
    [lastScrollTop], and the direction is the sign of that delta,
    unchanged when the delta is zero.  In a run of events whose offsets
    keep increasing the direction is 'down' after every event from the
    second on, in a run whose offsets keep decreasing it is 'up'; it is
    so after the first event as well when the first offset already lies
    beyond the offset recorded before the run.  Visiting p1 and then a
    larger p2 ends with 'down', the reverse order with 'up'.  On a
    freshly loaded page, increasing offsets report 'down' from the very
    first event. *)
Theorem direction_is_sign_of_delta :
  (forall (e : Env) (m : ScrollManager) (d : store),
      let s := state m in
      let s' := state (fst (final (handleScroll e m d))) in
      scrollVelocity s' = (currentScroll (window e) - lastScrollTop s)%Q
      /\ lastScrollTop s' = currentScroll (window e)
      /\ ((0 < scrollVelocity s')%Q -> direction s' = "down")
      /\ ((scrollVelocity s' < 0)%Q -> direction s' = "up")
      /\ ((scrollVelocity s' == 0)%Q -> direction s' = direction s))
  /\ (forall (down : bool) (e : Env) (es : list Env) (w : World),
      monotone down (currentScroll (window e)) es ->
      Forall (λ w', direction (state (manager w')) = direction_name down)
             (tail (trace (map EvScroll (e :: es)) w)))
  /\ (forall (down : bool) (es : list Env) (w : World),
      monotone down (lastScrollTop (state (manager w))) es ->
      Forall (λ w', direction (state (manager w')) = direction_name down)
             (trace (map EvScroll es) w))
  /\ (forall (e1 e2 : Env) (w : World),
      (currentScroll (window e1) < currentScroll (window e2))%Q ->
      direction (state (manager (run [EvScroll e1; EvScroll e2] w)))
      = "down"
      /\ direction (state (manager (run [EvScroll e2; EvScroll e1] w)))
         = "up")
  /\ (forall (e0 : Env) (d0 : store) (e : Env) (es : list Env),
      (0 <= currentScroll (window e))%Q ->
      monotone true (currentScroll (window e)) es ->
      Forall (λ w', direction (state (manager w')) = "down")
             (trace (map EvScroll (e :: es)) (loaded e0 d0))).
Proof.
  split; [|split; [|split; [|split]]].
  - intros e m d s s'. subst s s'. rewrite handleScroll_manager.
    split; [reflexivity|]. split; [reflexivity|].
    cbn [state with_state scrollVelocity handleScroll_state].
    split; [|split]; intros Hv.
    + apply direction_down. lra.
    + apply direction_up. lra.
    + apply direction_same. lra.
  - intros down e es w Hmono. cbn [map trace tail].
    apply monotone_trace. rewrite dispatch_scroll_manager. exact Hmono.
  - intros down es w. apply monotone_trace.
  - intros e1 e2 w Hlt. unfold run. cbn [fold_left].
    rewrite !dispatch_scroll_manager. cbn [state with_state]. split.
    + apply direction_down. exact Hlt.
    + apply direction_up. exact Hlt.
  - intros e0 d0 e es Hpos Hmono. cbn [map trace]. constructor.
    + rewrite dispatch_scroll_manager. cbn [state with_state].
      destruct (Qlt_le_dec 0 (currentScroll (window e))) as [Hlt|Hle].
      * apply direction_down. exact Hlt.
      * rewrite direction_same; [reflexivity|].
        apply Qle_antisym; assumption.
    + apply (monotone_trace true). rewrite dispatch_scroll_manager.
      exact Hmono.
Qed.

Lemma handleScroll_up_or_down (w : Window) (s : ScrollState) :
  up_or_down s -> up_or_down (handleScroll_state w s).
Proof.
  unfold up_or_down. intros Hs. simpl.
  destruct (Qlt_bool (lastScrollTop s) (currentScroll w));
    [right; reflexivity|].
  destruct (Qlt_bool (currentScroll w) (lastScrollTop s));
    [left; reflexivity | exact Hs].
Qed.

Lemma handleWheel_up_or_down (deltaY : Q) (s : ScrollState) :
  up_or_down s -> up_or_down (handleWheel_state deltaY s).
Proof.
  unfold up_or_down. intros Hs. simpl.
  destruct (Qlt_bool 0 deltaY); [right; reflexivity|].
  destruct (Qlt_bool deltaY 0); [left; reflexivity | exact Hs].
Qed.

Lemma dispatch_up_or_down (ev : event) (w : World) :
  up_or_down (state (manager w)) ->
  up_or_down (state (manager (final (dispatch ev w)))).
Proof.
  intros Hw. destruct ev as [e|e|dy| | |t].
  - rewrite dispatch_scroll_manager.
    apply handleScroll_up_or_down. exact Hw.
  - exact Hw.
  - apply handleWheel_up_or_down. exact Hw.
  - exact Hw.
  - simpl. destruct (touchTimeout (manager w)); exact Hw.
  - unfold dispatch, run_frames. cbn [final].
    destruct (fold_left _ _ _). exact Hw.
Qed.

Lemma run_up_or_down (evs : list event) :
  forall w : World,
    up_or_down (state (manager w)) ->
    up_or_down (state (manager (run evs w))).
Proof.
  induction evs as [|ev evs IH]; intros w Hw; [exact Hw|].
  unfold run. cbn [fold_left]. apply IH.
  apply dispatch_up_or_down. exact Hw.
Qed.

(** C10.  The direction starts as 'down' and is 'up' or 'down' after
    any sequence of events on the loaded page; a scroll event at the
    offset of the previous one keeps the direction it had and records
    a velocity of 0. *)
Theorem direction_two_valued :
  direction initial_state = "down"
  /\ (forall (e0 : Env) (d0 : store) (evs : list event),
      let s := state (manager (run evs (loaded e0 d0))) in
      direction s = "up" \/ direction s = "down")
  /\ (forall (e : Env) (m : ScrollManager) (d : store),
      (currentScroll (window e) == lastScrollTop (state m))%Q ->
      let s' := state (fst (final (handleScroll e m d))) in
      direction s' = direction (state m)
      /\ (scrollVelocity s' == 0)%Q).
Proof.
  split; [reflexivity|]. split.
  - intros e0 d0 evs. apply run_up_or_down. right. reflexivity.
  - intros e m d Heq s'. subst s'. rewrite handleScroll_manager.
    split.
    + apply direction_same. exact Heq.
    + simpl. lra.
Qed.
End WithBuiltins.

(** On the plain page, 2200 pixels can be scrolled; at offset 550 the
    recorded position is 550 and the percentage is 25. *)
Lemma scrollPercent_in_range_witness :
  let m := manager (loaded (H := Host.builtins) (plain_env 0) plain_page) in
  let s' := state (fst (final (handleScroll (H := Host.builtins)
                                 (plain_env 550) m plain_page))) in
  (scrollPosition s' == 550)%Q
  /\ (maxScroll s' == 2200)%Q
  /\ exists q : Q, scrollPercent s' = Num q /\ (q == 25)%Q.
Proof.
  intros m s'.
  destruct (scrollPercent_in_range (H := Host.builtins)
              (plain_env 550) m plain_page)
    as (Hpos & Hmax & _ & Hpct & Hmul & _).
  - reflexivity.
  - vm_compute. discriminate.
  - vm_compute. discriminate.
  - fold s' in Hpos, Hmax, Hpct, Hmul.
    split; [rewrite Hpos; reflexivity|].
    split; [rewrite Hmax; reflexivity|].
    exists (scrollPosition s' / maxScroll s' * 100)%Q.
    split; [exact Hpct|]. reflexivity.
Defined.

(** On the plain page left at offset 1000, scrolling to 100 and then to
    250 reports 'down' after the second event. *)
Lemma direction_is_sign_of_delta_witness :
  Forall (λ w', direction (state (manager w')) = "down")
         (tail (trace (H := Host.builtins)
                  (map EvScroll [plain_env 100; plain_env 250])
                  (run (H := Host.builtins) [EvScroll (plain_env 1000)]
                     (loaded (H := Host.builtins) (plain_env 0)
                        plain_page)))).
Proof.
  apply (proj1 (proj2 (direction_is_sign_of_delta (H := Host.builtins)))
           true).
  simpl. repeat split; reflexivity.
Defined.

(** C5, as stated, fails.  On the plain page left at offset 1000, the
    increasing offsets 100 and 250 report 'up' after the first event and
    'down' only after the second.  On the freshly loaded page, the
    decreasing offsets 250 and 100 report 'down' after the first event
    and 'up' only after the second. *)
Lemma direction_not_reported_after_each_event :
  (let w := run (H := Host.builtins) [EvScroll (plain_env 1000)]
              (loaded (H := Host.builtins) (plain_env 0) plain_page) in
   (currentScroll (window (plain_env 100))
    < currentScroll (window (plain_env 250)))%Q
   /\ map (λ w', direction (state (manager w')))
          (trace (H := Host.builtins)
             (map EvScroll [plain_env 100; plain_env 250]) w)
      = ["up"; "down"])
  /\ (let w := loaded (H := Host.builtins) (plain_env 0) plain_page in
      (currentScroll (window (plain_env 100))
       < currentScroll (window (plain_env 250)))%Q
      /\ map (λ w', direction (state (manager w')))
             (trace (H := Host.builtins)
                (map EvScroll [plain_env 250; plain_env 100]) w)
         = ["down"; "up"]).
Proof.
  split; (split; [reflexivity | vm_compute; reflexivity]).
Qed.

(** A second scroll event at offset 100 keeps the direction. *)
Lemma direction_two_valued_witness :
  let w := run (H := Host.builtins) [EvScroll (plain_env 100)]
             (loaded (H := Host.builtins) (plain_env 0) plain_page) in
  let s' := state (fst (final (handleScroll (H := Host.builtins)
                                 (plain_env 100) (manager w) (elements w)))) in
  direction s' = direction (state (manager w))
  /\ (scrollVelocity s' == 0)%Q.
Proof.
  apply (proj2 (proj2 (direction_two_valued (H := Host.builtins)))).
  reflexivity.
Defined.
End StateFacts.

(** ** Class lists, inline styles and iteration *)

Module DOMFacts.
Import DOM Scroll.

Lemma contains_true (t : string) (l : list string) :
  contains t l = true <-> t ∈ l.
Proof. unfold contains. apply bool_decide_eq_true. Qed.

Lemma contains_false (t : string) (l : list string) :
  contains t l = false <-> t ∉ l.
Proof. unfold contains. apply bool_decide_eq_false. Qed.

Lemma elem_of_add (t u : string) (l : list string) :
  t ∈ add u l <-> t = u \/ t ∈ l.
Proof.
  unfold add. destruct (contains u l) eqn:E.
  - apply contains_true in E. split; [tauto|].
    intros [->|Hin]; assumption.
  - rewrite elem_of_app, list_elem_of_singleton. tauto.
Qed.

Lemma elem_of_remove (t u : string) (l : list string) :
  t ∈ remove u l <-> t ≠ u /\ t ∈ l.
Proof. unfold remove. rewrite list_elem_of_filter. reflexivity. Qed.

Lemma add_idempotent (t : string) (l : list string) :
  add t (add t l) = add t l.
Proof.
  unfold add at 1.
  assert (Hin : t ∈ add t l) by (apply elem_of_add; left; reflexivity).
  apply contains_true in Hin. rewrite Hin. reflexivity.
Qed.

Lemma remove_absent (t : string) (l : list string) :
  t ∉ l -> remove t l = l.
Proof.
  intros Hnin. unfold remove. induction l as [|x l IH]; [reflexivity|].
  rewrite filter_cons. destruct (decide (x ≠ t)) as [Hne|He].
  - f_equal. apply IH. intros Hin. apply Hnin. right. exact Hin.
  - exfalso. apply Hnin. destruct (decide (x = t)) as [->|Hn].
    + left.
    + contradiction.
Qed.

(** Adding a token that was absent and removing it again gives back the
    list. *)
Lemma remove_add (t : string) (l : list string) :
  t ∉ l -> remove t (add t l) = l.
Proof.
  intros Hnin. unfold add.
  pose proof (proj2 (contains_false t l) Hnin) as E. rewrite E.
  unfold remove. rewrite filter_app. fold (remove t l).
  rewrite (remove_absent t l Hnin).
  rewrite filter_cons. destruct (decide (t ≠ t)) as [Hne|_].
  - contradiction.
  - rewrite filter_nil. apply app_nil_r.
Qed.

Lemma toggle_absent (t : string) (l : list string) :
  t ∉ l -> toggle t l = add t l.
Proof.
  intros Hnin. unfold toggle.
  rewrite (proj2 (contains_false t l) Hnin). reflexivity.
Qed.

Lemma toggle_present (t : string) (l : list string) :
  t ∈ l -> toggle t l = remove t l.
Proof.
  intros Hin. unfold toggle.
  rewrite (proj2 (contains_true t l) Hin). reflexivity.
Qed.

Lemma getProperty_setProperty (p v : string) (s : gmap string string) :
  getProperty p (setProperty p v s) = v.
Proof.
  unfold getProperty, setProperty. destruct (String.eqb v "") eqn:E.
  - apply String.eqb_eq in E. subst v. rewrite lookup_delete_eq.
    reflexivity.
  - rewrite lookup_insert_eq. reflexivity.
Qed.

Lemma getProperty_setProperty_ne (p q v : string) (s : gmap string string) :
  p ≠ q -> getProperty p (setProperty q v s) = getProperty p s.
Proof.
  intros Hne. unfold getProperty, setProperty.
  destruct (String.eqb v "").
  - rewrite lookup_delete_ne by congruence. reflexivity.
  - rewrite lookup_insert_ne by congruence. reflexivity.
Qed.

Lemma setProperty_idempotent (p v : string) (s : gmap string string) :
  setProperty p v (setProperty p v s) = setProperty p v s.
Proof.
  unfold setProperty. destruct (String.eqb v "").
  - apply map_eq. intros k. destruct (decide (p = k)) as [->|Hne].
    + rewrite !lookup_delete_eq. reflexivity.
    + rewrite !lookup_delete_ne by exact Hne. reflexivity.
  - apply insert_insert_eq.
Qed.

(** Unsetting a property that was set on a style without it gives back
    the style. *)
Lemma setProperty_unset (p v : string) (s : gmap string string) :
  s !! p = None -> setProperty p "" (setProperty p v s) = s.
Proof.
  intros Hnone. unfold setProperty at 1. simpl.
  unfold setProperty. destruct (String.eqb v "").
  - rewrite delete_delete_eq. apply delete_id. exact Hnone.
  - rewrite delete_insert_eq. apply delete_id. exact Hnone.
Qed.

(** A decidable proposition about concrete data, settled by running its
    decision procedure. *)
Ltac decide_by_computation :=
  apply (bool_decide_unpack _); vm_compute; exact I.

(** Two predicates that agree on a list select the same elements. *)
Lemma filter_agree {A : Type} (P1 P2 : A -> Prop)
  `{!forall x, Decision (P1 x), !forall x, Decision (P2 x)} (l : list A) :
  (forall x, x ∈ l -> (P1 x <-> P2 x)) -> filter P1 l = filter P2 l.
Proof.
  induction l as [|a l IH]; intros Hagree; [reflexivity|].
  assert (Hl : filter P1 l = filter P2 l).
  { apply IH. intros x Hx. apply Hagree. right. exact Hx. }
  assert (Ha : P1 a <-> P2 a) by (apply Hagree; left).
  rewrite !filter_cons, Hl.
  destruct (decide (P1 a)), (decide (P2 a)); tauto.
Qed.

(** *** Iteration *)

Lemma final_andThen {A : Type} (P : A -> Prop) (c : completion A)
  (k : A -> completion A) :
  P (final c) -> (forall a, P a -> P (final (k a))) ->
  P (final (andThen c k)).
Proof.
  intros Hc Hk. destruct c as [a|a]; simpl in *; [apply Hk|]; exact Hc.
Qed.

Lemma forEach_invariant {A : Type} (P : A -> Prop)
  (f : node -> A -> completion A) (l : list node) :
  (forall n a, n ∈ l -> P a -> P (final (f n a))) ->
  forall a, P a -> P (final (forEach f l a)).
Proof.
  induction l as [|n l IH]; intros Hf a Ha; [exact Ha|].
  cbn [forEach]. apply final_andThen.
  - apply Hf; [left | exact Ha].
  - intros a' Ha'. apply IH; [|exact Ha'].
    intros k b Hk. apply Hf. right. exact Hk.
Qed.

Lemma alter_local (g : store -> node -> Element -> Element) :
  local (λ k d, Normal (alter (g d k) k d)).
Proof.
  intros k d j Hne. simpl. apply fn_lookup_alter_ne. congruence.
Qed.

(** A property of one element is kept by an iteration of a local
    callback as soon as the callback keeps it on that element. *)
Lemma forEach_at (P : Element -> Prop)
  (f : node -> store -> completion store) (l : list node) (n : node) :
  local f ->
  (n ∈ l -> forall d, P (d n) -> P (final (f n d) n)) ->
  forall d, P (d n) -> P (final (forEach f l d) n).
Proof.
  intros Hloc Hown.
  apply (forEach_invariant (λ d, P (d n))).
  intros k d Hk Hd. destruct (decide (n = k)) as [<-|Hne].
  - apply Hown; assumption.
  - rewrite Hloc by exact Hne. exact Hd.
Qed.

Lemma forEach_frame (f : node -> store -> completion store)
  (l : list node) (n : node) (d : store) :
  local f -> n ∉ l -> final (forEach f l d) n = d n.
Proof.
  intros Hloc Hnin.
  apply (forEach_at (λ el, el = d n) f l n Hloc); [|reflexivity].
  intros Hin. contradiction.
Qed.

(** When no callback throws and each rewrites its own element by [g],
    the iteration over a duplicate-free list rewrites every listed
    element by [g]. *)
Lemma forEach_elementwise (f : node -> store -> completion store)
  (g : node -> Element -> Element) (l : list node) :
  (forall k d, k ∈ l ->
     is_normal (f k d) = true
     /\ forall j, final (f k d) j
                  = if bool_decide (j = k) then g k (d k) else d j) ->
  NoDup l ->
  forall d,
    is_normal (forEach f l d) = true
    /\ forall n, final (forEach f l d) n
                 = if bool_decide (n ∈ l) then g n (d n) else d n.
Proof.
  induction l as [|k l IH]; intros Hf Hnd d.
  - split; [reflexivity|]. intros n. reflexivity.
  - apply NoDup_cons in Hnd as [Hk Hnd]. cbn [forEach].
    destruct (Hf k d ltac:(left)) as [Hnk Hfk].
    destruct (f k d) as [d1|d1]; [|discriminate]. cbn [andThen bind].
    cbn [final] in Hfk.
    destruct (IH (λ k' d' Hk', Hf k' d' (list_elem_of_further _ _ _ Hk'))
                 Hnd d1) as [Hnorm Hfin].
    split; [exact Hnorm|]. intros n. rewrite Hfin, !Hfk.
    destruct (decide (n = k)) as [->|Hne].
    + rewrite (bool_decide_eq_false_2 _ Hk).
      rewrite !bool_decide_eq_true_2 by (reflexivity || left).
      reflexivity.
    + rewrite (bool_decide_eq_false_2 _ Hne).
      destruct (bool_decide (n ∈ l)) eqn:E.
      * apply bool_decide_eq_true in E.
        rewrite bool_decide_eq_true_2 by (right; exact E).
        reflexivity.
      * apply bool_decide_eq_false in E.
        rewrite bool_decide_eq_false_2; [reflexivity|].
        intros Hin. apply elem_of_cons in Hin as [?|?]; contradiction.
Qed.

(** The same for a callback given as an [alter]. *)
Lemma forEach_alter (g : node -> Element -> Element) (l : list node) :
  NoDup l ->
  forall d,
    is_normal (forEach (λ k d, Normal (alter (g k) k d)) l d) = true
    /\ forall n, final (forEach (λ k d, Normal (alter (g k) k d)) l d) n
                 = if bool_decide (n ∈ l) then g n (d n) else d n.
Proof.
  apply (forEach_elementwise _ g). intros k d _. split; [reflexivity|].
  intros j. cbn [final]. destruct (decide (j = k)) as [->|Hne].
  - rewrite bool_decide_eq_true_2 by reflexivity. apply fn_lookup_alter.
  - rewrite bool_decide_eq_false_2 by exact Hne.
    apply fn_lookup_alter_ne. congruence.
Qed.

(** A property of one element kept by every step of an iteration that
    cannot throw. *)
Lemma forEach_pure_keeps (P : Element -> Prop)
  (f : node -> store -> store) (l : list node) (n : node) :
  (forall k d, P (d n) -> P (f k d n)) ->
  forall d, P (d n) -> P (forEach_pure f l d n).
Proof.
  intros Hf. unfold forEach_pure.
  induction l as [|k l IH]; intros d Hd; [exact Hd|].
  cbn [fold_left]. apply IH. apply Hf. exact Hd.
Qed.

End DOMFacts.

(** ** Scroll spy *)

Module SpyFacts.
Import JS DOM Scroll Samples DOMFacts.

Lemma find_activeTarget_from (e : Env) (d : store) (t : node)
  (l : list node) :
  (forall t', t' ∈ l -> probe_inside (box e t') = true -> t' = t) ->
  forall acc : option string,
    fold_left (λ active t',
                 if probe_inside (box e t') then Some (id (d t')) else active)
              l acc
    = if existsb (λ t', probe_inside (box e t')) l
      then Some (id (d t)) else acc.
Proof.
  induction l as [|x l IH]; intros Huniq acc; [reflexivity|].
  cbn [fold_left existsb].
  rewrite IH by (intros t' Ht'; apply Huniq; right; exact Ht').
  destruct (probe_inside (box e x)) eqn:Ex; simpl.
  - rewrite (Huniq x) by (left || exact Ex).
    destruct (existsb _ l); reflexivity.
  - reflexivity.
Qed.

Lemma find_activeTarget_none (e : Env) (d : store) (l : list node) :
  (forall t, t ∈ l -> probe_inside (box e t) = false) ->
  find_activeTarget e d l = None.
Proof.
  intros Hout. unfold find_activeTarget.
  rewrite (find_activeTarget_from e d 0%nat).
  - assert (E : existsb (λ t', probe_inside (box e t')) l = false).
    { induction l as [|x l IH]; [reflexivity|]. cbn [existsb].
      rewrite (Hout x) by left. simpl. apply IH.
      intros t Ht. apply Hout. right. exact Ht. }
    rewrite E. reflexivity.
  - intros t' Ht' Hin. rewrite (Hout t' Ht') in Hin. discriminate.
Qed.

Lemma find_activeTarget_unique (e : Env) (d : store) (t : node)
  (l : list node) :
  t ∈ l -> probe_inside (box e t) = true ->
  (forall t', t' ∈ l -> probe_inside (box e t') = true -> t' = t) ->
  find_activeTarget e d l = Some (id (d t)).
Proof.
  intros Hin Hprobe Huniq. unfold find_activeTarget.
  rewrite (find_activeTarget_from e d t l Huniq).
  assert (E : existsb (λ t', probe_inside (box e t')) l = true).
  { apply existsb_exists. exists t. split; [|exact Hprobe].
    apply list_elem_of_In. exact Hin. }
  rewrite E. reflexivity.
Qed.

(** After [spy_mark] a link is active exactly when its href names the
    target. *)
Lemma active_spy_mark (a : string) (el : Element) :
  "active" ∈ classList (spy_mark a el) <-> href el = Some ("#" +:+ a).
Proof.
  unfold spy_mark. cbn [href with_classList].
  destruct (bool_decide (href el = Some ("#" +:+ a))) eqn:E.
  - apply bool_decide_eq_true in E. cbn [classList with_classList].
    rewrite elem_of_add. tauto.
  - apply bool_decide_eq_false in E. cbn [classList with_classList].
    rewrite elem_of_remove. split; [intros [Hne _]; congruence | tauto].
Qed.

(** C9.  When the probe point lies in no section, [updateScrollSpy]
    returns the store it was given: the class list of every link is what
    it was, and a link that was active is still active. *)
Theorem scroll_spy_outside_all_sections (e : Env) (m : ScrollManager)
  (d : store) :
  (forall t, t ∈ scrollSpyTargets m -> probe_inside (box e t) = false) ->
  updateScrollSpy e m d = Normal d
  /\ (forall n, classList (final (updateScrollSpy e m d) n) = classList (d n))
  /\ (forall n, "active" ∈ classList (d n) ->
                "active" ∈ classList (final (updateScrollSpy e m d) n)).
Proof.
  intros Hout.
  assert (E : updateScrollSpy e m d = Normal d).
  { unfold updateScrollSpy.
    rewrite (find_activeTarget_none e d _ Hout). reflexivity. }
  rewrite E. split; [reflexivity|]. split.
  - intros n. reflexivity.
  - intros n Hn. exact Hn.
Qed.

(** C2 (amended).  When the probe point lies in exactly one section and
    that section has a non-empty id, [updateScrollSpy] completes and a
    navigation link is active afterwards exactly when its href is '#'
    followed by that id: the active links are the links with that href,
    so exactly one link is active when exactly one link has it.  Nothing
    more is needed of the sections than that one of them alone contains
    the probe point. *)
Theorem scroll_spy_marks_matching_links (e : Env) (m : ScrollManager)
  (d : store) (t : node) :
  NoDup (scrollSpyNavs m) ->
  t ∈ scrollSpyTargets m ->
  probe_inside (box e t) = true ->
  (forall t', t' ∈ scrollSpyTargets m ->
              probe_inside (box e t') = true -> t' = t) ->
  id (d t) ≠ "" ->
  let d' := final (updateScrollSpy e m d) in
  let matching := λ n, href (d n) = Some ("#" +:+ id (d t)) in
  is_normal (updateScrollSpy e m d) = true
  /\ (forall n, n ∈ scrollSpyNavs m ->
                ("active" ∈ classList (d' n) <-> matching n))
  /\ active_links d' (scrollSpyNavs m) = filter matching (scrollSpyNavs m)
  /\ (forall n0, filter matching (scrollSpyNavs m) = [n0] ->
                 active_links d' (scrollSpyNavs m) = [n0]).
Proof.
  intros Hnd Hin Hprobe Huniq Hid d' matching.
  assert (Hrun : is_normal (updateScrollSpy e m d) = true
                 /\ forall n, d' n
                       = if bool_decide (n ∈ scrollSpyNavs m)
                         then spy_mark (id (d t)) (d n) else d n).
  { subst d'. unfold updateScrollSpy.
    rewrite (find_activeTarget_unique e d t _ Hin Hprobe Huniq).
    cbn [truthy_target].
    destruct (String.eqb (id (d t)) "") eqn:E;
      [apply String.eqb_eq in E; contradiction|].
    apply (forEach_alter (λ _, spy_mark (id (d t)))). exact Hnd. }
  destruct Hrun as [Hnorm Hfin].
  assert (Hiff : forall n, n ∈ scrollSpyNavs m ->
                   ("active" ∈ classList (d' n) <-> matching n)).
  { intros n Hn. rewrite Hfin, (bool_decide_eq_true_2 _ Hn).
    apply active_spy_mark. }
  assert (Hact : active_links d' (scrollSpyNavs m)
                 = filter matching (scrollSpyNavs m)).
  { unfold active_links. apply filter_agree. exact Hiff. }
  split; [exact Hnorm|]. split; [exact Hiff|]. split; [exact Hact|].
  intros n0 Hone. rewrite Hact. exact Hone.
Qed.

(** The manager of the page of the two sections. *)
Lemma spy_page_lists :
  scrollSpyTargets (fst (init (H := Host.builtins) spy_env spy_page))
  = [1; 2]%nat
  /\ scrollSpyNavs (fst (init (H := Host.builtins) spy_env spy_page))
     = [3; 4]%nat.
Proof. split; vm_compute; reflexivity. Qed.

(** With the page at its top the probe point is above both sections: the
    link to "about", active from before, stays active. *)
Lemma scroll_spy_outside_all_sections_witness :
  let m := fst (init (H := Host.builtins) spy_env_top spy_page_active) in
  updateScrollSpy spy_env_top m spy_page_active = Normal spy_page_active
  /\ (forall n, classList (final (updateScrollSpy spy_env_top m
                                    spy_page_active) n)
                = classList (spy_page_active n))
  /\ (forall n, "active" ∈ classList (spy_page_active n) ->
                "active" ∈ classList (final (updateScrollSpy spy_env_top m
                                               spy_page_active) n)).
Proof.
  apply scroll_spy_outside_all_sections.
  intros t Ht.
  assert (E : scrollSpyTargets
                (fst (init (H := Host.builtins) spy_env_top spy_page_active))
              = [1; 2]%nat) by (vm_compute; reflexivity).
  rewrite E in Ht.
  apply elem_of_cons in Ht as [->|Ht]; [reflexivity|].
  apply list_elem_of_singleton in Ht as ->. reflexivity.
Defined.

(** The example of the specification: the section "about" spans the rows
    70 to 400, the probe point is at 70, and the link to "about" becomes
    the one active link. *)
Lemma scroll_spy_marks_matching_links_witness :
  let m := fst (init (H := Host.builtins) spy_env spy_page) in
  let d' := final (updateScrollSpy spy_env m spy_page) in
  active_links d' (scrollSpyNavs m) = [3%nat].
Proof.
  intros m d'.
  assert (Et : scrollSpyTargets m = [1; 2]%nat) by apply spy_page_lists.
  assert (En : scrollSpyNavs m = [3; 4]%nat) by apply spy_page_lists.
  apply (scroll_spy_marks_matching_links spy_env m spy_page 1%nat).
  - rewrite En. decide_by_computation.
  - rewrite Et. left.
  - reflexivity.
  - intros t' Ht' Hprobe. rewrite Et in Ht'.
    apply elem_of_cons in Ht' as [->|Ht']; [reflexivity|].
    apply list_elem_of_singleton in Ht' as ->. discriminate Hprobe.
  - discriminate.
  - rewrite En. vm_compute. reflexivity.
Defined.

(** C2, as stated, fails.  On the page with a second link to "about" the
    probe point lies in exactly one of two sections that do not overlap,
    and two links are active afterwards.  On the page whose section has
    no id, the link whose href is '#' followed by that (empty) id is not
    made active. *)
Lemma scroll_spy_not_exactly_one_link :
  (let m := fst (init (H := Host.builtins) spy_env_two_links
                   spy_page_two_links) in
   let d' := final (updateScrollSpy spy_env_two_links m
                      spy_page_two_links) in
   scrollSpyTargets m = [1; 2]%nat
   /\ scrollSpyNavs m = [3; 4; 5]%nat
   /\ probe_inside (box spy_env_two_links 1%nat) = true
   /\ probe_inside (box spy_env_two_links 2%nat) = false
   /\ (bottom (box spy_env_two_links 1%nat)
       <= top (box spy_env_two_links 2%nat))%Q
   /\ active_links d' (scrollSpyNavs m) = [3; 5]%nat)
  /\ (let m := fst (init (H := Host.builtins) spy_env_no_id spy_page_no_id) in
      let d' := final (updateScrollSpy spy_env_no_id m spy_page_no_id) in
      scrollSpyTargets m = [1%nat]
      /\ scrollSpyNavs m = [3%nat]
      /\ probe_inside (box spy_env_no_id 1%nat) = true
      /\ href (spy_page_no_id 3%nat)
         = Some ("#" +:+ id (spy_page_no_id 1%nat))
      /\ active_links d' (scrollSpyNavs m) = []).
Proof.
  split.
  - repeat split; try (vm_compute; reflexivity).
    vm_compute. discriminate.
  - repeat split; vm_compute; reflexivity.
Qed.

End SpyFacts.

(** ** The scroll effects *)

Module EffectFacts.
Import JS DOM Scroll JSFacts DOMFacts StateFacts.

Section WithBuiltins.
Context `{Builtins}.

(** *** Footprints: each callback writes its own element only *)

Lemma updateParallax_each_local (e : Env) : local (updateParallax_each e).
Proof.
  intros k d j Hne. simpl. apply fn_lookup_alter_ne. congruence.
Qed.

Lemma updateScrollReveal_each_local (e : Env) :
  local (updateScrollReveal_each e).
Proof.
  intros k d j Hne. unfold updateScrollReveal_each.
  destruct (isVisible (window e) (box e k)); simpl; [|reflexivity].
  apply fn_lookup_alter_ne. congruence.
Qed.

Lemma updateStickyElements_each_local (e : Env) (s : ScrollState) :
  local (updateStickyElements_each e s).
Proof.
  intros k d j Hne. unfold updateStickyElements_each.
  assert (Hkj : k ≠ j) by congruence.
  destruct (sticky_past s (d k)).
  - destruct (parentElement (box e k)); simpl;
      rewrite ?fn_lookup_alter_ne by exact Hkj; reflexivity.
  - simpl. apply fn_lookup_alter_ne. exact Hkj.
Qed.

(** *** What each effect keeps *)

Section KeptProperty.
Variable P : Element -> Prop.
Variable m : ScrollManager.
Variable n : node.
Hypothesis Hkept : kept P m n.

Lemma updateParallax_keeps (e : Env) (d : store) :
  P (d n) -> P (final (updateParallax e m d) n).
Proof.
  apply (forEach_at P); [apply updateParallax_each_local|].
  intros Hin d0 Hd0. simpl. rewrite fn_lookup_alter.
  apply (kept_parallax P m n Hkept Hin). exact Hd0.
Qed.

Lemma updateScrollReveal_keeps (e : Env) (d : store) :
  P (d n) -> P (final (updateScrollReveal e m d) n).
Proof.
  apply (forEach_at P); [apply updateScrollReveal_each_local|].
  intros Hin d0 Hd0. unfold updateScrollReveal_each.
  destruct (isVisible (window e) (box e n)); simpl; [|exact Hd0].
  rewrite fn_lookup_alter. apply (kept_reveal P m n Hkept Hin). exact Hd0.
Qed.

Lemma updateScrollSpy_keeps (e : Env) (d : store) :
  P (d n) -> P (final (updateScrollSpy e m d) n).
Proof.
  unfold updateScrollSpy.
  destruct (truthy_target _) as [a|]; [|intros Hd; exact Hd].
  apply (forEach_at P).
  - apply (alter_local (λ _ _, spy_mark a)).
  - intros Hin d0 Hd0. simpl. rewrite fn_lookup_alter.
    apply (kept_spy P m n Hkept Hin). exact Hd0.
Qed.

Lemma updateHideOnScroll_keeps (d : store) :
  P (d n) -> P (final (updateHideOnScroll m d) n).
Proof.
  unfold updateHideOnScroll. apply (forEach_at P).
  - apply (alter_local (λ _ _, hide_or_show (shouldHide (state m)))).
  - intros Hin d0 Hd0. simpl. rewrite fn_lookup_alter.
    apply (kept_hide P m n Hkept Hin). exact Hd0.
Qed.

Lemma updateStickyElements_keeps (e : Env) (d : store) :
  P (d n) -> P (final (updateStickyElements e m d) n).
Proof.
  apply (forEach_at P); [apply updateStickyElements_each_local|].
  intros Hin d0 Hd0. unfold updateStickyElements_each.
  destruct (sticky_past (state m) (d0 n)).
  - assert (Hb : P (alter stick_begin n d0 n)).
    { rewrite fn_lookup_alter.
      apply (kept_stick_begin P m n Hkept Hin). exact Hd0. }
    destruct (parentElement (box e n)); simpl; [|exact Hb].
    rewrite fn_lookup_alter.
    apply (kept_stick_end P m n Hkept Hin). exact Hb.
  - simpl. rewrite fn_lookup_alter.
    apply (kept_unstick P m n Hkept Hin). exact Hd0.
Qed.

Lemma triggerScrollEffects_keeps (e : Env) (d : store) :
  P (d n) -> P (final (triggerScrollEffects e m d) n).
Proof.
  intros Hd. unfold triggerScrollEffects.
  apply (final_andThen (λ d, P (d n)));
    [apply updateParallax_keeps; exact Hd|]. clear d Hd. intros d Hd.
  apply (final_andThen (λ d, P (d n)));
    [apply updateScrollReveal_keeps; exact Hd|]. clear d Hd. intros d Hd.
  apply (final_andThen (λ d, P (d n)));
    [apply updateScrollSpy_keeps; exact Hd|]. clear d Hd. intros d Hd.
  apply (final_andThen (λ d, P (d n)));
    [apply updateHideOnScroll_keeps; exact Hd|]. clear d Hd. intros d Hd.
  apply updateStickyElements_keeps. exact Hd.
Qed.
End KeptProperty.

(** *** Events *)

Lemma kept_lists (P : Element -> Prop) (m m' : ScrollManager) (n : node) :
  lists m = lists m' -> kept P m n -> kept P m' n.
Proof.
  unfold lists. intros E [K1 K2 K3 K4 K5 K6 K7].
  injection E as E1 E2 E3 E4 E5 E6.
  constructor;
    [rewrite <- E1 | rewrite <- E2 | rewrite <- E4 | rewrite <- E5
     | rewrite <- E6 | rewrite <- E6 | rewrite <- E6];
    assumption.
Qed.

Lemma dispatch_lists (ev : event) (w : World) :
  lists (manager (final (dispatch ev w))) = lists (manager w).
Proof.
  destruct ev as [e|e|dy| | |t].
  - rewrite dispatch_scroll_manager. reflexivity.
  - reflexivity.
  - reflexivity.
  - reflexivity.
  - simpl. destruct (touchTimeout (manager w)); reflexivity.
  - unfold dispatch, run_frames. cbn [final].
    destruct (fold_left _ _ _). reflexivity.
Qed.

Lemma dispatch_scroll_elements (e : Env) (w : World) :
  elements (final (dispatch (EvScroll e) w))
  = final (triggerScrollEffects e
             (with_state (handleScroll_state (window e)) (manager w))
             (elements w)).
Proof.
  unfold dispatch. rewrite final_bind. simpl.
  apply handleScroll_elements.
Qed.

Lemma dispatch_keeps (P : Element -> Prop) (n : node) (ev : event)
  (w : World) :
  kept P (manager w) n ->
  P (elements w n) -> P (elements (final (dispatch ev w)) n).
Proof.
  intros Hkept Hw. destruct ev as [e|e|dy| | |t].
  - rewrite dispatch_scroll_elements.
    apply (triggerScrollEffects_keeps P); [|exact Hw].
    apply (kept_lists P (manager w)); [reflexivity | exact Hkept].
  - exact Hw.
  - exact Hw.
  - exact Hw.
  - simpl. destruct (touchTimeout (manager w)); exact Hw.
  - unfold dispatch, run_frames. cbn [final].
    destruct (fold_left _ _ _). exact Hw.
Qed.

Lemma run_lists (evs : list event) :
  forall w : World, lists (manager (run evs w)) = lists (manager w).
Proof.
  induction evs as [|ev evs IH]; intros w; [reflexivity|].
  unfold run. cbn [fold_left]. fold (run evs (final (dispatch ev w))).
  rewrite IH. apply dispatch_lists.
Qed.

Lemma run_keeps (P : Element -> Prop) (n : node) (evs : list event) :
  forall w : World,
    kept P (manager w) n ->
    P (elements w n) -> P (elements (run evs w) n).
Proof.
  induction evs as [|ev evs IH]; intros w Hkept Hw; [exact Hw|].
  unfold run. cbn [fold_left]. fold (run evs (final (dispatch ev w))).
  apply IH.
  - apply (kept_lists P (manager w)); [|exact Hkept].
    symmetry. apply dispatch_lists.
  - apply dispatch_keeps; assumption.
Qed.
End WithBuiltins.
End EffectFacts.

(** ** Reveal on scroll *)

Module RevealFacts.
Import JS DOM Scroll Samples JSFacts DOMFacts StateFacts EffectFacts.

Lemma getProperty_set_style (p v : string) (el : Element) :
  getProperty p (style (set_style p v el)) = v.
Proof. apply getProperty_setProperty. Qed.

Lemma getProperty_set_style_ne (p q v : string) (el : Element) :
  p ≠ q ->
  getProperty p (style (set_style q v el)) = getProperty p (style el).
Proof. apply getProperty_setProperty_ne. Qed.

Lemma revealed_reveal (el : Element) : revealed (reveal el).
Proof.
  unfold revealed, reveal. cbn [classList style with_classList].
  split; [apply elem_of_add; left; reflexivity|]. split.
  - rewrite getProperty_set_style_ne by discriminate.
    apply getProperty_set_style.
  - apply getProperty_set_style.
Qed.

Lemma reveal_idempotent (el : Element) : reveal (reveal el) = reveal el.
Proof.
  destruct el as [i h cl st ds]. unfold reveal, set_style, with_style,
    with_classList. cbn [id href classList style dataset]. f_equal.
  - apply add_idempotent.
  - unfold setProperty. cbn [String.eqb Ascii.eqb Bool.eqb].
    apply map_eq. intros k.
    destruct (decide ("transform" = k)) as [<-|Ht];
      [rewrite !lookup_insert_eq; reflexivity|].
    destruct (decide ("opacity" = k)) as [<-|Ho];
      repeat first [rewrite lookup_insert_eq
                   | rewrite lookup_insert_ne by assumption];
      reflexivity.
Qed.

Lemma style_spy_mark (a : string) (el : Element) :
  style (spy_mark a el) = style el.
Proof. unfold spy_mark. destruct (bool_decide _); reflexivity. Qed.

Lemma class_spy_mark (c a : string) (el : Element) :
  c ≠ "active" -> c ∈ classList el -> c ∈ classList (spy_mark a el).
Proof.
  intros Hne Hel. unfold spy_mark.
  destruct (bool_decide _); cbn [classList with_classList].
  - apply elem_of_add. right. apply elem_of_remove. split; assumption.
  - apply elem_of_remove. split; assumption.
Qed.

(** A class other than 'active' and 'sticky-active' is removed by no
    effect. *)
Lemma class_kept `{Builtins} (c : string) (m : ScrollManager) (n : node) :
  c ≠ "active" -> c ≠ "sticky-active" ->
  kept (λ el, c ∈ classList el) m n.
Proof.
  intros Ha Hs. constructor.
  - intros _ v el Hel. exact Hel.
  - intros _ el Hel. unfold reveal. cbn [classList with_classList].
    apply elem_of_add. right. exact Hel.
  - intros _ a el Hel. apply class_spy_mark; assumption.
  - intros _ b el Hel. destruct b; exact Hel.
  - intros _ el Hel. exact Hel.
  - intros _ w el Hel. unfold stick_end. cbn [classList with_classList].
    apply elem_of_add. right. exact Hel.
  - intros _ el Hel. unfold unstick. cbn [classList with_classList].
    apply elem_of_remove. split; assumption.
Qed.

(** The revealed state of an element that is neither a parallax element
    nor hidden on scroll is overwritten by no effect. *)
Lemma revealed_kept `{Builtins} (m : ScrollManager) (n : node) :
  n ∉ parallaxElements m -> n ∉ hideOnScrollElements m ->
  kept revealed m n.
Proof.
  intros Hpar Hhide. constructor.
  - intros Hin. contradiction.
  - intros _ el _. apply revealed_reveal.
  - intros _ a el [Hc [Ho Ht]]. unfold revealed.
    rewrite style_spy_mark. split; [|split; assumption].
    apply class_spy_mark; [discriminate | exact Hc].
  - intros Hin. contradiction.
  - intros _ el [Hc [Ho Ht]]. unfold revealed, stick_begin.
    rewrite !getProperty_set_style_ne by discriminate.
    split; [exact Hc|]. split; assumption.
  - intros _ w el [Hc [Ho Ht]]. unfold revealed, stick_end.
    cbn [classList style with_classList].
    rewrite !getProperty_set_style_ne by discriminate.
    split; [apply elem_of_add; right; exact Hc|]. split; assumption.
  - intros _ el [Hc [Ho Ht]]. unfold revealed, unstick.
    cbn [classList style with_classList].
    rewrite !getProperty_set_style_ne by discriminate.
    split; [|split; assumption].
    apply elem_of_remove. split; [discriminate | exact Hc].
Qed.

(** C4 (amended).  Marking an element revealed is idempotent, and no
    later call of [updateScrollReveal] changes the revealed state,
    whatever the geometry.  Across any sequence of events the class
    'revealed' is never removed; the opacity and the transform of the
    revealed state are kept as well when the element is neither a
    parallax element nor hidden on scroll. *)
Theorem reveal_is_one_way `{Builtins} :
  (forall el, revealed (reveal el) /\ reveal (reveal el) = reveal el)
  /\ (forall (e : Env) (m : ScrollManager) (d : store) (n : node),
      revealed (d n) -> revealed (final (updateScrollReveal e m d) n))
  /\ (forall (evs : list event) (w : World) (n : node),
      "revealed" ∈ classList (elements w n) ->
      "revealed" ∈ classList (elements (run evs w) n))
  /\ (forall (evs : list event) (w : World) (n : node),
      n ∉ parallaxElements (manager w) ->
      n ∉ hideOnScrollElements (manager w) ->
      revealed (elements w n) ->
      revealed (elements (run evs w) n)).
Proof.
  split; [|split; [|split]].
  - intros el. split; [apply revealed_reveal | apply reveal_idempotent].
  - intros e m d n Hd.
    apply (forEach_at revealed);
      [apply updateScrollReveal_each_local | | exact Hd].
    intros _ d0 Hd0. unfold updateScrollReveal_each.
    destruct (isVisible (window e) (box e n)); simpl; [|exact Hd0].
    rewrite fn_lookup_alter. apply revealed_reveal.
  - intros evs w n Hw.
    apply (run_keeps (λ el, "revealed" ∈ classList el)); [|exact Hw].
    apply class_kept; discriminate.
  - intros evs w n Hpar Hhide Hw.
    apply (run_keeps revealed); [|exact Hw].
    apply revealed_kept; assumption.
Qed.

(** C4, as stated, fails: a navigation bar carrying both [data-reveal]
    and [data-hide-on-scroll] is revealed by a first scroll event and
    loses the opacity and the transform of the revealed state at the next
    scroll down past the threshold, while it is still in view. *)
Lemma reveal_undone_by_hide_on_scroll :
  let w0 := loaded (H := Host.builtins) (navbar_env 0) navbar_page in
  let w1 := run (H := Host.builtins) [EvScroll (navbar_env 50)] w0 in
  let w2 := run (H := Host.builtins) [EvScroll (navbar_env 200)] w1 in
  revealed (elements w1 1%nat)
  /\ isVisible (window (navbar_env 200)) (box (navbar_env 200) 1%nat) = true
  /\ getProperty "opacity" (style (elements w2 1%nat)) = "0"
  /\ getProperty "transform" (style (elements w2 1%nat)) = "translateY(-100%)"
  /\ ~ revealed (elements w2 1%nat).
Proof.
  intros w0 w1 w2.
  assert (Hc1 : classList (elements w1 1%nat) = ["revealed"])
    by (vm_compute; reflexivity).
  assert (Ho1 : getProperty "opacity" (style (elements w1 1%nat)) = "1")
    by (vm_compute; reflexivity).
  assert (Ht1 : getProperty "transform" (style (elements w1 1%nat))
                = "translateY(0)")
    by (vm_compute; reflexivity).
  assert (Ho2 : getProperty "opacity" (style (elements w2 1%nat)) = "0")
    by (vm_compute; reflexivity).
  assert (Ht2 : getProperty "transform" (style (elements w2 1%nat))
                = "translateY(-100%)")
    by (vm_compute; reflexivity).
  split.
  { unfold revealed. rewrite Hc1, Ho1, Ht1.
    split; [apply list_elem_of_singleton; reflexivity|].
    split; reflexivity. }
  split; [vm_compute; reflexivity|].
  split; [exact Ho2|]. split; [exact Ht2|].
  intros [_ [Ho _]]. rewrite Ho2 in Ho. discriminate.
Qed.

(** The card is revealed when it comes into view at offset 600 and is
    still revealed after the page has been scrolled to 2000, where it is
    out of view, and back to the top. *)
Lemma reveal_is_one_way_witness :
  let w1 := run (H := Host.builtins) [EvScroll (card_env 600)]
              (loaded (H := Host.builtins) (card_env 0) card_page) in
  isVisible (window (card_env 2000)) (box (card_env 2000) 1%nat) = false
  /\ revealed (elements (run (H := Host.builtins)
                           [EvScroll (card_env 2000); EvScroll (card_env 0)]
                           w1) 1%nat).
Proof.
  intros w1. split; [vm_compute; reflexivity|].
  apply (proj2 (proj2 (proj2 (reveal_is_one_way (H := Host.builtins))))).
  - decide_by_computation.
  - decide_by_computation.
  - assert (Hc : classList (elements w1 1%nat) = ["revealed"])
      by (vm_compute; reflexivity).
    assert (Ho : getProperty "opacity" (style (elements w1 1%nat)) = "1")
      by (vm_compute; reflexivity).
    assert (Ht : getProperty "transform" (style (elements w1 1%nat))
                 = "translateY(0)")
      by (vm_compute; reflexivity).
    unfold revealed. rewrite Hc, Ho, Ht.
    split; [left|]. split; reflexivity.
Defined.

End RevealFacts.

(** ** Absent elements *)

Module AbsentFacts.
Import JS DOM Scroll Samples JSFacts DOMFacts StateFacts EffectFacts.

Lemma querySelectorAll_data_none (key : string) (e : Env) (d : store) :
  (forall n, n ∈ document e -> dataset (d n) !! key = None) ->
  querySelectorAll_data key e d = [].
Proof.
  unfold querySelectorAll_data. induction (document e) as [|x l IH];
    intros Hnone; [reflexivity|].
  rewrite filter_cons.
  assert (Hx : has_data key (d x) = false).
  { unfold has_data. rewrite (Hnone x) by left.
    apply bool_decide_eq_false. intros [v Hv]. discriminate. }
  rewrite Hx. destruct (decide (false = true)) as [Hft|_]; [discriminate|].
  apply IH. intros n Hn. apply Hnone. right. exact Hn.
Qed.

Section WithBuiltins.
Context `{Builtins}.

Lemma triggerScrollEffects_empty (e : Env) (m : ScrollManager) (d : store) :
  lists m = [[]; []; []; []; []; []] ->
  triggerScrollEffects e m d = Normal d.
Proof.
  unfold lists. intros E. injection E as E1 E2 E3 E4 E5 E6.
  unfold triggerScrollEffects, updateParallax, updateScrollReveal,
    updateScrollSpy, updateHideOnScroll, updateStickyElements.
  rewrite E1, E2, E3, E4, E5, E6. reflexivity.
Qed.

Lemma init_unmarked (e : Env) (d : store) :
  unmarked e d ->
  lists (fst (init e d)) = [[]; []; []; []; []; []] /\ snd (init e d) = d.
Proof.
  intros Hun.
  assert (Hq : forall key, key ∈ attributes ->
                           querySelectorAll_data key e d = []).
  { intros key Hkey. apply querySelectorAll_data_none.
    intros n Hn. apply Hun; assumption. }
  unfold init, lists. cbn [fst snd parallaxElements revealElements
    scrollSpyTargets scrollSpyNavs hideOnScrollElements stickyElements].
  rewrite (Hq "parallax") by (unfold attributes; set_solver).
  cbn [forEach_pure fold_left].
  rewrite (Hq "reveal") by (unfold attributes; set_solver).
  cbn [forEach_pure fold_left].
  rewrite (Hq "scrollSpy") by (unfold attributes; set_solver).
  rewrite (Hq "scrollNav") by (unfold attributes; set_solver).
  rewrite (Hq "hideOnScroll") by (unfold attributes; set_solver).
  rewrite (Hq "sticky") by (unfold attributes; set_solver).
  split; reflexivity.
Qed.

Lemma dispatch_empty (ev : event) (w : World) :
  lists (manager w) = [[]; []; []; []; []; []] ->
  is_normal (dispatch ev w) = true
  /\ elements (final (dispatch ev w)) = elements w.
Proof.
  intros Hempty. destruct ev as [e|e|dy| | |t].
  - unfold dispatch, handleScroll.
    rewrite triggerScrollEffects_empty by exact Hempty.
    split; reflexivity.
  - split; reflexivity.
  - split; reflexivity.
  - split; reflexivity.
  - simpl. destruct (touchTimeout (manager w)); split; reflexivity.
  - unfold dispatch, run_frames. cbn [final is_normal].
    destruct (fold_left _ _ _). split; reflexivity.
Qed.

(** C8.  Each effect whose NodeList is empty returns the store it was
    given, without an exception.  On a page where no element carries any
    of the declarative attributes, initialisation finds nothing and
    changes nothing, and afterwards every event completes normally and
    leaves every element as it was.  [smoothScrollToElement] called with
    null returns the page unchanged. *)
Theorem absent_elements_are_skipped :
  (forall (e : Env) (m : ScrollManager) (d : store),
      (parallaxElements m = [] -> updateParallax e m d = Normal d)
      /\ (revealElements m = [] -> updateScrollReveal e m d = Normal d)
      /\ (scrollSpyTargets m = [] \/ scrollSpyNavs m = [] ->
          updateScrollSpy e m d = Normal d)
      /\ (hideOnScrollElements m = [] -> updateHideOnScroll m d = Normal d)
      /\ (stickyElements m = [] -> updateStickyElements e m d = Normal d))
  /\ (forall (e0 : Env) (d0 : store),
      unmarked e0 d0 ->
      lists (manager (loaded e0 d0)) = [[]; []; []; []; []; []]
      /\ elements (loaded e0 d0) = d0
      /\ forall (evs : list event) (ev : event),
          elements (run evs (loaded e0 d0)) = d0
          /\ is_normal (dispatch ev (run evs (loaded e0 d0))) = true)
  /\ (forall (offset : Q) (w : World),
      smoothScrollToElement None offset w = w).
Proof.
  split; [|split].
  - intros e m d. repeat split.
    + intros E. unfold updateParallax. rewrite E. reflexivity.
    + intros E. unfold updateScrollReveal. rewrite E. reflexivity.
    + intros [E|E]; unfold updateScrollSpy; rewrite E.
      * reflexivity.
      * destruct (truthy_target _); reflexivity.
    + intros E. unfold updateHideOnScroll. rewrite E. reflexivity.
    + intros E. unfold updateStickyElements. rewrite E. reflexivity.
  - intros e0 d0 Hun. destruct (init_unmarked e0 d0 Hun) as [Hl Hd].
    split; [exact Hl|]. split; [exact Hd|].
    assert (Hinv : forall evs w,
               lists (manager w) = [[]; []; []; []; []; []] ->
               elements (run evs w) = elements w).
    { induction evs as [|ev' evs IH]; intros w Hw; [reflexivity|].
      unfold run. cbn [fold_left]. fold (run evs (final (dispatch ev' w))).
      rewrite IH.
      - apply dispatch_empty. exact Hw.
      - rewrite dispatch_lists. exact Hw. }
    intros evs ev. split.
    + rewrite Hinv by exact Hl. exact Hd.
    + apply dispatch_empty. rewrite run_lists. exact Hl.
  - intros offset w. reflexivity.
Qed.
End WithBuiltins.

Lemma plain_page_unmarked (y : Q) : unmarked (plain_env y) plain_page.
Proof.
  intros n key _ _.
  assert (E : dataset (plain_page n) = ∅).
  { unfold plain_page, page. cbn [foldr fst snd].
    unfold insert, fn_insert. repeat case_decide; reflexivity. }
  rewrite E. apply lookup_empty.
Qed.

(** On the plain page nothing is marked: scrolling leaves the elements
    as authored. *)
Lemma absent_elements_are_skipped_witness :
  elements (run (H := Host.builtins)
              [EvScroll (plain_env 300); EvScroll (plain_env 900)]
              (loaded (H := Host.builtins) (plain_env 0) plain_page))
  = plain_page
  /\ is_normal (dispatch (H := Host.builtins) (EvScroll (plain_env 1200))
                  (run (H := Host.builtins)
                     [EvScroll (plain_env 300); EvScroll (plain_env 900)]
                     (loaded (H := Host.builtins) (plain_env 0) plain_page)))
     = true.
Proof.
  apply (proj1 (proj2 (absent_elements_are_skipped (H := Host.builtins)))
           (plain_env 0) plain_page (plain_page_unmarked 0)).
Defined.
End AbsentFacts.

(** ** Sticky elements *)

Module StickyFacts.
Import JS DOM Scroll Samples JSFacts DOMFacts StateFacts EffectFacts.
Import RevealFacts.

Section WithBuiltins.
Context `{Builtins}.

(** No effect writes a dataset. *)
Lemma dataset_kept (P : gmap string string -> Prop) (m : ScrollManager)
  (n : node) :
  kept (λ el, P (dataset el)) m n.
Proof.
  constructor.
  - intros _ v el Hel. exact Hel.
  - intros _ el Hel. exact Hel.
  - intros _ a el Hel. unfold spy_mark. destruct (bool_decide _); exact Hel.
  - intros _ b el Hel. destruct b; exact Hel.
  - intros _ el Hel. exact Hel.
  - intros _ w el Hel. exact Hel.
  - intros _ el Hel. exact Hel.
Qed.

(** Initialisation records the top offset of every sticky element. *)
Lemma initStickyElements_captures (e : Env) (n : node) (l : list node) :
  n ∈ l ->
  forall d,
    dataset (forEach_pure (initStickyElements_each e) l d n) !! "originalTop"
    = Some (NumberToString (Num (inject_Z (offsetTop (box e n))))).
Proof.
  set (P := λ el : Element,
              dataset el !! "originalTop"
              = Some (NumberToString (Num (inject_Z (offsetTop (box e n)))))).
  assert (Hkeep : forall k d, P (d n) -> P (initStickyElements_each e k d n)).
  { intros k d Hd. unfold initStickyElements_each.
    destruct (decide (k = n)) as [->|Hne].
    - rewrite fn_lookup_alter. unfold P. cbn [dataset with_dataset].
      apply lookup_insert_eq.
    - rewrite fn_lookup_alter_ne by exact Hne. exact Hd. }
  induction l as [|k l IH]; intros Hin d; [inversion Hin|].
  unfold forEach_pure. cbn [fold_left].
  fold (forEach_pure (initStickyElements_each e) l
          (initStickyElements_each e k d)).
  destruct (decide (k = n)) as [->|Hne].
  - apply (forEach_pure_keeps P); [exact Hkeep|].
    unfold initStickyElements_each. rewrite fn_lookup_alter.
    unfold P. cbn [dataset with_dataset]. apply lookup_insert_eq.
  - apply IH. apply elem_of_cons in Hin as [Heq|Hin]; [congruence|exact Hin].
Qed.

(** Initialisation leaves every other data attribute as authored. *)
Lemma init_keeps_data (e : Env) (d : store) (n : node) (key : string) :
  key ≠ "originalTop" ->
  dataset (snd (init e d) n) !! key = dataset (d n) !! key.
Proof.
  intros Hkey. unfold init. cbn [snd].
  set (P := λ el : Element, dataset el !! key = dataset (d n) !! key).
  apply (forEach_pure_keeps P).
  { intros k d0 Hd0. unfold initStickyElements_each.
    destruct (decide (k = n)) as [->|Hne].
    - rewrite fn_lookup_alter. unfold P. cbn [dataset with_dataset].
      rewrite lookup_insert_ne by congruence. exact Hd0.
    - rewrite fn_lookup_alter_ne by exact Hne. exact Hd0. }
  apply (forEach_pure_keeps P).
  { intros k d0 Hd0. unfold initScrollReveal_each.
    destruct (decide (k = n)) as [->|Hne].
    - rewrite fn_lookup_alter. exact Hd0.
    - rewrite fn_lookup_alter_ne by exact Hne. exact Hd0. }
  apply (forEach_pure_keeps P).
  { intros k d0 Hd0. unfold initParallax_each.
    destruct (decide (k = n)) as [->|Hne].
    - rewrite fn_lookup_alter. exact Hd0.
    - rewrite fn_lookup_alter_ne by exact Hne. exact Hd0. }
  reflexivity.
Qed.

Lemma updateStickyElements_each_step (e : Env) (s : ScrollState) (k : node)
  (d : store) :
  is_Some (parentElement (box e k)) ->
  is_normal (updateStickyElements_each e s k d) = true
  /\ forall j, final (updateStickyElements_each e s k d) j
               = if bool_decide (j = k) then sticky_step e s k (d k)
                 else d j.
Proof.
  intros [p Hp]. unfold updateStickyElements_each, sticky_step.
  rewrite Hp. destruct (sticky_past s (d k)); cbn [is_normal final];
    (split; [reflexivity|]); intros j;
    destruct (decide (j = k)) as [->|Hne];
    rewrite ?bool_decide_eq_true_2 by reflexivity;
    rewrite ?(bool_decide_eq_false_2 _ Hne);
    rewrite ?fn_lookup_alter;
    rewrite ?fn_lookup_alter_ne by congruence;
    rewrite ?fn_lookup_alter; reflexivity.
Qed.

(** C6.  The top offset of a sticky element is captured in its dataset at
    initialisation and, like its [data-offset], is not changed by any
    later event.  With that captured offset and a numeric [data-offset]
    (0 when absent), [updateStickyElements] gives the element fixed
    positioning at the configured offset, with the class 'sticky-active',
    exactly when the scroll position has reached the captured top offset
    minus the configured offset; otherwise it gives it relative
    positioning with top 0 and removes the class. *)
Theorem sticky_switches_at_threshold :
  (forall (e0 : Env) (d0 : store) (evs : list event) (n : node),
      n ∈ stickyElements (manager (loaded e0 d0)) ->
      let ds := dataset (elements (run evs (loaded e0 d0)) n) in
      ds !! "originalTop"
      = Some (NumberToString (Num (inject_Z (offsetTop (box e0 n)))))
      /\ ds !! "offset" = dataset (d0 n) !! "offset")
  /\ (forall (e : Env) (m : ScrollManager) (d : store) (n : node)
             (t0 : Z) (o : Q),
      NoDup (stickyElements m) ->
      n ∈ stickyElements m ->
      (forall k, k ∈ stickyElements m -> is_Some (parentElement (box e k))) ->
      dataset (d n) !! "originalTop"
      = Some (NumberToString (Num (inject_Z t0))) ->
      parseFloat (NumberToString (Num (inject_Z t0))) = Num (inject_Z t0) ->
      ToNumber (sticky_offsetTop (d n)) = Num o ->
      let d' := final (updateStickyElements e m d) in
      let past := (inject_Z t0 - o <= scrollPosition (state m))%Q in
      is_normal (updateStickyElements e m d) = true
      /\ (getProperty "position" (style (d' n)) = "fixed" <-> past)
      /\ (past ->
          getProperty "position" (style (d' n)) = "fixed"
          /\ getProperty "top" (style (d' n))
             = ToString (sticky_offsetTop (d n)) +:+ "px"
          /\ "sticky-active" ∈ classList (d' n))
      /\ (~ past ->
          getProperty "position" (style (d' n)) = "relative"
          /\ getProperty "top" (style (d' n)) = "0"
          /\ "sticky-active" ∉ classList (d' n))
      /\ dataset (d' n) = dataset (d n)).
Proof.
  split.
  - intros e0 d0 evs n Hn ds. subst ds. split.
    + apply (run_keeps (λ el, dataset el !! "originalTop" = _)).
      * apply (dataset_kept (λ ds, ds !! "originalTop" = _)).
      * unfold loaded, init. cbn [elements snd].
        apply initStickyElements_captures. exact Hn.
    + apply (run_keeps (λ el, dataset el !! "offset" = _)).
      * apply (dataset_kept (λ ds, ds !! "offset" = _)).
      * unfold loaded. cbn [elements].
        apply init_keeps_data. discriminate.
  - intros e m d n t0 o Hnd Hn Hparent Hcap Hparse Hoff d' past.
    destruct (forEach_elementwise
                (updateStickyElements_each e (state m))
                (sticky_step e (state m)) (stickyElements m)
                (λ k d0 Hk, updateStickyElements_each_step e (state m) k d0
                              (Hparent k Hk))
                Hnd d) as [Hnorm Hfin].
    assert (Hd' : d' n = sticky_step e (state m) n (d n)).
    { subst d'. unfold updateStickyElements.
      rewrite Hfin, (bool_decide_eq_true_2 _ Hn). reflexivity. }
    assert (Hpast : sticky_past (state m) (d n) = true <-> past).
    { unfold sticky_past, sticky_originalTop. rewrite Hcap.
      cbn [parseFloat_opt]. rewrite Hparse, Hoff. cbn [sub neg add ge].
      apply Qle_bool_iff. }
    destruct (Hparent n Hn) as [p Hp].
    assert (Hyes : past ->
              getProperty "position" (style (d' n)) = "fixed"
              /\ getProperty "top" (style (d' n))
                 = ToString (sticky_offsetTop (d n)) +:+ "px"
              /\ "sticky-active" ∈ classList (d' n)).
    { intros Hp'. apply Hpast in Hp'. rewrite Hd'. unfold sticky_step.
      rewrite Hp', Hp. unfold stick_end, stick_begin.
      cbn [classList style with_classList].
      split; [|split].
      + rewrite !getProperty_set_style_ne by discriminate.
        apply getProperty_set_style.
      + rewrite !getProperty_set_style_ne by discriminate.
        apply getProperty_set_style.
      + apply elem_of_add. left. reflexivity. }
    assert (Hno : ~ past ->
              getProperty "position" (style (d' n)) = "relative"
              /\ getProperty "top" (style (d' n)) = "0"
              /\ "sticky-active" ∉ classList (d' n)).
    { intros Hnp. assert (E : sticky_past (state m) (d n) = false).
      { destruct (sticky_past (state m) (d n)); [|reflexivity].
        exfalso. apply Hnp, Hpast. reflexivity. }
      rewrite Hd'. unfold sticky_step. rewrite E. unfold unstick.
      cbn [classList style with_classList].
      split; [|split].
      + rewrite getProperty_set_style_ne by discriminate.
        apply getProperty_set_style.
      + apply getProperty_set_style.
      + rewrite elem_of_remove. intros [Hne _]. apply Hne. reflexivity. }
    split; [exact Hnorm|]. split; [|split; [exact Hyes|split; [exact Hno|]]].
    + split.
      * intros Hfixed. destruct (Qlt_le_dec (scrollPosition (state m))
                                            (inject_Z t0 - o)) as [Hlt|Hle];
          [|exact Hle].
        exfalso. destruct (Hno (Qlt_not_le _ _ Hlt)) as [Hrel _].
        rewrite Hrel in Hfixed. discriminate.
      * intros Hp'. apply Hyes. exact Hp'.
    + rewrite Hd'. unfold sticky_step.
      destruct (sticky_past (state m) (d n)); [rewrite Hp|]; reflexivity.
Qed.
End WithBuiltins.

(** The sidebar sits 500 pixels down with an offset of 70: at scroll
    position 430 it is fixed 70 pixels from the top. *)
Lemma sticky_switches_at_threshold_witness :
  let w0 := loaded (H := Host.builtins) (sticky_env 0) sticky_page in
  let e := sticky_env 430 in
  let m := with_state (handleScroll_state (window e)) (manager w0) in
  let d' := final (updateStickyElements (H := Host.builtins) e m
                     (elements w0)) in
  getProperty "position" (style (d' 2%nat)) = "fixed"
  /\ getProperty "top" (style (d' 2%nat)) = "70px"
  /\ "sticky-active" ∈ classList (d' 2%nat).
Proof.
  intros w0 e m d'.
  assert (Es : stickyElements m = [2%nat]) by (vm_compute; reflexivity).
  assert (Hpast : (inject_Z 500 - 70 <= scrollPosition (state m))%Q)
    by (vm_compute; discriminate).
  apply (proj2 (sticky_switches_at_threshold (H := Host.builtins))
           e m (elements w0) 2%nat 500%Z 70%Q); [..|exact Hpast].
  - rewrite Es. apply NoDup_singleton.
  - rewrite Es. left.
  - intros k Hk. rewrite Es in Hk.
    apply list_elem_of_singleton in Hk as ->. eexists. reflexivity.
  - vm_compute. reflexivity.
  - vm_compute. reflexivity.
  - vm_compute. reflexivity.
Defined.
End StickyFacts.

(** ** The hamburger menu *)

Module NavbarFacts.
Import DOM Navbar Samples DOMFacts.

Lemma alter_apply (g : Element -> Element) (k : node) (d : store) (n : node) :
  alter g k d n = (if bool_decide (n = k) then g else λ el, el) (d n).
Proof.
  destruct (decide (n = k)) as [->|Hne].
  - rewrite bool_decide_eq_true_2 by reflexivity. apply fn_lookup_alter.
  - rewrite bool_decide_eq_false_2 by exact Hne.
    apply fn_lookup_alter_ne. congruence.
Qed.

Lemma toggle_twice (t : string) (l : list string) :
  t ∉ l -> toggle t (toggle t l) = l.
Proof.
  intros Hnin. rewrite (toggle_absent t l Hnin).
  rewrite toggle_present by (apply elem_of_add; left; reflexivity).
  apply remove_add. exact Hnin.
Qed.

(** The state of the menu after a click, given its state before. *)
Lemma click_menu (burger menu : node) (e : Env) (d : store) :
  burger ≠ menu ->
  classList (click burger menu e d menu) = toggle "open" (classList (d menu)).
Proof.
  intros Hne. unfold click.
  destruct (contains "open" _); rewrite !alter_apply;
    rewrite (bool_decide_eq_true_2 (menu = menu)) by reflexivity;
    rewrite (bool_decide_eq_false_2 (menu = burger)) by congruence;
    destruct (bool_decide (menu = body e)); reflexivity.
Qed.

(** Every element after a click, in terms of the value given to the
    overflow of the body. *)
Lemma click_at (burger menu : node) (e : Env) (d : store) (n : node) :
  burger ≠ menu ->
  click burger menu e d n
  = (if bool_decide (n = body e)
     then set_style "overflow"
            (if contains "open" (toggle "open" (classList (d menu)))
             then "hidden" else "")
     else λ el, el)
      ((if bool_decide (n = menu)
        then with_classList (toggle "open") else λ el, el)
         ((if bool_decide (n = burger)
           then with_classList (toggle "open") else λ el, el)
            (d n))).
Proof.
  intros Hne. unfold click.
  assert (E : classList (alter (with_classList (toggle "open")) menu
                           (alter (with_classList (toggle "open")) burger d)
                           menu)
              = toggle "open" (classList (d menu))).
  { rewrite !alter_apply.
    rewrite (bool_decide_eq_true_2 (menu = menu)) by reflexivity.
    rewrite (bool_decide_eq_false_2 (menu = burger)) by congruence.
    reflexivity. }
  rewrite E. destruct (contains "open" _); rewrite !alter_apply; reflexivity.
Qed.

(** C7.  From a closed menu, with the overflow of the body unset and the
    toggle and the menu two different elements, one click puts the class
    'open' on both and sets the overflow of the body to 'hidden'; a second
    click removes the class from both and unsets the overflow, and every
    element of the page is then what it was before the first click. *)
Theorem hamburger_two_clicks (burger menu : node) (e : Env) (d : store) :
  burger ≠ menu ->
  "open" ∉ classList (d burger) ->
  "open" ∉ classList (d menu) ->
  style (d (body e)) !! "overflow" = None ->
  let d1 := click burger menu e d in
  let d2 := click burger menu e d1 in
  ("open" ∈ classList (d1 burger)
   /\ "open" ∈ classList (d1 menu)
   /\ getProperty "overflow" (style (d1 (body e))) = "hidden")
  /\ (("open" ∉ classList (d2 burger))
      /\ ("open" ∉ classList (d2 menu))
      /\ getProperty "overflow" (style (d2 (body e))) = "")
  /\ (forall n, d2 n = d n).
Proof.
  intros Hne Hb Hm Hov d1 d2.
  assert (Hopen : contains "open" (toggle "open" (classList (d menu)))
                  = true).
  { apply contains_true. rewrite toggle_absent by exact Hm.
    apply elem_of_add. left. reflexivity. }
  assert (H1 : forall n, d1 n
     = (if bool_decide (n = body e)
        then set_style "overflow" "hidden" else λ el, el)
         ((if bool_decide (n = menu)
           then with_classList (toggle "open") else λ el, el)
            ((if bool_decide (n = burger)
              then with_classList (toggle "open") else λ el, el)
               (d n)))).
  { intros n. subst d1. rewrite click_at by exact Hne.
    rewrite Hopen. reflexivity. }
  assert (Hm1 : classList (d1 menu) = add "open" (classList (d menu))).
  { subst d1. rewrite click_menu by exact Hne.
    apply toggle_absent. exact Hm. }
  assert (Hclosed : contains "open" (toggle "open" (classList (d1 menu)))
                    = false).
  { apply contains_false. rewrite Hm1.
    rewrite toggle_present by (apply elem_of_add; left; reflexivity).
    rewrite elem_of_remove. intros [Hne' _]. apply Hne'. reflexivity. }
  assert (H2 : forall n, d2 n
     = (if bool_decide (n = body e)
        then set_style "overflow" "" else λ el, el)
         ((if bool_decide (n = menu)
           then with_classList (toggle "open") else λ el, el)
            ((if bool_decide (n = burger)
              then with_classList (toggle "open") else λ el, el)
               (d1 n)))).
  { intros n. subst d2. rewrite click_at by exact Hne.
    rewrite Hclosed. reflexivity. }
  assert (Hall : forall n, d2 n = d n).
  { intros n. rewrite H2, H1.
    destruct (d n) as [i h cl st ds] eqn:En.
    assert (Hcl : n = burger \/ n = menu -> "open" ∉ cl).
    { intros [->| ->]; [rewrite En in Hb | rewrite En in Hm]; assumption. }
    assert (Hst : n = body e -> st !! "overflow" = None).
    { intros ->. rewrite En in Hov. exact Hov. }
    destruct (decide (n = body e)) as [Hy|Hy];
      [rewrite !(bool_decide_eq_true_2 _ Hy)
      | rewrite !(bool_decide_eq_false_2 _ Hy)];
      (destruct (decide (n = menu)) as [Hw|Hw];
       [rewrite !(bool_decide_eq_true_2 _ Hw)
       | rewrite !(bool_decide_eq_false_2 _ Hw)]);
      (destruct (decide (n = burger)) as [Hz|Hz];
       [rewrite !(bool_decide_eq_true_2 _ Hz)
       | rewrite !(bool_decide_eq_false_2 _ Hz)]);
      try (exfalso; congruence);
      unfold set_style, with_style, with_classList;
      cbn [id href classList style dataset]; f_equal;
      try (apply toggle_twice; apply Hcl; tauto);
      try (apply setProperty_unset; apply Hst; exact Hy). }
  split; [|split; [|exact Hall]].
  - split; [|split].
    + rewrite H1.
      rewrite (bool_decide_eq_true_2 (burger = burger)) by reflexivity.
      rewrite (bool_decide_eq_false_2 (burger = menu)) by exact Hne.
      assert (Hin : "open" ∈ toggle "open" (classList (d burger))).
      { rewrite toggle_absent by exact Hb. apply elem_of_add. left.
        reflexivity. }
      destruct (bool_decide (burger = body e)); exact Hin.
    + rewrite Hm1. apply elem_of_add. left. reflexivity.
    + rewrite H1. rewrite (bool_decide_eq_true_2 (body e = body e))
        by reflexivity.
      apply getProperty_setProperty.
  - rewrite !Hall. split; [exact Hb|]. split; [exact Hm|].
    unfold getProperty. rewrite Hov. reflexivity.
Qed.

(** On the sample page the burger is node 1 and the menu node 2, and the
    listener installed at load time is their click handler. *)
Lemma menu_page_listener :
  onDOMContentLoaded menu_env menu_page = Some (click 1%nat 2%nat).
Proof. vm_compute. reflexivity. Qed.

Lemma hamburger_two_clicks_witness :
  let d1 := click 1%nat 2%nat menu_env menu_page in
  let d2 := click 1%nat 2%nat menu_env d1 in
  ("open" ∈ classList (d1 1%nat)
   /\ "open" ∈ classList (d1 2%nat)
   /\ getProperty "overflow" (style (d1 (body menu_env))) = "hidden")
  /\ (("open" ∉ classList (d2 1%nat))
      /\ ("open" ∉ classList (d2 2%nat))
      /\ getProperty "overflow" (style (d2 (body menu_env))) = "")
  /\ (forall n, d2 n = menu_page n).
Proof.
  apply (hamburger_two_clicks 1%nat 2%nat menu_env menu_page).
  - discriminate.
  - decide_by_computation.
  - decide_by_computation.
  - vm_compute. reflexivity.
Defined.

End NavbarFacts.

(** ** Form submission *)

Module FormFacts.
Import Main Samples.

Lemma ok_200 : ok 200 = true.
Proof. reflexivity. Qed.

Lemma ok_500 : ok 500 = false.
Proof. reflexivity. Qed.

Lemma controls_showNotification (msg type : string) (p : Page) :
  controls (form (showNotification msg type p)) = controls (form p).
Proof. reflexivity. Qed.

(** C1.  With a submit control in the form, [handleFormSubmit] runs up to
    the request with the control disabled and labelled 'Sending...', the
    request carrying the form's target and method.  Once the request has
    settled, in whichever way, the control is enabled and carries the
    label it had at submission.  Exactly one toast has been added: a
    success toast exactly when the response status is ok, in which case
    the form is reset, and an error toast otherwise, in which case the
    controls keep their values. *)
Theorem form_submission_feedback (p : Page) (btn : SubmitButton)
  (r : settled) :
  submitBtn (form p) = Some btn ->
  exists (req : Request) (during : Page),
    handleFormSubmit_begin p = Awaiting (textContent btn) req during
    /\ url req = action (form p)
    /\ request_method req = method (form p)
    /\ submitBtn (form during)
       = Some {| disabled := true; textContent := "Sending..." |}
    /\ controls (form during) = controls (form p)
    /\ notifications during = notifications p
    /\ let after := handleFormSubmit_resume (textContent btn) r during in
       handleFormSubmit r p = after
       /\ submitBtn (form after)
          = Some {| disabled := false; textContent := textContent btn |}
       /\ exists toast : Notification,
           notifications after = notifications p ++ [toast]
           /\ (className toast = "notification notification--success"
               <-> succeeded r = true)
           /\ (className toast = "notification notification--error"
               <-> succeeded r = false)
           /\ controls (form after)
              = if succeeded r then controls (reset (form p))
                else controls (form p).
Proof.
  intros Hbtn. unfold handleFormSubmit, handleFormSubmit_begin.
  rewrite Hbtn. eexists. eexists.
  split; [reflexivity|]. cbn [url request_method].
  split; [reflexivity|]. split; [reflexivity|].
  split; [reflexivity|]. split; [reflexivity|].
  split; [reflexivity|]. split; [reflexivity|].
  unfold handleFormSubmit_resume.
  destruct r as [status|]; cbn [succeeded].
  - destruct (ok status) eqn:Eok.
    + split; [reflexivity|]. eexists. split; [reflexivity|].
      cbn [className]. split; [split; reflexivity|].
      split; [split; discriminate|]. reflexivity.
    + split; [reflexivity|]. eexists. split; [reflexivity|].
      cbn [className]. split; [split; discriminate|].
      split; [split; reflexivity|]. reflexivity.
  - split; [reflexivity|]. eexists. split; [reflexivity|].
    cbn [className]. split; [split; discriminate|].
    split; [split; reflexivity|]. reflexivity.
Qed.

(** The contact form against an endpoint answering 200, then against
    one answering 500. *)
Lemma form_submission_feedback_witness :
  (let after := handleFormSubmit (Response 200) contact_page in
   submitBtn (form after)
   = Some {| disabled := false; textContent := "Send" |}
   /\ map className (notifications after)
      = ["notification notification--success"]
   /\ map value (controls (form after)) = [""; ""])
  /\ (let after := handleFormSubmit (Response 500) contact_page in
      submitBtn (form after)
      = Some {| disabled := false; textContent := "Send" |}
      /\ map className (notifications after)
         = ["notification notification--error"]
      /\ map value (controls (form after)) = ["Ada"; "Hello"]).
Proof.
  split.
  - destruct (form_submission_feedback contact_page
                {| disabled := false; textContent := "Send" |}
                (Response 200) eq_refl)
      as (req & during & _ & _ & _ & _ & _ & _ & Hrun & Hbtn & toast
          & Hn & Hs & _ & Hc).
    cbn zeta. rewrite Hrun, Hbtn, Hn, Hc. simpl.
    rewrite (proj2 Hs eq_refl). repeat split; reflexivity.
  - destruct (form_submission_feedback contact_page
                {| disabled := false; textContent := "Send" |}
                (Response 500) eq_refl)
      as (req & during & _ & _ & _ & _ & _ & _ & Hrun & Hbtn & toast
          & Hn & _ & He & Hc).
    cbn zeta. rewrite Hrun, Hbtn, Hn, Hc. simpl.
    rewrite (proj2 He eq_refl). repeat split; reflexivity.
Defined.

End FormFacts.

(** ** Smooth scrolling *)

Module AnimationFacts.
Import JS DOM Scroll ScrollUtil Samples JSFacts StateFacts.

(** The progress of a frame is between 0 and 1. *)
Lemma progress_range (elapsed duration : Q) :
  (0 < duration)%Q -> (0 <= elapsed)%Q ->
  (0 <= Qmin (elapsed / duration) 1)%Q /\ (Qmin (elapsed / duration) 1 <= 1)%Q.
Proof.
  intros Hd He. split; [|apply Q.le_min_r].
  apply Q.min_glb; [|discriminate].
  apply Qle_shift_div_l; [exact Hd|]. rewrite Qmult_0_l. exact He.
Qed.

Lemma progress_lt_1 (elapsed duration : Q) :
  (0 < duration)%Q ->
  (Qmin (elapsed / duration) 1 < 1)%Q <-> (elapsed < duration)%Q.
Proof.
  intros Hd. rewrite Q.min_lt_iff. split.
  - intros [Hlt|Habs]; [|exfalso; exact (Qlt_irrefl _ Habs)].
    assert (E : (elapsed == elapsed / duration * duration)%Q).
    { rewrite Qmult_comm, Qmult_div_r; [reflexivity|].
      intros E0. rewrite E0 in Hd. exact (Qlt_irrefl _ Hd). }
    pose proof (Qmult_lt_compat_r _ _ duration Hd Hlt) as Hm.
    rewrite Qmult_1_l, <- E in Hm. exact Hm.
  - intros Hlt. left. apply Qlt_shift_div_r; [exact Hd|].
    rewrite Qmult_1_l. exact Hlt.
Qed.

Lemma progress_done (elapsed duration : Q) :
  (0 < duration)%Q -> (duration <= elapsed)%Q ->
  (Qmin (elapsed / duration) 1 == 1)%Q.
Proof.
  intros Hd Hle. apply Q.min_r.
  apply Qle_shift_div_l; [exact Hd|]. rewrite Qmult_1_l. exact Hle.
Qed.

(** X1.  One frame of the smooth-scroll animation, called at a time not
    before its first frame: the offset it scrolls to is the start position
    plus a fraction between 0 and 1 of the distance; it requests another
    frame exactly while less than the duration has elapsed, and once the
    duration has elapsed it scrolls to the start position plus the whole
    distance. *)
Theorem animation_frame (a : Animation) (t : Q) :
  (0 < duration a)%Q ->
  (match start a with Some t0 => t0 <= t | None => True end)%Q ->
  let t0 := match start a with Some t0 => t0 | None => t end in
  let r := animation a t in
  start r.1.1 = Some t0
  /\ (exists k, (0 <= k)%Q /\ (k <= 1)%Q
                /\ (r.1.2 == startPosition a + distance a * k)%Q)
  /\ (r.2 = true <-> (t - t0 < duration a)%Q)
  /\ ((duration a <= t - t0)%Q ->
      (r.1.2 == startPosition a + distance a)%Q).
Proof.
  intros Hd Ht t0 r.
  assert (He : (0 <= t - t0)%Q).
  { subst t0. destruct (start a); lra. }
  subst r. unfold animation. fold t0. cbn [fst snd start].
  set (p := Qmin ((t - t0) / duration a) 1).
  destruct (progress_range (t - t0) (duration a) Hd He) as [Hp0 Hp1].
  fold p in Hp0, Hp1.
  split; [reflexivity|]. split; [|split].
  - destruct (Qlt_bool p (5 # 10)) eqn:E.
    + apply Qlt_bool_iff in E. exists (2 * p * p)%Q.
      split; [nra|]. split; [nra|]. reflexivity.
    + apply Qlt_bool_false_iff in E. exists (-1 + (4 - 2 * p) * p)%Q.
      split; [nra|]. split; [nra|]. reflexivity.
  - rewrite Qlt_bool_iff. apply progress_lt_1. exact Hd.
  - intros Hdone.
    pose proof (progress_done (t - t0) (duration a) Hd Hdone) as E1.
    fold p in E1.
    destruct (Qlt_bool p (5 # 10)) eqn:E.
    + apply Qlt_bool_iff in E. rewrite E1 in E. discriminate E.
    + rewrite E1. ring.
Qed.

(** A scroll over 1000 pixels that started at time 0 is at its target,
    1200, at time 800. *)
Lemma animation_frame_witness :
  let a := {| startPosition := 200; distance := 1000; duration := 800;
              start := Some 0%Q |} in
  ((animation a 800).1.2 == 200 + 1000)%Q.
Proof.
  intros a.
  apply (proj2 (proj2 (proj2 (animation_frame a 800 eq_refl
                                ltac:(discriminate))))).
  discriminate.
Defined.

(** The first and the last frame of an animation. *)
Lemma animation_first (a : Animation) (t : Q) :
  start a = None -> (0 < duration a)%Q ->
  exists a' y,
    animation a t = (a', y, true)
    /\ a' = {| startPosition := startPosition a; distance := distance a;
               duration := duration a; start := Some t |}
    /\ (y == startPosition a)%Q.
Proof.
  intros Hs Hd. unfold animation. rewrite Hs.
  set (p := Qmin ((t - t) / duration a) 1).
  assert (E0 : (p == 0)%Q).
  { subst p. rewrite Q.min_l.
    - unfold Qdiv. setoid_replace (t - t)%Q with 0%Q using relation Qeq
        by ring. ring.
    - apply Qle_shift_div_r; [exact Hd|]. lra. }
  assert (Hagain : Qlt_bool p 1 = true).
  { apply Qlt_bool_iff. rewrite E0. reflexivity. }
  rewrite Hagain. eexists. eexists. split; [reflexivity|].
  split; [reflexivity|].
  destruct (Qlt_bool p (5 # 10)) eqn:E.
  - rewrite E0. ring.
  - apply Qlt_bool_false_iff in E. rewrite E0 in E. exfalso.
    apply E. reflexivity.
Qed.

Lemma animation_last (a : Animation) (t t0 : Q) :
  start a = Some t0 -> (0 < duration a)%Q -> (duration a <= t - t0)%Q ->
  exists a' y,
    animation a t = (a', y, false)
    /\ (y == startPosition a + distance a)%Q.
Proof.
  intros Hs Hd Hdone. unfold animation. rewrite Hs.
  set (p := Qmin ((t - t0) / duration a) 1).
  pose proof (progress_done (t - t0) (duration a) Hd Hdone) as E1.
  fold p in E1.
  assert (Hagain : Qlt_bool p 1 = false).
  { apply Qlt_bool_false_iff. rewrite E1. apply Qle_refl. }
  rewrite Hagain. eexists. eexists. split; [reflexivity|].
  destruct (Qlt_bool p (5 # 10)) eqn:E.
  - apply Qlt_bool_iff in E. rewrite E1 in E. discriminate E.
  - rewrite E1. ring.
Qed.

Lemma run_frames_single (a a' : Animation) (y t : Q) (again : bool)
  (w : World) :
  frames w = [a] -> animation a t = (a', y, again) ->
  run_frames t w
  = {| manager := manager w; elements := elements w; env := env w;
       frames := if again then [a'] else [];
       scrolled := scrolled w ++ [y] |}.
Proof.
  intros Hf Ha. unfold run_frames. rewrite Hf. cbn [fold_left].
  rewrite Ha. cbn [fst snd]. destruct again; reflexivity.
Qed.

Section WithBuiltins.
Context `{Builtins}.

(** Events other than animation frames leave the pending animations and
    the scroll requests alone. *)
Lemma dispatch_keeps_frames (ev : event) (w : World) :
  (forall t, ev <> EvAnimationFrame t) ->
  frames (final (dispatch ev w)) = frames w
  /\ scrolled (final (dispatch ev w)) = scrolled w.
Proof.
  intros Hev. destruct ev as [e|e|dy| | |t].
  - unfold dispatch. rewrite final_bind. split; reflexivity.
  - split; reflexivity.
  - split; reflexivity.
  - split; reflexivity.
  - simpl. destruct (touchTimeout (manager w)); split; reflexivity.
  - exfalso. apply (Hev t). reflexivity.
Qed.

Lemma run_keeps_frames (evs : list event) :
  Forall (λ ev, forall t, ev <> EvAnimationFrame t) evs ->
  forall w : World,
    frames (run evs w) = frames w /\ scrolled (run evs w) = scrolled w.
Proof.
  induction 1 as [|ev evs Hev _ IH]; intros w; [split; reflexivity|].
  unfold run. cbn [fold_left]. fold (run evs (final (dispatch ev w))).
  destruct (IH (final (dispatch ev w))) as [Hf Hs].
  destruct (dispatch_keeps_frames ev w Hev) as [Hf' Hs'].
  rewrite Hf, Hs. split; assumption.
Qed.

Lemma run_app (evs1 evs2 : list event) (w : World) :
  run (evs1 ++ evs2) w = run evs2 (run evs1 w).
Proof. unfold run. apply fold_left_app. Qed.

(** X2.  A smooth scroll to an element runs to its end whatever happens
    in between: after the first animation frame, any events other than
    animation frames (scrolling by hand included), and a frame at least
    the duration later, the last offset passed to [window.scrollTo] is the
    top offset of the element minus the offset argument, the first was
    the scroll position at the call, and no animation is pending. *)
Theorem smooth_scroll_completes (n : node) (offset t0 t1 : Q)
  (evs : list event) (w : World) :
  frames w = [] ->
  Forall (λ ev, forall t, ev <> EvAnimationFrame t) evs ->
  (t0 + smoothScrollDuration config <= t1)%Q ->
  let w' := run (EvAnimationFrame t0 :: evs ++ [EvAnimationFrame t1])
                (smoothScrollToElement (Some n) offset w) in
  frames w' = []
  /\ exists y0 y1,
      scrolled w' = scrolled w ++ [y0; y1]
      /\ (y0 == scrollY (window (env w)))%Q
      /\ (y1 == inject_Z (offsetTop (box (env w) n)) - offset)%Q.
Proof.
  intros Hf Hevs Ht w'.
  set (a0 := {| startPosition := scrollY (window (env w));
                distance := inject_Z (offsetTop (box (env w) n)) - offset
                            - scrollY (window (env w));
                duration := smoothScrollDuration config;
                start := None |}).
  assert (Hd : (0 < duration a0)%Q) by reflexivity.
  destruct (animation_first a0 t0 eq_refl Hd) as (a1 & y0 & Ha0 & Ea1 & Ey0).
  assert (Hs1 : start a1 = Some t0) by (rewrite Ea1; reflexivity).
  assert (Hd1 : (0 < duration a1)%Q) by (rewrite Ea1; reflexivity).
  assert (Hdone : (duration a1 <= t1 - t0)%Q).
  { rewrite Ea1. cbn [duration a0]. lra. }
  destruct (animation_last a1 t1 t0 Hs1 Hd1 Hdone) as (a2 & y1 & Ha1 & Ey1).
  set (w1 := smoothScrollToElement (Some n) offset w).
  assert (Hw1 : frames w1 = [a0]) by (subst w1; simpl; rewrite Hf; reflexivity).
  set (w2 := final (dispatch (EvAnimationFrame t0) w1)).
  assert (Hw2 : frames w2 = [a1] /\ scrolled w2 = scrolled w ++ [y0]).
  { subst w2. cbn [dispatch final].
    rewrite (run_frames_single a0 a1 y0 t0 true w1 Hw1 Ha0).
    split; reflexivity. }
  destruct (run_keeps_frames evs Hevs w2) as [Hf3 Hs3].
  set (w3 := run evs w2) in *.
  assert (Hw' : w' = final (dispatch (EvAnimationFrame t1) w3)).
  { subst w' w3 w2 w1. unfold run at 1. cbn [fold_left].
    fold (run (evs ++ [EvAnimationFrame t1])
              (final (dispatch (EvAnimationFrame t0)
                        (smoothScrollToElement (Some n) offset w)))).
    rewrite run_app. reflexivity. }
  assert (Hf3' : frames w3 = [a1]) by (rewrite Hf3; apply Hw2).
  rewrite Hw'. cbn [dispatch final].
  rewrite (run_frames_single a1 a2 y1 t1 false w3 Hf3' Ha1).
  cbn [frames scrolled]. split; [reflexivity|].
  exists y0, y1. split.
  - rewrite Hs3, (proj2 Hw2), <- app_assoc. reflexivity.
  - split; [rewrite Ey0; reflexivity|].
    rewrite Ey1, Ea1. cbn [startPosition distance a0]. ring.
Qed.

(** X3.  [scrollToBottom(true)] does what [scrollToTop(true)] does: both
    start a smooth scroll to the root element, which ends at the top
    offset of the root element, not at the height of the body; only
    [scrollToBottom(false)] scrolls to that height. *)
Theorem scrollToBottom_smooth_is_scrollToTop (documentElement : node)
  (bodyScrollHeight t0 t1 : Q) (w : World) :
  frames w = [] ->
  (t0 + smoothScrollDuration config <= t1)%Q ->
  let w' := run [EvAnimationFrame t0; EvAnimationFrame t1]
                (scrollToBottom documentElement bodyScrollHeight true w) in
  scrollToBottom documentElement bodyScrollHeight true w
  = scrollToTop documentElement true w
  /\ frames w' = []
  /\ (exists y0 y1,
        scrolled w' = scrolled w ++ [y0; y1]
        /\ (y1 == inject_Z (offsetTop (box (env w) documentElement)))%Q)
  /\ scrolled (scrollToBottom documentElement bodyScrollHeight false w)
     = scrolled w ++ [bodyScrollHeight].
Proof.
  intros Hf Ht w'. split; [reflexivity|].
  set (a0 := {| startPosition := scrollY (window (env w));
                distance := inject_Z (offsetTop (box (env w) documentElement))
                            - 0 - scrollY (window (env w));
                duration := smoothScrollDuration config;
                start := None |}).
  assert (Hd : (0 < duration a0)%Q) by reflexivity.
  destruct (animation_first a0 t0 eq_refl Hd) as (a1 & y0 & Ha0 & Ea1 & Ey0).
  assert (Hs1 : start a1 = Some t0) by (rewrite Ea1; reflexivity).
  assert (Hd1 : (0 < duration a1)%Q) by (rewrite Ea1; reflexivity).
  assert (Hdone : (duration a1 <= t1 - t0)%Q).
  { rewrite Ea1. cbn [duration a0]. lra. }
  destruct (animation_last a1 t1 t0 Hs1 Hd1 Hdone) as (a2 & y1 & Ha1 & Ey1).
  set (w1 := scrollToBottom documentElement bodyScrollHeight true w).
  assert (Hw1 : frames w1 = [a0]) by (subst w1; simpl; rewrite Hf; reflexivity).
  assert (Hw' : w' = run_frames t1 (run_frames t0 w1)) by reflexivity.
  rewrite Hw'.
  rewrite (run_frames_single a0 a1 y0 t0 true w1 Hw1 Ha0).
  erewrite (run_frames_single a1 a2 y1 t1 false); [|reflexivity|exact Ha1].
  cbn [frames scrolled]. split; [reflexivity|]. split; [|reflexivity].
  exists y0, y1. split.
  - subst w1. simpl. rewrite <- app_assoc. reflexivity.
  - rewrite Ey1, Ea1. cbn [startPosition distance a0]. ring.
Qed.
End WithBuiltins.

(** On the plain page, scrolled to 300: a smooth scroll to the footer
    (top offset 0 in the sample boxes) with offset 70, a scroll event in
    between, and a frame one second later. *)
Lemma smooth_scroll_completes_witness :
  let w := run (H := Host.builtins) [EvScroll (plain_env 300)]
             (loaded (H := Host.builtins) (plain_env 0) plain_page) in
  let w' := run (H := Host.builtins)
              (EvAnimationFrame 0 :: [EvScroll (plain_env 500)]
               ++ [EvAnimationFrame 1000])
              (smoothScrollToElement (Some 2%nat) 70 w) in
  frames w' = []
  /\ exists y0 y1,
      scrolled w' = scrolled w ++ [y0; y1]
      /\ (y0 == scrollY (window (env w)))%Q
      /\ (y1 == inject_Z (offsetTop (box (env w) 2%nat)) - 70)%Q.
Proof.
  intros w.
  apply (smooth_scroll_completes (H := Host.builtins) 2%nat 70 0 1000
           [EvScroll (plain_env 500)] w).
  - reflexivity.
  - constructor; [|constructor]. intros t. discriminate.
  - vm_compute. discriminate.
Defined.

Lemma scrollToBottom_smooth_is_scrollToTop_witness :
  let w := loaded (H := Host.builtins) (plain_env 0) plain_page in
  let w' := run (H := Host.builtins)
              [EvAnimationFrame 0; EvAnimationFrame 800]
              (scrollToBottom 1%nat 3000 true w) in
  scrollToBottom 1%nat 3000 true w = scrollToTop 1%nat true w
  /\ frames w' = []
  /\ (exists y0 y1,
        scrolled w' = scrolled w ++ [y0; y1]
        /\ (y1 == inject_Z (offsetTop (box (env w) 1%nat)))%Q)
  /\ scrolled (scrollToBottom 1%nat 3000 false w) = scrolled w ++ [3000%Q].
Proof.
  intros w.
  apply (scrollToBottom_smooth_is_scrollToTop (H := Host.builtins)
           1%nat 3000 0 800 w).
  - reflexivity.
  - vm_compute. discriminate.
Defined.

End AnimationFacts.

(** ** Boundary flags and the percentage on short pages *)

Module BoundaryFacts.
Import JS DOM Scroll Samples JSFacts StateFacts.

Section WithBuiltins.
Context `{Builtins}.

(** X4.  With the maximal offset as [updateScrollState] computes it for
    the window (document height minus viewport height), a scroll event
    sets [isAtTop] exactly when the offset is at most 0, and [isAtBottom]
    exactly when the offset has reached the document height minus twice
    the viewport height: the viewport height is subtracted a second time,
    so the flag is already set one viewport height above the last
    offset. *)
Theorem boundary_flags (e : Env) (m : ScrollManager) (d : store) :
  (maxScroll (state m)
   == scrollHeight (window e) - innerHeight (window e))%Q ->
  let s' := state (fst (final (handleScroll e m d))) in
  (isAtTop s' = true <-> (currentScroll (window e) <= 0)%Q)
  /\ (isAtBottom s' = true
      <-> (scrollHeight (window e) - 2 * innerHeight (window e)
           <= currentScroll (window e))%Q).
Proof.
  intros Hmax s'. subst s'. rewrite handleScroll_manager.
  cbn [state with_state isAtTop isAtBottom handleScroll_state]. split.
  - apply Qle_bool_iff.
  - rewrite Qle_bool_iff, Hmax. split; intros Hle; lra.
Qed.

(** X5.  When the maximal offset is 0 (a page no taller than the
    viewport, or a manager that has not been initialised), a scroll event
    does not produce a percentage: [scrollPercent] becomes NaN at offset
    0 and an infinity at any other offset. *)
Theorem scrollPercent_on_short_page (e : Env) (m : ScrollManager)
  (d : store) :
  (maxScroll (state m) == 0)%Q ->
  let s' := state (fst (final (handleScroll e m d))) in
  scrollPercent s'
  = (if Qeq_bool (currentScroll (window e)) 0 then NaN
     else if Qlt_bool 0 (currentScroll (window e)) then PosInfinity
          else NegInfinity)
  /\ is_finite (scrollPercent s') = false.
Proof.
  intros Hmax s'. subst s'. rewrite handleScroll_manager.
  cbn [state with_state scrollPercent handleScroll_state].
  unfold div. rewrite (proj2 (Qeq_bool_iff _ _) Hmax).
  destruct (Qeq_bool (currentScroll (window e)) 0);
    [split; reflexivity|].
  destruct (Qlt_bool 0 (currentScroll (window e))); split; reflexivity.
Qed.
End WithBuiltins.

(** On the plain page (3000 pixels high, viewport 800) the last offset is
    2200, and the flag is set from 1400 on. *)
Lemma boundary_flags_witness :
  let m := manager (loaded (H := Host.builtins) (plain_env 0) plain_page) in
  let s' := state (fst (final (handleScroll (H := Host.builtins)
                                 (plain_env 1400) m plain_page))) in
  (isAtTop s' = true <-> (currentScroll (window (plain_env 1400)) <= 0)%Q)
  /\ (isAtBottom s' = true
      <-> (scrollHeight (window (plain_env 1400))
           - 2 * innerHeight (window (plain_env 1400))
           <= currentScroll (window (plain_env 1400)))%Q).
Proof.
  apply (boundary_flags (H := Host.builtins)). reflexivity.
Defined.

(** A scroll event handled by the manager literal, whose maximal offset
    is still 0. *)
Lemma scrollPercent_on_short_page_witness :
  let m := {| state := initial_state; parallaxElements := [];
              revealElements := []; scrollSpyTargets := [];
              scrollSpyNavs := []; hideOnScrollElements := [];
              stickyElements := []; touchTimeout := false |} in
  let s' := state (fst (final (handleScroll (H := Host.builtins)
                                 (plain_env 300) m plain_page))) in
  scrollPercent s'
  = (if Qeq_bool (currentScroll (window (plain_env 300))) 0 then NaN
     else if Qlt_bool 0 (currentScroll (window (plain_env 300)))
          then PosInfinity else NegInfinity)
  /\ is_finite (scrollPercent s') = false.
Proof.
  apply (scrollPercent_on_short_page (H := Host.builtins)). reflexivity.
Defined.

End BoundaryFacts.

(** ** More on the scroll effects *)

Module EffectOrderFacts.
Import JS DOM Scroll Samples MoreSamples JSFacts DOMFacts StateFacts.
Import EffectFacts RevealFacts.

Lemma andThen_normal {A : Type} (c : completion A)
  (k : A -> completion A) :
  is_normal c = true -> andThen c k = k (final c).
Proof. destruct c; [reflexivity | discriminate]. Qed.

Lemma forEach_normal {A : Type} (f : node -> A -> completion A)
  (l : list node) :
  (forall k a, is_normal (f k a) = true) ->
  forall a, is_normal (forEach f l a) = true.
Proof.
  intros Hf. induction l as [|k l IH]; intros a; [reflexivity|].
  cbn [forEach]. rewrite andThen_normal by apply Hf. apply IH.
Qed.

Lemma forEach_app {A : Type} (f : node -> A -> completion A)
  (l1 l2 : list node) (a : A) :
  forEach f (l1 ++ l2) a = andThen (forEach f l1 a) (forEach f l2).
Proof.
  revert a. induction l1 as [|k l1 IH]; intros a; [reflexivity|].
  cbn [forEach app]. destruct (f k a) as [a'|a']; cbn [andThen bind].
  - apply IH.
  - reflexivity.
Qed.

(** A property that the callback establishes on its own element holds for
    every listed element after an iteration that does not throw. *)
Lemma forEach_establishes (P : Element -> Prop)
  (f : node -> store -> completion store) (l : list node) (n : node) :
  local f ->
  (forall k d, is_normal (f k d) = true) ->
  (forall d, P (final (f n d) n)) ->
  n ∈ l ->
  forall d, P (final (forEach f l d) n).
Proof.
  intros Hloc Hnorm Hest. induction l as [|k l IH]; intros Hin d;
    [inversion Hin|].
  cbn [forEach]. rewrite andThen_normal by apply Hnorm.
  destruct (decide (n ∈ l)) as [Hl|Hl]; [apply IH; exact Hl|].
  apply elem_of_cons in Hin as [->|Hin]; [|contradiction].
  rewrite forEach_frame by assumption. apply Hest.
Qed.

Lemma forEach_pure_establishes (P : Element -> Prop)
  (f : node -> store -> store) (l : list node) (n : node) :
  (forall k d, P (d n) -> P (f k d n)) ->
  (forall d, P (f n d n)) ->
  n ∈ l ->
  forall d, P (forEach_pure f l d n).
Proof.
  intros Hkeep Hest. induction l as [|k l IH]; intros Hin d;
    [inversion Hin|].
  unfold forEach_pure. cbn [fold_left]. fold (forEach_pure f l (f k d)).
  destruct (decide (n ∈ l)) as [Hl|Hl]; [apply IH; exact Hl|].
  apply elem_of_cons in Hin as [->|Hin]; [|contradiction].
  apply (forEach_pure_keeps P); [exact Hkeep | apply Hest].
Qed.

Section WithBuiltins.
Context `{Builtins}.

Lemma updateParallax_normal (e : Env) (m : ScrollManager) (d : store) :
  is_normal (updateParallax e m d) = true.
Proof. apply forEach_normal. reflexivity. Qed.

Lemma updateScrollReveal_normal (e : Env) (m : ScrollManager) (d : store) :
  is_normal (updateScrollReveal e m d) = true.
Proof.
  apply forEach_normal. intros k a. unfold updateScrollReveal_each.
  destruct (isVisible _ _); reflexivity.
Qed.

Lemma updateScrollSpy_normal (e : Env) (m : ScrollManager) (d : store) :
  is_normal (updateScrollSpy e m d) = true.
Proof.
  unfold updateScrollSpy. destruct (truthy_target _); [|reflexivity].
  apply forEach_normal. reflexivity.
Qed.

Lemma updateHideOnScroll_normal (m : ScrollManager) (d : store) :
  is_normal (updateHideOnScroll m d) = true.
Proof. apply forEach_normal. reflexivity. Qed.

(** The sticky update writes four style properties and no other. *)
Lemma updateStickyElements_keeps_style (p : string) (e : Env)
  (m : ScrollManager) (d : store) (n : node) :
  p ≠ "position" -> p ≠ "top" -> p ≠ "width" -> p ≠ "zIndex" ->
  getProperty p (style (final (updateStickyElements e m d) n))
  = getProperty p (style (d n)).
Proof.
  intros H1 H2 H3 H4.
  apply (forEach_at (λ el, getProperty p (style el)
                           = getProperty p (style (d n))));
    [apply updateStickyElements_each_local | | reflexivity].
  intros _ d0 Hd0. unfold updateStickyElements_each.
  destruct (sticky_past (state m) (d0 n)).
  - destruct (parentElement (box e n)); cbn [final];
      rewrite !fn_lookup_alter; unfold stick_end, stick_begin;
      cbn [style with_classList];
      rewrite !getProperty_set_style_ne by assumption; exact Hd0.
  - cbn [final]. rewrite fn_lookup_alter. unfold unstick.
    cbn [style with_classList].
    rewrite !getProperty_set_style_ne by assumption. exact Hd0.
Qed.

(** X6.  At the end of every scroll event each hide-on-scroll element is
    hidden or shown according to the state of that event, whatever other
    effects it is also subject to (parallax and reveal write the same
    properties earlier in the event): it is hidden exactly when the
    direction is 'down' and the position is beyond 100. *)
Theorem hide_on_scroll_decides_last (e : Env) (m : ScrollManager)
  (d : store) (n : node) :
  n ∈ hideOnScrollElements m ->
  let r := final (handleScroll e m d) in
  let hide := shouldHide (state r.1) in
  (hide = true <-> direction (state r.1) = "down"
                   /\ (100 < scrollPosition (state r.1))%Q)
  /\ getProperty "opacity" (style (r.2 n)) = (if hide then "0" else "1")
  /\ getProperty "pointerEvents" (style (r.2 n))
     = (if hide then "none" else "auto")
  /\ getProperty "transform" (style (r.2 n))
     = (if hide then "translateY(-100%)" else "translateY(0)").
Proof.
  intros Hn r hide. subst r hide.
  rewrite handleScroll_manager, handleScroll_elements.
  set (m' := with_state (handleScroll_state (window e)) m).
  split.
  { unfold shouldHide. rewrite andb_true_iff, String.eqb_eq, Qlt_bool_iff.
    reflexivity. }
  unfold triggerScrollEffects.
  rewrite andThen_normal by apply updateParallax_normal.
  rewrite andThen_normal by apply updateScrollReveal_normal.
  rewrite andThen_normal by apply updateScrollSpy_normal.
  rewrite andThen_normal by apply updateHideOnScroll_normal.
  set (d3 := final (updateScrollSpy e m' _)).
  rewrite !updateStickyElements_keeps_style by discriminate.
  unfold updateHideOnScroll.
  apply (forEach_establishes
           (λ el, getProperty "opacity" (style el)
                  = (if shouldHide (state m') then "0" else "1")
                  /\ getProperty "pointerEvents" (style el)
                     = (if shouldHide (state m') then "none" else "auto")
                  /\ getProperty "transform" (style el)
                     = (if shouldHide (state m') then "translateY(-100%)"
                        else "translateY(0)"))).
  - apply (alter_local (λ _ _, hide_or_show (shouldHide (state m')))).
  - reflexivity.
  - intros d0. cbn [final]. rewrite fn_lookup_alter.
    destruct (shouldHide (state m')); unfold hide_or_show;
      repeat split;
      rewrite ?getProperty_set_style_ne by discriminate;
      apply getProperty_set_style.
  - exact Hn.
Qed.

(** X7.  When several sections contain the probe point, the last of them
    in document order decides: with that section's id non-empty, the
    active links afterwards are exactly the links to it, whichever
    earlier sections contain the probe point too. *)
Theorem scroll_spy_last_match_wins (e : Env) (m : ScrollManager) (d : store)
  (l1 l2 : list node) (t : node) :
  scrollSpyTargets m = l1 ++ t :: l2 ->
  probe_inside (box e t) = true ->
  (forall t', t' ∈ l2 -> probe_inside (box e t') = false) ->
  id (d t) ≠ "" ->
  NoDup (scrollSpyNavs m) ->
  forall n, n ∈ scrollSpyNavs m ->
    ("active" ∈ classList (final (updateScrollSpy e m d) n)
     <-> href (d n) = Some ("#" +:+ id (d t))).
Proof.
  intros Hl Hprobe Hafter Hid Hnd n Hn.
  assert (Hfind : find_activeTarget e d (scrollSpyTargets m)
                  = Some (id (d t))).
  { unfold find_activeTarget. rewrite Hl, fold_left_app.
    cbn [fold_left]. rewrite Hprobe.
    rewrite (SpyFacts.find_activeTarget_from e d t l2).
    - destruct (existsb _ l2); reflexivity.
    - intros t' Ht' Hin. rewrite (Hafter t' Ht') in Hin. discriminate. }
  unfold updateScrollSpy. rewrite Hfind. cbn [truthy_target].
  destruct (String.eqb (id (d t)) "") eqn:E;
    [apply String.eqb_eq in E; contradiction|].
  destruct (forEach_alter (λ _, spy_mark (id (d t))) _ Hnd d) as [_ Hfin].
  rewrite Hfin, (bool_decide_eq_true_2 _ Hn).
  apply SpyFacts.active_spy_mark.
Qed.

(** X8.  A sticky element whose [data-offset] does not convert to a
    number, or whose captured top offset does not parse, is never made
    fixed: at every scroll position the update gives it relative
    positioning with top 0 and removes 'sticky-active'. *)
Theorem sticky_needs_numbers (e : Env) (m : ScrollManager) (d : store)
  (n : node) :
  NoDup (stickyElements m) ->
  n ∈ stickyElements m ->
  (forall k, k ∈ stickyElements m -> is_Some (parentElement (box e k))) ->
  ToNumber (sticky_offsetTop (d n)) = NaN \/ sticky_originalTop (d n) = NaN ->
  let d' := final (updateStickyElements e m d) in
  getProperty "position" (style (d' n)) = "relative"
  /\ getProperty "top" (style (d' n)) = "0"
  /\ "sticky-active" ∉ classList (d' n).
Proof.
  intros Hnd Hn Hparent Hnan d'.
  destruct (forEach_elementwise
              (updateStickyElements_each e (state m))
              (sticky_step e (state m)) (stickyElements m)
              (λ k d0 Hk, StickyFacts.updateStickyElements_each_step
                            e (state m) k d0 (Hparent k Hk))
              Hnd d) as [_ Hfin].
  assert (Hpast : sticky_past (state m) (d n) = false).
  { unfold sticky_past. destruct Hnan as [E|E]; rewrite E.
    - destruct (sticky_originalTop (d n)); reflexivity.
    - reflexivity. }
  subst d'. unfold updateStickyElements.
  rewrite Hfin, (bool_decide_eq_true_2 _ Hn).
  unfold sticky_step. rewrite Hpast. unfold unstick.
  cbn [classList style with_classList]. split; [|split].
  - rewrite getProperty_set_style_ne by discriminate.
    apply getProperty_set_style.
  - apply getProperty_set_style.
  - rewrite elem_of_remove. intros [Hne _]. apply Hne. reflexivity.
Qed.

(** X9.  A sticky element without a parent element that has passed its
    threshold makes the update throw: the element has been given fixed
    positioning but neither a width nor the class 'sticky-active', and
    the sticky elements after it in the list are left as they were. *)
Theorem sticky_without_parent_throws (e : Env) (m : ScrollManager)
  (d : store) (l1 l2 : list node) (n : node) :
  stickyElements m = l1 ++ n :: l2 ->
  NoDup (stickyElements m) ->
  (forall k, k ∈ l1 -> is_Some (parentElement (box e k))) ->
  parentElement (box e n) = None ->
  sticky_past (state m) (d n) = true ->
  let d' := final (updateStickyElements e m d) in
  is_normal (updateStickyElements e m d) = false
  /\ getProperty "position" (style (d' n)) = "fixed"
  /\ getProperty "width" (style (d' n)) = getProperty "width" (style (d n))
  /\ classList (d' n) = classList (d n)
  /\ (forall k, k ∈ l2 -> d' k = d k).
Proof.
  intros Hl Hnd Hparent Hnone Hpast d'. subst d'.
  unfold updateStickyElements. rewrite Hl in *.
  apply NoDup_app in Hnd as (Hnd1 & Hdisj & Hnd2).
  apply NoDup_cons in Hnd2 as [Hn2 Hnd2].
  rewrite forEach_app.
  destruct (forEach_elementwise
              (updateStickyElements_each e (state m))
              (sticky_step e (state m)) l1
              (λ k d0 Hk, StickyFacts.updateStickyElements_each_step
                            e (state m) k d0 (Hparent k Hk))
              Hnd1 d) as [Hnorm Hfin].
  destruct (forEach (updateStickyElements_each e (state m)) l1 d)
    as [d1|d1]; [|discriminate]. cbn [final] in Hfin.
  cbn [andThen bind forEach].
  assert (Hn1 : n ∉ l1).
  { intros Hin. apply (Hdisj n Hin). left. }
  assert (Hd1n : d1 n = d n).
  { rewrite Hfin, (bool_decide_eq_false_2 _ Hn1). reflexivity. }
  assert (Hthrow : updateStickyElements_each e (state m) n d1
                   = Throw (alter stick_begin n d1)).
  { unfold updateStickyElements_each. rewrite Hd1n, Hpast, Hnone.
    reflexivity. }
  rewrite Hthrow. cbn [andThen bind is_normal final].
  split; [reflexivity|].
  rewrite !fn_lookup_alter, Hd1n. unfold stick_begin.
  split; [|split; [|split]].
  - rewrite getProperty_set_style_ne by discriminate.
    apply getProperty_set_style.
  - rewrite !getProperty_set_style_ne by discriminate. reflexivity.
  - reflexivity.
  - intros k Hk.
    assert (Hkn : n ≠ k) by (intros ->; contradiction).
    rewrite fn_lookup_alter_ne by exact Hkn.
    rewrite Hfin, bool_decide_eq_false_2; [reflexivity|].
    intros Hin. apply (Hdisj k Hin). right. exact Hk.
Qed.

(** X10.  [updateScrollReveal] reveals exactly the elements of its list
    that are visible, and leaves every other element as it was; an
    element is visible when its top is above 85% of the viewport height
    and its bottom below the top edge of the viewport, both strictly. *)
Theorem reveal_exactly_the_visible (e : Env) (m : ScrollManager)
  (d : store) :
  NoDup (revealElements m) ->
  is_normal (updateScrollReveal e m d) = true
  /\ (forall n, final (updateScrollReveal e m d) n
                = if bool_decide (n ∈ revealElements m)
                     && isVisible (window e) (box e n)
                  then reveal (d n) else d n)
  /\ (forall n, isVisible (window e) (box e n) = true
                <-> (top (box e n) < (85 # 100) * innerHeight (window e))%Q
                    /\ (0 < bottom (box e n))%Q).
Proof.
  intros Hnd.
  destruct (forEach_elementwise
              (updateScrollReveal_each e)
              (λ k el, if isVisible (window e) (box e k)
                       then reveal el else el)
              (revealElements m)) with (d := d) as [Hnorm Hfin].
  { intros k d0 _. unfold updateScrollReveal_each.
    destruct (isVisible (window e) (box e k)); (split; [reflexivity|]);
      intros j; cbn [final]; destruct (decide (j = k)) as [->|Hne];
      rewrite ?bool_decide_eq_true_2 by reflexivity;
      rewrite ?(bool_decide_eq_false_2 _ Hne);
      rewrite ?fn_lookup_alter;
      rewrite ?fn_lookup_alter_ne by congruence; reflexivity. }
  { exact Hnd. }
  split; [exact Hnorm|]. split.
  - intros n. unfold updateScrollReveal. rewrite Hfin.
    destruct (bool_decide (n ∈ revealElements m)); reflexivity.
  - intros n. unfold isVisible.
    rewrite andb_true_iff, !Qlt_bool_iff. cbn [revealThreshold config].
    split; intros [Ht Hb]; (split; [lra | exact Hb]).
Qed.

(** Initialisation before the sticky elements writes styles only. *)
Lemma init_styles_keep (P : Element -> Prop) (d : store)
  (n : node) (l1 l2 : list node) :
  (forall f el, P el -> P (with_style f el)) ->
  P (d n) ->
  P (forEach_pure initScrollReveal_each l2
       (forEach_pure initParallax_each l1 d) n).
Proof.
  intros HP Hd.
  apply (forEach_pure_keeps P).
  { intros k d0 Hd0. unfold initScrollReveal_each.
    destruct (decide (k = n)) as [->|Hne].
    - rewrite fn_lookup_alter. unfold set_style. repeat apply HP. exact Hd0.
    - rewrite fn_lookup_alter_ne by exact Hne. exact Hd0. }
  apply (forEach_pure_keeps P); [|exact Hd].
  intros k d0 Hd0. unfold initParallax_each.
  destruct (decide (k = n)) as [->|Hne].
  - rewrite fn_lookup_alter. unfold set_style. apply HP. exact Hd0.
  - rewrite fn_lookup_alter_ne by exact Hne. exact Hd0.
Qed.

Lemma dispatch_other_elements (ev : event) (w : World) :
  (forall e, ev <> EvScroll e) ->
  elements (final (dispatch ev w)) = elements w.
Proof.
  intros Hev. destruct ev as [e|e|dy| | |t].
  - exfalso. apply (Hev e). reflexivity.
  - reflexivity.
  - reflexivity.
  - reflexivity.
  - simpl. destruct (touchTimeout (manager w)); reflexivity.
  - unfold dispatch, run_frames. cbn [final].
    destruct (fold_left _ _ _). reflexivity.
Qed.

Lemma run_other_elements (evs : list event) :
  Forall (λ ev, forall e, ev <> EvScroll e) evs ->
  forall w : World, elements (run evs w) = elements w.
Proof.
  induction 1 as [|ev evs Hev _ IH]; intros w; [reflexivity|].
  unfold run. cbn [fold_left]. fold (run evs (final (dispatch ev w))).
  rewrite IH. apply dispatch_other_elements. exact Hev.
Qed.

(** X11.  Initialisation hides every element marked [data-reveal]
    (opacity 0, shifted down by 30 pixels) without looking at its
    position, and only a scroll event can reveal it: after any events
    other than scroll events the element is still hidden, with its class
    list as authored, even if it was in view when the page loaded. *)
Theorem reveal_waits_for_a_scroll (e0 : Env) (d0 : store) (n : node)
  (evs : list event) :
  n ∈ document e0 ->
  is_Some (dataset (d0 n) !! "reveal") ->
  Forall (λ ev, forall e, ev <> EvScroll e) evs ->
  let el := elements (run evs (loaded e0 d0)) n in
  getProperty "opacity" (style el) = "0"
  /\ getProperty "transform" (style el) = "translateY(30px)"
  /\ classList el = classList (d0 n).
Proof.
  intros Hdoc Hmark Hevs el. subst el.
  rewrite (run_other_elements evs Hevs).
  unfold loaded, init. cbn [elements snd].
  set (ps := querySelectorAll_data "parallax" e0 d0).
  set (d1 := forEach_pure initParallax_each ps d0).
  set (rs := querySelectorAll_data "reveal" e0 d1).
  set (d2 := forEach_pure initScrollReveal_each rs d1).
  set (ss := querySelectorAll_data "sticky" e0 d2).
  assert (Hds : dataset (d1 n) = dataset (d0 n)).
  { subst d1. apply (forEach_pure_keeps (λ el, dataset el = dataset (d0 n)));
      [|reflexivity].
    intros k d Hd. unfold initParallax_each.
    destruct (decide (k = n)) as [->|Hne].
    - rewrite fn_lookup_alter. exact Hd.
    - rewrite fn_lookup_alter_ne by exact Hne. exact Hd. }
  assert (Hrs : n ∈ rs).
  { subst rs. unfold querySelectorAll_data. apply list_elem_of_filter.
    split; [|exact Hdoc]. unfold has_data. rewrite Hds.
    apply bool_decide_eq_true_2. exact Hmark. }
  assert (Hstyle : getProperty "opacity" (style (d2 n)) = "0"
                   /\ getProperty "transform" (style (d2 n))
                      = "translateY(30px)").
  { subst d2.
    apply (forEach_pure_establishes
             (λ el, getProperty "opacity" (style el) = "0"
                    /\ getProperty "transform" (style el)
                       = "translateY(30px)")); [| |exact Hrs].
    - intros k d Hd. unfold initScrollReveal_each.
      destruct (decide (k = n)) as [->|Hne].
      + rewrite fn_lookup_alter. split;
          rewrite ?getProperty_set_style_ne by discriminate;
          apply getProperty_set_style.
      + rewrite fn_lookup_alter_ne by exact Hne. exact Hd.
    - intros d. unfold initScrollReveal_each. rewrite fn_lookup_alter.
      split; rewrite ?getProperty_set_style_ne by discriminate;
        apply getProperty_set_style. }
  assert (Hclass : classList (d2 n) = classList (d0 n)).
  { subst d2 d1.
    apply (init_styles_keep (λ el, classList el = classList (d0 n)));
      first [reflexivity | intros f el Hel; exact Hel]. }
  apply (forEach_pure_keeps
           (λ el, getProperty "opacity" (style el) = "0"
                  /\ getProperty "transform" (style el) = "translateY(30px)"
                  /\ classList el = classList (d0 n))).
  - intros k d Hd. unfold initStickyElements_each.
    destruct (decide (k = n)) as [->|Hne].
    + rewrite fn_lookup_alter. exact Hd.
    + rewrite fn_lookup_alter_ne by exact Hne. exact Hd.
  - destruct Hstyle as [Ho Ht]. repeat split; assumption.
Qed.

(** X12.  The NodeLists of the manager are computed once: after any
    events they are still, for each attribute, the elements of the
    document that carried the attribute when the page was loaded, in
    document order. *)
Theorem node_lists_are_static (e0 : Env) (d0 : store) (evs : list event) :
  lists (manager (run evs (loaded e0 d0)))
  = map (λ key, filter (λ n, is_Some (dataset (d0 n) !! key)) (document e0))
        attributes.
Proof.
  rewrite run_lists. unfold loaded, init, lists, attributes.
  cbn [manager fst parallaxElements revealElements scrollSpyTargets
       scrollSpyNavs hideOnScrollElements stickyElements map].
  set (ps := querySelectorAll_data "parallax" e0 d0).
  set (d1 := forEach_pure initParallax_each ps d0).
  set (rs := querySelectorAll_data "reveal" e0 d1).
  set (d2 := forEach_pure initScrollReveal_each rs d1).
  assert (Hq : forall key d,
             (forall n, dataset (d n) = dataset (d0 n)) ->
             querySelectorAll_data key e0 d
             = filter (λ n, is_Some (dataset (d0 n) !! key)) (document e0)).
  { intros key d Hd. unfold querySelectorAll_data. apply filter_agree.
    intros n _. unfold has_data. rewrite Hd, bool_decide_eq_true.
    reflexivity. }
  assert (H1 : forall n, dataset (d1 n) = dataset (d0 n)).
  { intros n. subst d1.
    apply (forEach_pure_keeps (λ el, dataset el = dataset (d0 n)));
      [|reflexivity].
    intros k d Hd. unfold initParallax_each.
    destruct (decide (k = n)) as [->|Hne].
    - rewrite fn_lookup_alter. exact Hd.
    - rewrite fn_lookup_alter_ne by exact Hne. exact Hd. }
  assert (H2 : forall n, dataset (d2 n) = dataset (d0 n)).
  { intros n. subst d2 d1.
    apply (init_styles_keep (λ el, dataset el = dataset (d0 n)));
      first [reflexivity | intros f el Hel; exact Hel]. }
  subst ps rs.
  rewrite (Hq "parallax" d0) by reflexivity.
  rewrite (Hq "reveal" d1 H1).
  rewrite !(Hq _ d2 H2).
  reflexivity.
Qed.
End WithBuiltins.

(** The navigation bar of the sample page is revealed and hidden on
    scroll; scrolled down to 200 it ends the event hidden. *)
Lemma hide_on_scroll_decides_last_witness :
  let w0 := loaded (H := Host.builtins) (navbar_env 0) navbar_page in
  let r := final (handleScroll (H := Host.builtins) (navbar_env 200)
                    (manager w0) (elements w0)) in
  let hide := shouldHide (state r.1) in
  (hide = true <-> direction (state r.1) = "down"
                   /\ (100 < scrollPosition (state r.1))%Q)
  /\ getProperty "opacity" (style (r.2 1%nat)) = (if hide then "0" else "1")
  /\ getProperty "pointerEvents" (style (r.2 1%nat))
     = (if hide then "none" else "auto")
  /\ getProperty "transform" (style (r.2 1%nat))
     = (if hide then "translateY(-100%)" else "translateY(0)").
Proof.
  apply (hide_on_scroll_decides_last (H := Host.builtins)).
  decide_by_computation.
Defined.

(** With both sections over the probe point, the links to "work", the
    later section, are the active ones. *)
Lemma scroll_spy_last_match_wins_witness :
  let m := fst (init (H := Host.builtins) spy_env_overlap spy_page) in
  "active" ∈ classList (final (updateScrollSpy spy_env_overlap m spy_page)
                          4%nat)
  <-> href (spy_page 4%nat) = Some ("#" +:+ id (spy_page 2%nat)).
Proof.
  intros m.
  apply (scroll_spy_last_match_wins spy_env_overlap m spy_page
           [1%nat] [] 2%nat).
  - vm_compute. reflexivity.
  - reflexivity.
  - intros t' Ht'. inversion Ht'.
  - discriminate.
  - decide_by_computation.
  - decide_by_computation.
Defined.

(** With [data-offset="70px"] the sidebar stays in the flow even at
    scroll position 2000. *)
Lemma sticky_needs_numbers_witness :
  let w0 := loaded (H := Host.builtins) (sticky_env 0) sticky_page_px in
  let e := sticky_env 2000 in
  let m := with_state (handleScroll_state (window e)) (manager w0) in
  let d' := final (updateStickyElements (H := Host.builtins) e m
                     (elements w0)) in
  getProperty "position" (style (d' 2%nat)) = "relative"
  /\ getProperty "top" (style (d' 2%nat)) = "0"
  /\ "sticky-active" ∉ classList (d' 2%nat).
Proof.
  intros w0 e m.
  assert (Es : stickyElements m = [2%nat]) by (vm_compute; reflexivity).
  apply (sticky_needs_numbers (H := Host.builtins) e m (elements w0) 2%nat).
  - rewrite Es. apply NoDup_singleton.
  - rewrite Es. left.
  - intros k Hk. rewrite Es in Hk.
    apply list_elem_of_singleton in Hk as ->. eexists. reflexivity.
  - left. vm_compute. reflexivity.
Defined.

Lemma sticky_without_parent_throws_witness :
  let w0 := loaded (H := Host.builtins) (sticky_env_orphan 0) sticky_page in
  let e := sticky_env_orphan 600 in
  let m := with_state (handleScroll_state (window e)) (manager w0) in
  let d := elements w0 in
  let d' := final (updateStickyElements (H := Host.builtins) e m d) in
  is_normal (updateStickyElements (H := Host.builtins) e m d) = false
  /\ getProperty "position" (style (d' 2%nat)) = "fixed"
  /\ getProperty "width" (style (d' 2%nat))
     = getProperty "width" (style (d 2%nat))
  /\ classList (d' 2%nat) = classList (d 2%nat)
  /\ (forall k, k ∈ [] -> d' k = d k).
Proof.
  intros w0 e m d.
  apply (sticky_without_parent_throws (H := Host.builtins) e m d [] []
           2%nat).
  - vm_compute. reflexivity.
  - decide_by_computation.
  - intros k Hk. inversion Hk.
  - reflexivity.
  - vm_compute. reflexivity.
Defined.

(** The card at scroll position 600, where it is in view. *)
Lemma reveal_exactly_the_visible_witness :
  let w0 := loaded (H := Host.builtins) (card_env 0) card_page in
  let e := card_env 600 in
  final (updateScrollReveal e (manager w0) (elements w0)) 1%nat
  = (if bool_decide (1%nat ∈ revealElements (manager w0))
        && isVisible (window e) (box e 1%nat)
     then reveal (elements w0 1%nat) else elements w0 1%nat).
Proof.
  intros w0 e.
  apply (proj1 (proj2 (reveal_exactly_the_visible e (manager w0)
                         (elements w0) ltac:(decide_by_computation)))).
Defined.

(** The navigation bar is in view when the page loads and stays hidden
    through a resize and a wheel event. *)
Lemma reveal_waits_for_a_scroll_witness :
  let el := elements (run (H := Host.builtins)
                        [EvResize (navbar_env 0); EvWheel 3]
                        (loaded (H := Host.builtins) (navbar_env 0)
                           navbar_page)) 1%nat in
  isVisible (window (navbar_env 0)) (box (navbar_env 0) 1%nat) = true
  /\ getProperty "opacity" (style el) = "0"
  /\ getProperty "transform" (style el) = "translateY(30px)"
  /\ classList el = classList (navbar_page 1%nat).
Proof.
  split; [vm_compute; reflexivity|].
  apply (reveal_waits_for_a_scroll (H := Host.builtins)).
  - left.
  - eexists. vm_compute. reflexivity.
  - repeat constructor; intros e; discriminate.
Defined.
End EffectOrderFacts.

(** ** More on the form and the hamburger menu *)

Module InterleavingFacts.
Import DOM Samples DOMFacts NavbarFacts.

(** X13.  When [handleFormSubmit] is entered a second time before the
    first request has settled, the second call captures 'Sending...' as
    the label to restore.  After both requests have settled the control is
    enabled and carries the label captured by the call that finished
    last: 'Sending...' if that is the second call, the original label if
    it is the first.  Two toasts have been added either way. *)
Theorem overlapping_submissions (p : Main.Page) (btn : Main.SubmitButton)
  (r1 r2 : Main.settled) :
  Main.submitBtn (Main.form p) = Some btn ->
  exists q1 p1 q2 p2,
    Main.handleFormSubmit_begin p
    = Main.Awaiting (Main.textContent btn) q1 p1
    /\ Main.handleFormSubmit_begin p1 = Main.Awaiting "Sending..." q2 p2
    /\ (let after :=
          Main.handleFormSubmit_resume "Sending..." r2
            (Main.handleFormSubmit_resume (Main.textContent btn) r1 p2) in
        Main.submitBtn (Main.form after)
        = Some {| Main.disabled := false;
                  Main.textContent := "Sending..." |}
        /\ length (Main.notifications after)
           = (length (Main.notifications p) + 2)%nat)
    /\ (let after :=
          Main.handleFormSubmit_resume (Main.textContent btn) r1
            (Main.handleFormSubmit_resume "Sending..." r2 p2) in
        Main.submitBtn (Main.form after)
        = Some {| Main.disabled := false;
                  Main.textContent := Main.textContent btn |}
        /\ length (Main.notifications after)
           = (length (Main.notifications p) + 2)%nat).
Proof.
  intros Hbtn. unfold Main.handleFormSubmit_begin. rewrite Hbtn.
  eexists. eexists. eexists. eexists.
  split; [reflexivity|]. split; [reflexivity|].
  split; unfold Main.handleFormSubmit_resume;
    destruct r1 as [s1|], r2 as [s2|]; cbn [Main.succeeded];
    try destruct (Main.ok s1); try destruct (Main.ok s2);
    (split; [reflexivity|]);
    cbn; rewrite !length_app; cbn; lia.
Qed.

Lemma overlapping_submissions_witness :
  exists q1 p1 q2 p2,
    Main.handleFormSubmit_begin contact_page = Main.Awaiting "Send" q1 p1
    /\ Main.handleFormSubmit_begin p1 = Main.Awaiting "Sending..." q2 p2
    /\ (let after :=
          Main.handleFormSubmit_resume "Sending..." (Main.Response 200)
            (Main.handleFormSubmit_resume "Send" (Main.Response 200) p2) in
        Main.submitBtn (Main.form after)
        = Some {| Main.disabled := false;
                  Main.textContent := "Sending..." |}
        /\ length (Main.notifications after)
           = (length (Main.notifications contact_page) + 2)%nat)
    /\ (let after :=
          Main.handleFormSubmit_resume "Send" (Main.Response 200)
            (Main.handleFormSubmit_resume "Sending..." (Main.Response 200)
               p2) in
        Main.submitBtn (Main.form after)
        = Some {| Main.disabled := false; Main.textContent := "Send" |}
        /\ length (Main.notifications after)
           = (length (Main.notifications contact_page) + 2)%nat).
Proof.
  apply (overlapping_submissions contact_page
           {| Main.disabled := false; Main.textContent := "Send" |}
           (Main.Response 200) (Main.Response 200)).
  reflexivity.
Defined.

(** A click depends on the store only through its elements. *)
Lemma click_ext (burger menu : node) (e : Env) (d d' : store) :
  burger ≠ menu ->
  (forall n, d n = d' n) ->
  forall n, Navbar.click burger menu e d n = Navbar.click burger menu e d' n.
Proof.
  intros Hne Hd n. rewrite !click_at by exact Hne.
  rewrite (Hd n), (Hd menu). reflexivity.
Qed.

(** Two clicks on a closed menu give back every element. *)
Lemma click_click (burger menu : node) (e : Env) (d : store) :
  burger ≠ menu ->
  "open" ∉ classList (d burger) ->
  "open" ∉ classList (d menu) ->
  style (d (body e)) !! "overflow" = None ->
  forall n, Navbar.click burger menu e (Navbar.click burger menu e d) n = d n.
Proof.
  intros Hne Hb Hm Hov n.
  assert (Hopen : contains "open" (toggle "open" (classList (d menu)))
                  = true).
  { apply contains_true. rewrite toggle_absent by exact Hm.
    apply elem_of_add. left. reflexivity. }
  assert (Hm1 : classList (Navbar.click burger menu e d menu)
                = add "open" (classList (d menu))).
  { rewrite click_menu by exact Hne. apply toggle_absent. exact Hm. }
  assert (Hclosed : contains "open"
                      (toggle "open"
                         (classList (Navbar.click burger menu e d menu)))
                    = false).
  { apply contains_false. rewrite Hm1.
    rewrite toggle_present by (apply elem_of_add; left; reflexivity).
    rewrite elem_of_remove. intros [Hne' _]. apply Hne'. reflexivity. }
  rewrite click_at by exact Hne. rewrite Hclosed.
  rewrite click_at by exact Hne. rewrite Hopen.
  destruct (d n) as [i h cl st ds] eqn:En.
  assert (Hcl : n = burger \/ n = menu -> "open" ∉ cl).
  { intros [->| ->]; [rewrite En in Hb | rewrite En in Hm]; assumption. }
  assert (Hst : n = body e -> st !! "overflow" = None).
  { intros ->. rewrite En in Hov. exact Hov. }
  destruct (decide (n = body e)) as [Hy|Hy];
    [rewrite !(bool_decide_eq_true_2 _ Hy)
    | rewrite !(bool_decide_eq_false_2 _ Hy)];
    (destruct (decide (n = menu)) as [Hw|Hw];
     [rewrite !(bool_decide_eq_true_2 _ Hw)
     | rewrite !(bool_decide_eq_false_2 _ Hw)]);
    (destruct (decide (n = burger)) as [Hz|Hz];
     [rewrite !(bool_decide_eq_true_2 _ Hz)
     | rewrite !(bool_decide_eq_false_2 _ Hz)]);
    try (exfalso; congruence);
    unfold set_style, with_style, with_classList;
    cbn [id href classList style dataset]; f_equal;
    try (apply toggle_twice; apply Hcl; tauto);
    try (apply setProperty_unset; apply Hst; exact Hy).
Qed.

(** X14.  Starting from a closed menu, the page after any number of
    clicks on the burger depends on the parity of that number only: after
    an even number every element is what it was at the start, after an
    odd number every element is what it was after the first click, so the
    menu is open exactly after an odd number of clicks. *)
Theorem hamburger_click_parity (burger menu : node) (e : Env) (d : store)
  (k : nat) :
  burger ≠ menu ->
  "open" ∉ classList (d burger) ->
  "open" ∉ classList (d menu) ->
  style (d (body e)) !! "overflow" = None ->
  let dk := Nat.iter k (Navbar.click burger menu e) d in
  (forall n, dk n = if Nat.even k then d n
                    else Navbar.click burger menu e d n)
  /\ ("open" ∈ classList (dk menu) <-> Nat.even k = false).
Proof.
  intros Hne Hb Hm Hov dk.
  assert (Hall : forall n, dk n = if Nat.even k then d n
                                  else Navbar.click burger menu e d n).
  { subst dk. induction k as [|k IH]; intros n; [reflexivity|].
    cbn [Nat.iter]. rewrite Nat.even_succ, <- Nat.negb_even.
    destruct (Nat.even k); cbn [negb].
    - apply click_ext; assumption.
    - rewrite <- (click_click burger menu e d Hne Hb Hm Hov n).
      apply click_ext; assumption. }
  split; [exact Hall|]. rewrite Hall.
  destruct (Nat.even k).
  - split; [intros Hin; contradiction | discriminate].
  - split; [reflexivity|]. intros _.
    rewrite click_menu by exact Hne. rewrite toggle_absent by exact Hm.
    apply elem_of_add. left. reflexivity.
Qed.

Lemma hamburger_click_parity_witness :
  let dk := Nat.iter 5 (Navbar.click 1%nat 2%nat menu_env) menu_page in
  (forall n, dk n = if Nat.even 5 then menu_page n
                    else Navbar.click 1%nat 2%nat menu_env menu_page n)
  /\ ("open" ∈ classList (dk 2%nat) <-> Nat.even 5 = false).
Proof.
  apply (hamburger_click_parity 1%nat 2%nat menu_env menu_page 5).
  - discriminate.
  - decide_by_computation.
  - decide_by_computation.
  - vm_compute. reflexivity.
Defined.

Lemma head_filter_None {A : Type} (P : A -> Prop)
  `{!forall x, Decision (P x)} (l : list A) :
  head (filter P l) = None <-> forall x, x ∈ l -> ~ P x.
Proof.
  induction l as [|a l IH].
  - split; [intros _ x Hx; inversion Hx | reflexivity].
  - rewrite filter_cons. destruct (decide (P a)) as [Ha|Ha].
    + split; [discriminate|]. intros Hall. exfalso.
      apply (Hall a); [left | exact Ha].
    + rewrite IH. split.
      * intros Hall x Hx. apply elem_of_cons in Hx as [->|Hx];
          [exact Ha | apply Hall; exact Hx].
      * intros Hall x Hx. apply Hall. right. exact Hx.
Qed.

(** X15.  The DOMContentLoaded listener of navbar.js installs no click
    listener exactly when the document has no element of class
    'hamburger' or no element of class 'nav-menu'. *)
Theorem no_listener_without_burger_or_menu (e : Env) (d : store) :
  Navbar.onDOMContentLoaded e d = None
  <-> (forall n, n ∈ document e -> "hamburger" ∉ classList (d n))
      \/ (forall n, n ∈ document e -> "nav-menu" ∉ classList (d n)).
Proof.
  unfold Navbar.onDOMContentLoaded, querySelector_class.
  assert (Hc : forall c,
             head (filter (λ n, contains c (classList (d n)) = true)
                     (document e)) = None
             <-> forall n, n ∈ document e -> c ∉ classList (d n)).
  { intros c. rewrite head_filter_None. split; intros Hall n Hn.
    - intros Hin. apply (Hall n Hn). apply contains_true. exact Hin.
    - intros Hin. apply (Hall n Hn). apply contains_true. exact Hin. }
  rewrite <- !Hc.
  destruct (head (filter _ (document e))) as [b|];
    destruct (head (filter _ (document e))) as [m|];
    split; try discriminate; try tauto; intros [Hx|Hx]; discriminate.
Qed.

End InterleavingFacts.

(** ** The page script *)

Module PageScriptFacts.
Import JS DOM Samples MoreSamples DOMFacts NavbarFacts PageScript.

(** X16.  [closeHamburger] removes the class 'active' from the burger
    and the menu and nothing else: every other class of every element,
    the class 'open' of navbar.js included, and every inline style, the
    overflow of the body included, are as before.  The Escape key, a
    resize to desktop width and a click on a navigation link therefore
    neither close the menu opened by navbar.js nor release its scroll
    lock. *)
Theorem closeHamburger_removes_active_only (c : Cache) (d : store)
  (h m : node) :
  hamburger c = Some h ->
  navMenu c = Some m ->
  let d' := final (closeHamburger c d) in
  is_normal (closeHamburger c d) = true
  /\ ("active" ∉ classList (d' h))
  /\ ("active" ∉ classList (d' m))
  /\ (forall n t, t ≠ "active" ->
        (t ∈ classList (d' n) <-> t ∈ classList (d n)))
  /\ (forall n, style (d' n) = style (d n)).
Proof.
  intros Hh Hm d'. subst d'. unfold closeHamburger. rewrite Hh, Hm.
  cbn [is_normal final]. split; [reflexivity|].
  assert (Hcl : forall n,
             classList (alter (with_classList (remove "active")) m
                          (alter (with_classList (remove "active")) h d) n)
             = (if bool_decide (n = m) then remove "active" else λ l, l)
                 ((if bool_decide (n = h) then remove "active" else λ l, l)
                    (classList (d n)))).
  { intros n. rewrite !alter_apply.
    destruct (bool_decide (n = m)), (bool_decide (n = h)); reflexivity. }
  split; [|split; [|split]].
  - rewrite Hcl, (bool_decide_eq_true_2 (h = h)) by reflexivity.
    destruct (bool_decide (h = m)); cbv beta; intros Hin;
      apply elem_of_remove in Hin as [Hne _]; apply Hne; reflexivity.
  - rewrite Hcl, (bool_decide_eq_true_2 (m = m)) by reflexivity.
    rewrite elem_of_remove. intros [Hne _]. apply Hne. reflexivity.
  - intros n t Ht. rewrite Hcl.
    destruct (bool_decide (n = m)), (bool_decide (n = h));
      rewrite ?elem_of_remove; tauto.
  - intros n. rewrite !alter_apply.
    destruct (bool_decide (n = m)), (bool_decide (n = h)); reflexivity.
Qed.

(** The menu of the sample page, open in the sense of both scripts:
    after [closeHamburger] it is still open for navbar.js and the page
    still cannot scroll. *)
Lemma closeHamburger_removes_active_only_witness :
  let d' := final (closeHamburger menu_cache open_menu_page) in
  ("active" ∉ classList (d' 2%nat))
  /\ "open" ∈ classList (d' 2%nat)
  /\ getProperty "overflow" (style (d' 0%nat)) = "hidden".
Proof.
  intros d'.
  destruct (closeHamburger_removes_active_only menu_cache open_menu_page
              1%nat 2%nat eq_refl eq_refl) as (_ & _ & Hm & Hcl & Hst).
  split; [exact Hm|]. split.
  - apply (Hcl 2%nat "open"); [discriminate|]. decide_by_computation.
  - subst d'. rewrite (Hst 0%nat). vm_compute. reflexivity.
Defined.

(** X17.  A keydown whose target is a text field, or whose key is none
    of '/', 'Escape', 'Home' and 'End', does nothing at all: no element
    changes, the default action is not prevented, nothing is scrolled or
    logged, and nothing can throw. *)
Theorem shortcut_ignored (ev : KeyEvent) (c : Cache) (e : Env) (d : store) :
  target_is_field ev = true
  \/ (key ev ≠ "/" /\ key ev ≠ "Escape" /\ key ev ≠ "Home"
      /\ key ev ≠ "End") ->
  handleKeyboardShortcut ev c e d = Normal (d, no_reaction).
Proof.
  intros [Hfield|(H1 & H2 & H3 & H4)]; unfold handleKeyboardShortcut.
  - rewrite Hfield. reflexivity.
  - destruct (target_is_field ev); [reflexivity|].
    rewrite (proj2 (String.eqb_neq _ _) H1), (proj2 (String.eqb_neq _ _) H2),
      (proj2 (String.eqb_neq _ _) H3), (proj2 (String.eqb_neq _ _) H4).
    reflexivity.
Qed.

Lemma shortcut_ignored_witness :
  handleKeyboardShortcut {| key := "Escape"; target_is_field := true |}
    menu_cache menu_env open_menu_page
  = Normal (open_menu_page, no_reaction).
Proof.
  apply shortcut_ignored. left. reflexivity.
Defined.

(** X18.  Outside a text field, Escape on a page without a burger throws:
    the keyboard listener is installed whether or not the burger exists,
    and [closeHamburger] does not check its references.  'Home' and 'End'
    prevent the default action even when the hero or the footer is
    missing, and then scroll nowhere. *)
Theorem shortcut_on_missing_elements (ev : KeyEvent) (c : Cache) (e : Env)
  (d : store) :
  target_is_field ev = false ->
  (key ev = "Escape" -> hamburger c = None ->
   handleKeyboardShortcut ev c e d = Throw (d, no_reaction))
  /\ (key ev = "Home" -> hero c = None ->
      handleKeyboardShortcut ev c e d
      = Normal (d, {| defaultPrevented := true; scrollRequest := None;
                      logged := [] |}))
  /\ (key ev = "End" -> footer c = None ->
      handleKeyboardShortcut ev c e d
      = Normal (d, {| defaultPrevented := true; scrollRequest := None;
                      logged := [] |})).
Proof.
  intros Hfield. unfold handleKeyboardShortcut. rewrite Hfield.
  split; [|split]; intros Hkey Hnone; rewrite Hkey; cbn [String.eqb];
    cbn; unfold closeHamburger; rewrite ?Hnone; reflexivity.
Qed.

Lemma shortcut_on_missing_elements_witness :
  handleKeyboardShortcut {| key := "Escape"; target_is_field := false |}
    empty_cache menu_env menu_page
  = Throw (menu_page, no_reaction).
Proof.
  apply (proj1 (shortcut_on_missing_elements
                  {| key := "Escape"; target_is_field := false |}
                  empty_cache menu_env menu_page eq_refl));
    reflexivity.
Defined.

(** *** Timers *)

Section TimerFacts.
Context {A S : Type}.
Variable func : A -> S -> S.



Lemma debounce_calls (l : list A) (a : A) (p : option A) (s : S) :
  debounce_run func (map Call (l ++ [a])) (p, s) = (Some a, s).
Proof.
  unfold debounce_run. revert p. induction l as [|x l IH]; intros p.
  - reflexivity.
  - cbn [app map fold_left debounce_step snd]. apply IH.
Qed.

(** X20.  A debounced function does not run while calls keep coming; when
    the timer fires it runs once, with the arguments of the last call,
    and a timer firing after that finds nothing to run. *)
Theorem debounce_delivers_last_call_only (l : list A) (a : A)
  (p : option A) (s : S) :
  debounce_run func (map Call (l ++ [a])) (p, s) = (Some a, s)
  /\ debounce_run func (map Call (l ++ [a]) ++ [TimerFired]) (p, s)
     = (None, func a s)
  /\ debounce_run func (map Call (l ++ [a]) ++ [TimerFired; TimerFired])
       (p, s)
     = (None, func a s).
Proof.
  pose proof (debounce_calls l a p s) as Hc.
  split; [exact Hc|].
  unfold debounce_run in *. rewrite !fold_left_app, Hc.
  split; reflexivity.
Qed.
End TimerFacts.


(** *** Theme *)

(** X21.  [applyTheme] stores 'dark' for the theme 'dark' and 'light' for
    any other string, and sets the attribute of the body to the same
    value.  What it stored is what the next page load applies:
    [initDarkMode] on a fresh document gives the body that value again,
    whatever the system preference, and leaves the storage as it is. *)
Theorem theme_survives_reload (theme : string) (prefersDark : bool)
  (e : Env) (st : gmap string string * store) (fresh : store) :
  let scheme := if String.eqb theme "dark" then "dark" else "light" in
  let saved := (applyTheme theme e st).1 in
  let reloaded := initDarkMode prefersDark e (saved, fresh) in
  saved !! "theme" = Some scheme
  /\ dataset ((applyTheme theme e st).2 (body e)) !! "colorScheme"
     = Some scheme
  /\ reloaded.1 = saved
  /\ dataset (reloaded.2 (body e)) !! "colorScheme" = Some scheme.
Proof.
  intros scheme saved reloaded.
  assert (Hsaved : saved !! "theme" = Some scheme).
  { subst saved. unfold applyTheme. cbn [fst]. apply lookup_insert_eq. }
  split; [exact Hsaved|]. split.
  { unfold applyTheme. cbn [snd]. rewrite fn_lookup_alter.
    cbn [dataset with_dataset]. apply lookup_insert_eq. }
  subst reloaded. unfold initDarkMode. cbn [fst]. rewrite Hsaved.
  assert (Hne : String.eqb scheme "" = false).
  { subst scheme. destruct (String.eqb theme "dark"); reflexivity. }
  assert (Hsame : (if String.eqb scheme "dark" then "dark" else "light")
                  = scheme).
  { subst scheme. destruct (String.eqb theme "dark"); reflexivity. }
  rewrite Hne. unfold applyTheme at 1 2. cbn [fst snd]. rewrite Hsame.
  split.
  - subst saved. unfold applyTheme. cbn [fst]. apply insert_insert_eq.
  - rewrite fn_lookup_alter. cbn [dataset with_dataset].
    apply lookup_insert_eq.
Qed.

(** *** Scroll lock *)

Lemma lookup_setProperty (p v k : string) (s : gmap string string) :
  setProperty p v s !! k
  = if decide (p = k) then (if String.eqb v "" then None else Some v)
    else s !! k.
Proof.
  unfold setProperty. destruct (String.eqb v "").
  - rewrite lookup_delete. reflexivity.
  - rewrite lookup_insert. reflexivity.
Qed.

Section LockFacts.
Context `{Builtins}.

(** X22.  [ScrollLock.lock] sets the overflow of the body to 'hidden';
    when the body had neither an inline overflow nor an inline right
    padding, [ScrollLock.unlock] after it gives back every element as it
    was. *)
Theorem scroll_lock_round_trip (width : Z) (e : Env) (d : store) :
  style (d (body e)) !! "overflow" = None ->
  style (d (body e)) !! "paddingRight" = None ->
  getProperty "overflow" (style (ScrollUtil.lock width e d (body e)))
  = "hidden"
  /\ forall n, ScrollUtil.unlock e (ScrollUtil.lock width e d) n = d n.
Proof.
  intros Hov Hpr. split.
  - unfold ScrollUtil.lock. rewrite fn_lookup_alter.
    rewrite RevealFacts.getProperty_set_style_ne by discriminate.
    apply RevealFacts.getProperty_set_style.
  - intros n. unfold ScrollUtil.unlock, ScrollUtil.lock.
    destruct (decide (n = body e)) as [->|Hne].
    + rewrite !fn_lookup_alter.
      destruct (d (body e)) as [i h cl st ds] eqn:Eb.
      cbn [style] in Hov, Hpr.
      unfold set_style, with_style. cbn [id href classList style dataset].
      f_equal. apply map_eq. intros k.
      rewrite !lookup_setProperty. cbn [String.eqb].
      destruct (decide ("paddingRight" = k)) as [<-|H1];
        [symmetry; exact Hpr|].
      destruct (decide ("overflow" = k)) as [<-|H2];
        [symmetry; exact Hov | reflexivity].
    + rewrite !fn_lookup_alter_ne by congruence. reflexivity.
Qed.

(** X23.  Opening and closing the hamburger menu of navbar.js while a
    [ScrollLock] is held releases the lock: the overflow of the body is
    unset after the second click although [unlock] was not called, while
    the right padding set by [lock] stays. *)
Theorem menu_close_releases_scroll_lock (width : Z) (burger menu : node)
  (e : Env) (d : store) :
  burger ≠ menu ->
  "open" ∉ classList (d menu) ->
  let locked := ScrollUtil.lock width e d in
  let after := Navbar.click burger menu e (Navbar.click burger menu e locked) in
  getProperty "overflow" (style (locked (body e))) = "hidden"
  /\ getProperty "overflow" (style (after (body e))) = ""
  /\ getProperty "paddingRight" (style (after (body e)))
     = getProperty "paddingRight" (style (locked (body e)))
  /\ getProperty "paddingRight" (style (locked (body e)))
     = NumberToString (Num (inject_Z width)) +:+ "px".
Proof.
  intros Hne Hm locked after.
  assert (Hlm : classList (locked menu) = classList (d menu)).
  { subst locked. unfold ScrollUtil.lock. rewrite alter_apply.
    destruct (bool_decide (menu = body e)); reflexivity. }
  assert (Hm1 : "open" ∈ classList (Navbar.click burger menu e locked menu)).
  { rewrite click_menu by exact Hne. rewrite Hlm.
    rewrite toggle_absent by exact Hm. apply elem_of_add. left.
    reflexivity. }
  assert (Hclosed : contains "open"
                      (toggle "open"
                         (classList (Navbar.click burger menu e locked menu)))
                    = false).
  { apply contains_false. rewrite toggle_present by exact Hm1.
    rewrite elem_of_remove. intros [Hne' _]. apply Hne'. reflexivity. }
  assert (Hpad : forall d0,
             getProperty "paddingRight"
               (style (Navbar.click burger menu e d0 (body e)))
             = getProperty "paddingRight" (style (d0 (body e)))).
  { intros d0. rewrite click_at by exact Hne.
    rewrite (bool_decide_eq_true_2 (body e = body e)) by reflexivity.
    rewrite RevealFacts.getProperty_set_style_ne by discriminate.
    destruct (bool_decide (body e = menu)),
      (bool_decide (body e = burger)); reflexivity. }
  split; [|split; [|split]].
  - subst locked. unfold ScrollUtil.lock. rewrite fn_lookup_alter.
    rewrite RevealFacts.getProperty_set_style_ne by discriminate.
    apply RevealFacts.getProperty_set_style.
  - subst after. rewrite click_at by exact Hne. rewrite Hclosed.
    rewrite (bool_decide_eq_true_2 (body e = body e)) by reflexivity.
    apply RevealFacts.getProperty_set_style.
  - subst after. rewrite !Hpad. reflexivity.
  - subst locked. unfold ScrollUtil.lock. rewrite fn_lookup_alter.
    apply RevealFacts.getProperty_set_style.
Qed.
End LockFacts.

Lemma scroll_lock_round_trip_witness :
  getProperty "overflow"
    (style (ScrollUtil.lock (H := Host.builtins) 15 menu_env menu_page
              (body menu_env)))
  = "hidden"
  /\ forall n, ScrollUtil.unlock menu_env
                 (ScrollUtil.lock (H := Host.builtins) 15 menu_env menu_page)
                 n
               = menu_page n.
Proof.
  apply (scroll_lock_round_trip (H := Host.builtins) 15 menu_env menu_page);
    vm_compute; reflexivity.
Defined.

Lemma menu_close_releases_scroll_lock_witness :
  let locked := ScrollUtil.lock (H := Host.builtins) 15 menu_env menu_page in
  let after := Navbar.click 1%nat 2%nat menu_env
                 (Navbar.click 1%nat 2%nat menu_env locked) in
  getProperty "overflow" (style (locked (body menu_env))) = "hidden"
  /\ getProperty "overflow" (style (after (body menu_env))) = ""
  /\ getProperty "paddingRight" (style (after (body menu_env)))
     = getProperty "paddingRight" (style (locked (body menu_env)))
  /\ getProperty "paddingRight" (style (locked (body menu_env)))
     = NumberToString (Builtins := Host.builtins) (Num (inject_Z 15))
       +:+ "px".
Proof.
  apply (menu_close_releases_scroll_lock (H := Host.builtins) 15 1%nat 2%nat
           menu_env menu_page).
  - discriminate.
  - decide_by_computation.
Defined.

End PageScriptFacts.

(** ** Momentum scrolling *)

Module MomentumFacts.
Import JS ScrollUtil JSFacts.

Lemma momentum_animate_friction (ms : MomentumScroll) :
  friction (momentum_animate ms).1 = friction ms.
Proof.
  unfold momentum_animate. destruct (Qlt_bool _ _); reflexivity.
Qed.

Lemma momentum_frames_step (n : nat) (ms : MomentumScroll) :
  (momentum_frames (S n) ms).1
  = (momentum_frames n (momentum_animate ms).1).1.
Proof.
  cbn [momentum_frames]. destruct (momentum_animate ms) as [ms1 by1].
  cbn [fst]. destruct (momentum_frames n ms1) as [ms2 rest]. reflexivity.
Qed.

(** At or below 0.5 nothing moves any more. *)
Lemma momentum_at_rest (n : nat) (ms : MomentumScroll) :
  (Qabs (velocity ms) <= 5 # 10)%Q ->
  momentum_frames n ms = (ms, []).
Proof.
  intros Hv. induction n as [|n IH]; [reflexivity|].
  cbn [momentum_frames]. unfold momentum_animate.
  rewrite (proj2 (Qlt_bool_false_iff _ _) Hv). rewrite IH. reflexivity.
Qed.

(** Each frame that scrolls multiplies the speed by 0.95, so a speed of
    at most (19 + k) / 38 is at most 0.5 after k frames. *)
Lemma momentum_decay (k : nat) :
  forall ms : MomentumScroll,
    (friction ms == 95 # 100)%Q ->
    (Qabs (velocity ms) * 38 <= 19 + inject_Z (Z.of_nat k))%Q ->
    (Qabs (velocity (momentum_frames k ms).1) <= 5 # 10)%Q.
Proof.
  induction k as [|k IH]; intros ms Hf Hv.
  - cbn [momentum_frames fst]. change (inject_Z (Z.of_nat 0)) with 0%Q in Hv.
    lra.
  - rewrite momentum_frames_step.
    assert (Hk : (inject_Z (Z.of_nat (S k))
                  == inject_Z (Z.of_nat k) + 1)%Q).
    { rewrite Nat2Z.inj_succ. unfold Z.succ. rewrite inject_Z_plus.
      reflexivity. }
    assert (Hk0 : (0 <= inject_Z (Z.of_nat k))%Q).
    { change 0%Q with (inject_Z 0). rewrite <- Zle_Qle. lia. }
    rewrite Hk in Hv.
    apply IH; [rewrite momentum_animate_friction; exact Hf|].
    unfold momentum_animate.
    destruct (Qlt_bool (5 # 10) (Qabs (velocity ms))) eqn:E;
      cbn [fst velocity].
    + rewrite Qabs_Qmult, Hf.
      change (Qabs (95 # 100)) with (95 # 100).
      pose proof (Qabs_nonneg (velocity ms)) as H0. lra.
    + apply Qlt_bool_false_iff in E. lra.
Qed.

(** X24.  After a wheel event, momentum scrolling comes to rest: there is
    a number of frames after which, as long as no further wheel event
    arrives, no frame scrolls any more.  (The speed is then at most 0.5;
    it is never set to 0.) *)
Theorem momentum_comes_to_rest (deltaY : Q) (ms : MomentumScroll) :
  (friction ms == 95 # 100)%Q ->
  exists N : nat,
    let rest := (momentum_frames N (momentum_handleWheel deltaY ms)).1 in
    (Qabs (velocity rest) <= 5 # 10)%Q
    /\ forall n, momentum_frames n rest = (rest, []).
Proof.
  intros Hf.
  set (N := Z.to_nat (Qceiling (Qabs deltaY * 38))).
  exists N. intros rest.
  assert (Hrest : (Qabs (velocity rest) <= 5 # 10)%Q).
  { subst rest. apply momentum_decay; [exact Hf|].
    cbn [velocity momentum_handleWheel].
    assert (HN : (Qabs deltaY * 38 <= inject_Z (Z.of_nat N))%Q).
    { apply Qle_trans with (inject_Z (Qceiling (Qabs deltaY * 38)));
        [apply Qle_ceiling|].
      rewrite <- Zle_Qle. subst N. lia. }
    lra. }
  split; [exact Hrest|]. intros n. apply momentum_at_rest. exact Hrest.
Qed.

(** A wheel event of 100 on a new object. *)
Lemma momentum_comes_to_rest_witness :
  exists N : nat,
    let rest := (momentum_frames N (momentum_handleWheel 100 momentum_new)).1 in
    (Qabs (velocity rest) <= 5 # 10)%Q
    /\ forall n, momentum_frames n rest = (rest, []).
Proof.
  apply (momentum_comes_to_rest 100 momentum_new). reflexivity.
Defined.

End MomentumFacts.

(** ** The active navigation item *)

Module NavLinkFacts.
Import JS DOM Samples MoreSamples DOMFacts NavbarFacts PageScript.
Import ScrollUtil.

Lemma forEach_pure_frame (f : node -> store -> store) (l : list node)
  (n : node) :
  (forall k d, k ≠ n -> f k d n = d n) ->
  n ∉ l ->
  forall d, forEach_pure f l d n = d n.
Proof.
  intros Hf. unfold forEach_pure. induction l as [|k l IH]; intros Hn d;
    [reflexivity|].
  cbn [fold_left]. rewrite IH.
  - apply Hf. intros ->. apply Hn. left.
  - intros Hin. apply Hn. right. exact Hin.
Qed.

(** [removeClassFromAll] leaves the elements outside the class alone. *)
Lemma removeClassFromAll_other (c className : string) (e : Env) (d : store)
  (p : node) :
  c ∉ classList (d p) -> removeClassFromAll c className e d p = d p.
Proof.
  intros Hc. unfold removeClassFromAll. apply forEach_pure_frame.
  - intros k d0 Hk. apply fn_lookup_alter_ne. exact Hk.
  - intros Hin. apply list_elem_of_filter in Hin as [Hin _].
    apply contains_true in Hin. contradiction.
Qed.

Lemma forEach_section_invariant (P : store -> Prop)
  (f : option node * string -> store -> completion store)
  (l : list (option node * string)) :
  (forall x d, P d -> P (final (f x d))) ->
  forall d, P d -> P (final (forEach_section f l d)).
Proof.
  intros Hf. induction l as [|x l IH]; intros d Hd; [exact Hd|].
  cbn [forEach_section]. apply final_andThen; [apply Hf; exact Hd|].
  intros d' Hd'. apply IH. exact Hd'.
Qed.

(** X25.  [updateActiveNavLink] clears 'active' from the elements of
    class 'nav-link' but adds it to the parent of the matching link: on
    an element that is not itself of class 'nav-link', such as the list
    item around a link, 'active' once set is never removed by any later
    call, however the page is scrolled. *)
Theorem active_item_stays_active (tagName : node -> string) (c : Cache)
  (e : Env) (d : store) (p : node) :
  "nav-link" ∉ classList (d p) ->
  "active" ∈ classList (d p) ->
  let d' := final (updateActiveNavLink tagName c e d) in
  "active" ∈ classList (d' p) /\ ("nav-link" ∉ classList (d' p)).
Proof.
  intros Hlink Hactive d'. subst d'. unfold updateActiveNavLink.
  apply (forEach_section_invariant
           (λ d, "active" ∈ classList (d p) /\ "nav-link" ∉ classList (d p)));
    [|split; assumption].
  clear d Hlink Hactive. intros [s i] d [Hactive Hlink].
  unfold updateActiveNavLink_each. cbn [fst snd].
  destruct s as [s|]; [|split; assumption].
  destruct (_ && _); [|split; assumption].
  assert (Hrm : removeClassFromAll "nav-link" "active" e d p = d p)
    by (apply removeClassFromAll_other; exact Hlink).
  destruct (querySelector_a_href _ _ _ _) as [a|];
    [|cbn [final]; rewrite Hrm; split; assumption].
  destruct (parentElement (box e a)) as [q|];
    [|cbn [final]; rewrite Hrm; split; assumption].
  cbn [final]. rewrite alter_apply, Hrm.
  destruct (bool_decide (p = q)); [|split; assumption].
  cbn [classList with_classList]. rewrite !elem_of_add. split.
  - right. exact Hactive.
  - intros [Habs|Hin]; [discriminate | contradiction].
Qed.

(** On the sample page the item of "home" is active once the hero has
    been at mid-viewport; with the features section at mid-viewport the
    item of "features" is active and the item of "home" still is. *)
Lemma active_item_stays_active_witness :
  let d1 := final (updateActiveNavLink nav_tags nav_cache (nav_env 0)
                     nav_page) in
  let d2 := final (updateActiveNavLink nav_tags nav_cache (nav_env 800)
                     d1) in
  ("active" ∈ classList (d2 5%nat) /\ ("nav-link" ∉ classList (d2 5%nat)))
  /\ classList (d2 6%nat) = ["nav-item"; "active"].
Proof.
  intros d1 d2. split; [|vm_compute; reflexivity].
  apply (active_item_stays_active nav_tags nav_cache (nav_env 800) d1 5%nat);
    decide_by_computation.
Defined.

(** X26.  Whatever [updateScrollReveal] counts as visible is in the
    viewport in the sense of [isElementInViewport], for a viewport of
    non-negative height: the reveal test is the stricter of the two. *)
Theorem visible_implies_in_viewport (w : Window) (b : Box) :
  (0 <= innerHeight w)%Q ->
  Scroll.isVisible w b = true ->
  isElementInViewport w b = true.
Proof.
  intros Hh. unfold Scroll.isVisible, isElementInViewport.
  rewrite !andb_true_iff, !JSFacts.Qlt_bool_iff, !Qle_bool_iff.
  cbn [Scroll.revealThreshold Scroll.config].
  intros [Ht Hb]. split; lra.
Qed.

Lemma visible_implies_in_viewport_witness :
  isElementInViewport (window (card_env 600)) (box (card_env 600) 1%nat)
  = true.
Proof.
  apply visible_implies_in_viewport.
  - vm_compute. discriminate.
  - vm_compute. reflexivity.
Defined.

End NavLinkFacts.

(** ** Parallax and the touch flag *)

Module ParallaxFacts.
Import JS DOM Scroll Samples MoreSamples JSFacts DOMFacts StateFacts.
Import EffectFacts.

Section WithBuiltins.
Context `{Builtins}.

(** X27.  [updateParallax] translates each parallax element by the
    window's scroll offset times its factor.  The factor is the parsed
    [data-parallax] unless that is absent, not a number or zero, in which
    case it is 0.5: a factor of 0 cannot be configured. *)
Theorem parallax_factor_fallback (e : Env) (m : ScrollManager) (d : store)
  (n : node) :
  NoDup (parallaxElements m) ->
  n ∈ parallaxElements m ->
  let v := parseFloat_opt (dataset (d n) !! "parallax") in
  let d' := final (updateParallax e m d) in
  getProperty "transform" (style (d' n))
  = "translateY("
    +:+ NumberToString (mul (Num (scrollY (window e)))
                          (if truthy v then v else Num (5 # 10)))
    +:+ "px)"
  /\ (v = NaN \/ (exists q, v = Num q /\ (q == 0)%Q) ->
      getProperty "transform" (style (d' n))
      = "translateY("
        +:+ NumberToString (Num (scrollY (window e) * (5 # 10)))
        +:+ "px)").
Proof.
  intros Hnd Hn v d'.
  destruct (forEach_alter
              (λ _ el, set_style "transform"
                         (parallax_transform (window e) el) el)
              (parallaxElements m) Hnd d) as [_ Hfin].
  assert (Ht : getProperty "transform" (style (d' n))
               = parallax_transform (window e) (d n)).
  { subst d'. unfold updateParallax, updateParallax_each.
    rewrite Hfin, (bool_decide_eq_true_2 _ Hn).
    apply RevealFacts.getProperty_set_style. }
  split.
  - rewrite Ht. reflexivity.
  - intros Hfalsy. rewrite Ht. unfold parallax_transform, or_else.
    fold v.
    assert (Hf : truthy v = false).
    { destruct Hfalsy as [->|(q & -> & Hq)]; [reflexivity|].
      cbn [truthy]. rewrite (proj2 (Qeq_bool_iff _ _) Hq). reflexivity. }
    rewrite Hf. reflexivity.
Qed.

Lemma dispatch_touch_flag (ev : event) (w : World) :
  isScrolling (state (manager w)) = touchTimeout (manager w) ->
  isScrolling (state (manager (final (dispatch ev w))))
  = touchTimeout (manager (final (dispatch ev w))).
Proof.
  intros Hw. destruct ev as [e|e|dy| | |t].
  - rewrite dispatch_scroll_manager. exact Hw.
  - exact Hw.
  - exact Hw.
  - reflexivity.
  - simpl. destruct (touchTimeout (manager w)) eqn:E;
      [reflexivity | cbn [final]; rewrite Hw, E; reflexivity].
  - unfold dispatch, run_frames. cbn [final].
    destruct (fold_left _ _ _). exact Hw.
Qed.

(** X28.  [isScrolling] is true exactly while the timer set by
    [handleTouchMove] is pending: this holds after any events on the
    loaded page, a touch move sets the flag, and the timer firing clears
    it, however many touch moves came before. *)
Theorem isScrolling_tracks_the_timer (e0 : Env) (d0 : store)
  (evs : list event) :
  let w := run evs (loaded e0 d0) in
  isScrolling (state (manager w)) = touchTimeout (manager w)
  /\ isScrolling (state (manager (final (dispatch EvTouchMove w)))) = true
  /\ isScrolling (state (manager (final (dispatch EvTouchTimer w)))) = false.
Proof.
  intros w.
  assert (Hinv : isScrolling (state (manager w)) = touchTimeout (manager w)).
  { subst w. generalize (loaded e0 d0)
      (eq_refl : isScrolling (state (manager (loaded e0 d0)))
                 = touchTimeout (manager (loaded e0 d0))).
    induction evs as [|ev evs IH]; intros w0 Hw0; [exact Hw0|].
    unfold run. cbn [fold_left]. fold (run evs (final (dispatch ev w0))).
    apply IH. apply dispatch_touch_flag. exact Hw0. }
  split; [exact Hinv|]. split; [reflexivity|].
  simpl. destruct (touchTimeout (manager w)) eqn:E; [reflexivity|].
  cbn [final]. exact Hinv.
Qed.
End WithBuiltins.

(** The banner with [data-parallax="0"], at scroll offset 100, is moved
    by 50 pixels. *)
Lemma parallax_factor_fallback_witness :
  let w0 := loaded (H := Host.builtins) (parallax_env 0) parallax_page in
  let d' := final (updateParallax (H := Host.builtins) (parallax_env 100)
                     (manager w0) (elements w0)) in
  getProperty "transform" (style (d' 1%nat)) = "translateY(50px)".
Proof.
  intros w0 d'.
  destruct (parallax_factor_fallback (H := Host.builtins)
              (parallax_env 100) (manager w0) (elements w0) 1%nat
              ltac:(decide_by_computation) ltac:(decide_by_computation))
    as [_ Hfall].
  subst d'. rewrite Hfall.
  - vm_compute. reflexivity.
  - right. exists (inject_Z 0). split; [vm_compute; reflexivity|reflexivity].
Defined.

End ParallaxFacts.
